(** * evalPy: the composition filter, the reaction-file filter, the
    scoring-output parser and the error statistics, embedded from
    [utils/filter_by_composition.py], [utils/molecule.py],
    [utils/res_file.py] and [utils/statistics.py].

    Python integers are [Z]; Python floats are IEEE binary64 numbers
    ([PrimFloat.float]); a [str] is a [string] whose characters are code
    points below 256; a [set] is a [gset]; a raised exception is the [Raise]
    branch of [result]. *)

From Stdlib Require Import ZArith Ascii String List Bool Lia Floats.
From stdpp Require Import base option list list_numbers sorting gmap strings.

Local Open Scope Z_scope.

(** ** Exceptions *)

(** Every exception raised by the modelled code is a Python [ValueError];
    the constructors tell the raising sites apart. *)
Inductive ValueError : Type :=
  | InvalidIntLiteral (tok : string)        (* int(tok) *)
  | InvalidFloatLiteral (tok : string)      (* float(tok) *)
  | UnpackMismatch (item : string)          (* start, end = item.split("-") *)
  | BothWildcard                            (* "Both start and end cannot be wildcard '*'." *)
  | NotInList (x : string)                  (* tokens.index(x) *)
  | InvalidSpeciesFormat (path : string)    (* extract_species_from_path *)
  | LargeDifference (line : string)         (* parse_res_file, strict mode *)
  | ConversionFailed (line : string)        (* parse_res_file, strict mode *)
  | NotEnoughTokens (line : string)         (* parse_res_file, strict mode *)
  | NumAtomsNotPresent                      (* Molecule.num_atoms *)
  | NumAtomsNegative                        (* Molecule.num_atoms setter *)
  | ChargeNotSet                            (* Molecule.charge *)
  | UhfNotSet                               (* Molecule.uhf *)
  | MinChargeAboveMax                       (* MoleculeConstraints.__init__ *)
  | MinAtomsAboveMax.                       (* MoleculeConstraints.__init__ *)

Inductive result (A : Type) : Type :=
  | Return (a : A)
  | Raise (e : ValueError).
Arguments Return {A} a.
Arguments Raise {A} e.

(** [result] is an error monad: [let* x := r in k] runs [r] and stops at the
    first [Raise]. *)
Definition bind {A B} (r : result A) (k : A -> result B) : result B :=
  match r with
  | Return a => k a
  | Raise e => Raise e
  end.

Notation "'let*' x ':=' r 'in' k" := (bind r (fun x => k))
  (at level 10, x pattern, r at level 200, k at level 200).

Definition raises {A} (r : result A) : Prop := exists e, r = Raise e.

(** ** Python built-ins on [str] *)
Module Py.

Definition code (c : ascii) : Z := Z.of_N (N_of_ascii c).

(** [str.isspace] on one character, for code points below 256. *)
Definition isspace (c : ascii) : bool :=
  let n := code c in
  ((9 <=? n) && (n <=? 13)) || ((28 <=? n) && (n <=? 32))
  || (n =? 133) || (n =? 160).

Definition ascii_eqb (a b : ascii) : bool := Ascii.eqb a b.

Definition str_eqb (a b : string) : bool := String.eqb a b.

Definition is_empty (s : string) : bool :=
  match s with EmptyString => true | _ => false end.

Fixpoint lstrip (s : string) : string :=
  match s with
  | String c r => if isspace c then lstrip r else s
  | EmptyString => EmptyString
  end.

Fixpoint rstrip (s : string) : string :=
  match s with
  | String c r =>
      let r' := rstrip r in
      if isspace c && is_empty r' then EmptyString else String c r'
  | EmptyString => EmptyString
  end.

(** [s.strip()] *)
Definition strip (s : string) : string := rstrip (lstrip s).

(** [c in s] for a one-character [c]. *)
Fixpoint contains (c : ascii) (s : string) : bool :=
  match s with
  | String d r => ascii_eqb c d || contains c r
  | EmptyString => false
  end.

(** [s.startswith(p)] *)
Fixpoint startswith (p s : string) : bool :=
  match p, s with
  | EmptyString, _ => true
  | String a p', String b s' => ascii_eqb a b && startswith p' s'
  | String _ _, EmptyString => false
  end.

(** [s.split(sep)] for a one-character separator: empty pieces are kept and
    the result is never empty. *)
Fixpoint split_on (sep : ascii) (s : string) : list string :=
  match s with
  | EmptyString => [EmptyString]
  | String c r =>
      if ascii_eqb c sep then EmptyString :: split_on sep r
      else match split_on sep r with
           | x :: xs => String c x :: xs
           | [] => [String c EmptyString]
           end
  end.

(** [s.split()]: the maximal runs of non-space characters.  [cur] is the run
    being read, last character first. *)
Fixpoint split_go (cur : string) (s : string) : list string :=
  match s with
  | EmptyString => if is_empty cur then [] else [String.rev cur]
  | String c r =>
      if isspace c
      then (if is_empty cur then split_go EmptyString r
            else String.rev cur :: split_go EmptyString r)
      else split_go (String c cur) r
  end.

Definition split (s : string) : list string := split_go EmptyString s.

(** [s.splitlines()]: a line ends at \n, \r, \r\n, \v, \f, \x1c, \x1d, \x1e or
    \x85; there is no last empty line. *)
Definition is_linebreak (c : ascii) : bool :=
  let n := code c in
  ((10 <=? n) && (n <=? 13)) || ((28 <=? n) && (n <=? 30)) || (n =? 133).

Fixpoint splitlines_go (cur : string) (s : string) : list string :=
  match s with
  | EmptyString => if is_empty cur then [] else [String.rev cur]
  | String c r =>
      if is_linebreak c
      then String.rev cur ::
           match r with
           | String d r' =>
               if (code c =? 13) && (code d =? 10)
               then splitlines_go EmptyString r'
               else splitlines_go EmptyString r
           | EmptyString => []
           end
      else splitlines_go (String c cur) r
  end.

Definition splitlines (s : string) : list string := splitlines_go EmptyString s.

(** *** [int(s)] *)

Definition digit (c : ascii) : option Z :=
  let n := code c in
  if (48 <=? n) && (n <=? 57) then Some (n - 48) else None.

(** Decimal digits with single underscores between them; [acc] is the value
    read so far and [after_digit] tells whether the previous character was a
    digit (an underscore is only allowed there, and not at the end). *)
Fixpoint digits_go (acc : Z) (after_digit : bool) (s : string) : option Z :=
  match s with
  | EmptyString => if after_digit then Some acc else None
  | String c r =>
      match digit c with
      | Some d => digits_go (10 * acc + d) true r
      | None =>
          if ascii_eqb c "_"%char && after_digit
          then match r with
               | String c' _ =>
                   match digit c' with
                   | Some _ => digits_go acc false r
                   | None => None
                   end
               | EmptyString => None
               end
          else None
      end
  end.

Definition digits (s : string) : option Z := digits_go 0 false s.

Definition signed (s : string) : bool * string :=
  match s with
  | String c r =>
      if ascii_eqb c "-"%char then (true, r)
      else if ascii_eqb c "+"%char then (false, r)
      else (false, s)
  | EmptyString => (false, s)
  end.

(** [int(s)] for a [str] argument, base 10.  The interpreter's optional cap on
    the number of digits is a run-time setting and is not modelled. *)
Definition int (s : string) : result Z :=
  let '(neg, body) := signed (strip s) in
  match digits body with
  | Some n => Return (if neg then - n else n)
  | None => Raise (InvalidIntLiteral s)
  end.

(** *** [float(s)] *)

(** The number of decimal digits of a digit run (underscores apart). *)
Fixpoint ndigits (s : string) : Z :=
  match s with
  | String c r => (match digit c with Some _ => 1 | None => 0 end) + ndigits r
  | EmptyString => 0
  end.

(** [break_at p s]: the characters of [s] before the first one satisfying
    [p], and what follows that character if there is one. *)
Fixpoint break_at (p : ascii -> bool) (s : string) : string * option string :=
  match s with
  | String c r =>
      if p c then (EmptyString, Some r)
      else let '(a, b) := break_at p r in (String c a, b)
  | EmptyString => (EmptyString, None)
  end.

Definition lower (c : ascii) : ascii :=
  let n := code c in
  if (65 <=? n) && (n <=? 90) then ascii_of_N (Z.to_N (n + 32)) else c.

Fixpoint lowercase (s : string) : string :=
  match s with
  | String c r => String (lower c) (lowercase r)
  | EmptyString => EmptyString
  end.

(** The binary64 number nearest to [(-1)^neg * m * 10^e] (ties to even,
    overflow to an infinity), for [0 <= m]. *)
Definition of_decimal (neg : bool) (m e : Z) : float :=
  match m with
  | Zpos p =>
      SF2Prim
        (if 0 <=? e
         then binary_normalize prec emax (if neg then - (m * 10 ^ e) else m * 10 ^ e) 0 neg
         else SFdiv prec emax (S754_finite neg p 0)
                (S754_finite false (Z.to_pos (10 ^ (- e))) 0))
  | _ => if neg then (-0)%float else 0%float
  end.

(** An optional digit run: [Some (value, number of digits)], where the empty
    run is [Some (0, 0)] and a malformed one is [None]. *)
Definition opt_digits (s : string) : option (Z * Z) :=
  if is_empty s then Some (0, 0)
  else match digits s with
       | Some v => Some (v, ndigits s)
       | None => None
       end.

(** The decimal forms [digits[.[digits]][e[+-]digits]] and
    [.digits[e[+-]digits]]. *)
Definition decimal (neg : bool) (body : string) : option float :=
  let '(mant, expo) := break_at (fun c => ascii_eqb (lower c) "e"%char) body in
  let '(ipart, fpart) := break_at (fun c => ascii_eqb c "."%char) mant in
  let e := match expo with
           | Some x => let '(eneg, ebody) := signed x in
                       match digits ebody with
                       | Some v => Some (if eneg then - v else v)
                       | None => None
                       end
           | None => Some 0
           end in
  let m := match fpart with
           | Some f =>
               if is_empty ipart && is_empty f then None
               else match opt_digits ipart, opt_digits f with
                    | Some (iv, _), Some (fv, fn) => Some (iv * 10 ^ fn + fv, fn)
                    | _, _ => None
                    end
           | None => match digits ipart with
                     | Some iv => Some (iv, 0)
                     | None => None
                     end
           end in
  match m, e with
  | Some (mv, fn), Some ev => Some (of_decimal neg mv (ev - fn))
  | _, _ => None
  end.

(** [float(s)] for a [str] argument: surrounding white space, a sign, then
    [inf], [infinity], [nan] (in any case) or a decimal form. *)
Definition float (s : string) : result PrimFloat.float :=
  let '(neg, body) := signed (strip s) in
  let word := lowercase body in
  if str_eqb word "inf" || str_eqb word "infinity"
  then Return (if neg then neg_infinity else infinity)
  else if str_eqb word "nan" then Return nan
  else match decimal neg body with
       | Some x => Return x
       | None => Raise (InvalidFloatLiteral s)
       end.

End Py.


(** ** [utils/molecule.py]: the part of [Molecule] the filter reads *)
Module Mol.

(** The private fields of a [Molecule] object.  [_atlist], [_xyz] and [_ati]
    are numpy arrays: the per-element counts, one coordinate row per atom and
    the 0-based element index of each atom.  The random generator [rng] is
    never read by the modelled code. *)
Record Molecule : Type := mkMolecule {
  _name : string;
  _num_atoms : option Z;
  _charge : option Z;
  _uhf : option Z;
  _atlist : list Z;
  _xyz : list (float * float * float);
  _ati : list Z
}.

(** [np.sum] of an [int64] array: the sum wraps around at 64 bits. *)
Definition wrap64 (z : Z) : Z := (z + 2 ^ 63) mod 2 ^ 64 - 2 ^ 63.

Definition np_sum_int (a : list Z) : Z :=
  fold_left (fun acc x => wrap64 (acc + x)) a 0.

Definition len {A} (l : list A) : Z := Z.of_nat (length l).

(** [a.size] as a truth value. *)
Definition nonempty {A} (l : list A) : bool :=
  match l with [] => false | _ :: _ => true end.

(** The [num_atoms] setter. *)
Definition set_num_atoms (m : Molecule) (value : Z) : result Molecule :=
  if value <? 0 then Raise NumAtomsNegative
  else Return (mkMolecule (_name m) (Some value) (_charge m) (_uhf m)
                 (_atlist m) (_xyz m) (_ati m)).

(** The [num_atoms] property: the stored count, else a count inferred from
    the arrays and stored in the object.  It returns the count together with
    the object as the call leaves it. *)
Definition num_atoms (m : Molecule) : result (Z * Molecule) :=
  match _num_atoms m with
  | Some n => Return (n, m)
  | None =>
      let* m' :=
        if nonempty (_atlist m) then set_num_atoms m (np_sum_int (_atlist m))
        else if nonempty (_xyz m) then set_num_atoms m (len (_xyz m))
        else if nonempty (_ati m) then set_num_atoms m (len (_ati m))
        else Return m in
      match _num_atoms m' with
      | Some n => if n =? 0 then Raise NumAtomsNotPresent else Return (n, m')
      | None => Raise NumAtomsNotPresent
      end
  end.

(** The [charge] and [uhf] properties. *)
Definition charge (m : Molecule) : result Z :=
  match _charge m with
  | Some c => Return c
  | None => Raise ChargeNotSet
  end.

Definition uhf (m : Molecule) : result Z :=
  match _uhf m with
  | Some u => Return u
  | None => Raise UhfNotSet
  end.

Definition ati (m : Molecule) : list Z := _ati m.
Definition name (m : Molecule) : string := _name m.

End Mol.

(** ** [utils/filter_by_composition.py] *)
Module Composition.
Import Mol.

Record MoleculeConstraints : Type := mkConstraints {
  allowed_elements : list Z;
  required_elements : list (list Z);
  min_charge : option Z;
  max_charge : option Z;
  max_uhf : option Z;
  min_num_atoms : option Z;
  max_num_atoms : option Z
}.

(** [MoleculeConstraints.__init__] *)
Definition MoleculeConstraints_init
    (allowed : list Z) (required : list (list Z))
    (min_c max_c max_u min_n max_n : option Z) : result MoleculeConstraints :=
  let* _ :=
    match min_c, max_c with
    | Some lo, Some hi => if hi <? lo then Raise MinChargeAboveMax else Return tt
    | _, _ => Return tt
    end in
  let* _ :=
    match min_n, max_n with
    | Some lo, Some hi => if hi <? lo then Raise MinAtomsAboveMax else Return tt
    | _, _ => Return tt
    end in
  Return (mkConstraints allowed required min_c max_c max_u min_n max_n).

(** [range(a, b)] *)
Definition range (a b : Z) : list Z := seqZ a (b - a).

(** One item of the element list, after [strip]: the indices it adds to the
    set. *)
Definition parse_item (item : string) : result (list Z) :=
  if Py.contains "-"%char item then
    match Py.split_on "-"%char item with
    | [start; end_] =>
        if Py.str_eqb end_ "*" && Py.str_eqb start "*" then Raise BothWildcard
        else
          (* end = 103 and start = 0 replace the wildcards; int() of an int
             is that int *)
          let* lo := (if Py.str_eqb start "*" then Return 0 else Py.int start) in
          let* hi := (if Py.str_eqb end_ "*" then Return 103 else Py.int end_) in
          Return (range (lo - 1) hi)
    | _ => Raise (UnpackMismatch item)
    end
  else
    let* n := Py.int item in
    Return [n - 1].

(** The [for item in elements] loop over the set being built. *)
Fixpoint parse_items (elements : list string) (set_allowed_elements : gset Z)
    : result (gset Z) :=
  match elements with
  | [] => Return set_allowed_elements
  | item :: rest =>
      let* new := parse_item item in
      parse_items rest (set_allowed_elements ∪ list_to_set new)
  end.

(** [sorted(list(s))] *)
Definition sorted (s : gset Z) : list Z := merge_sort Z.le (elements s).

Definition parse_element_list (allowed_elements : string) : result (list Z) :=
  if Py.is_empty allowed_elements then Return []
  else
    let elements := map Py.strip (Py.split_on ","%char allowed_elements) in
    let* s := parse_items elements ∅ in
    Return (sorted s).

(** [ati in mol.ati] on a numpy array. *)
Definition in_array (x : Z) (a : list Z) : bool := bool_decide (x ∈ a).

(** [all(...)] and [any(...)] of a list of booleans. *)
Definition all (l : list bool) : bool := forallb id l.
Definition any (l : list bool) : bool := existsb id l.

Definition molecule_has_required_elements
    (mol : Molecule) (required : list (list Z)) (verbosity : Z) : bool :=
  let contained_combinations :=
    map (fun req_elem =>
           let contained := map (fun a => in_array a (ati mol)) req_elem in
           all contained)
        required in
  any contained_combinations.

(** An optional bound test whose getter runs only when the bound is given,
    as in [bound is not None and getter < bound]. *)
Definition atoms_outside (bound : option Z) (test : Z -> Z -> bool)
    (mol : Molecule) : result (bool * Molecule) :=
  match bound with
  | None => Return (false, mol)
  | Some b => let* (n, mol') := num_atoms mol in Return (test n b, mol')
  end.

Definition field_outside (bound : option Z) (test : Z -> Z -> bool)
    (getter : Molecule -> result Z) (mol : Molecule) : result bool :=
  match bound with
  | None => Return false
  | Some b => let* v := getter mol in Return (test v b)
  end.

(** One turn of the loop of [check_molecule_composition]: whether the
    molecule is appended to [allowed_mols], and the object as the turn leaves
    it.  The messages printed at [verbosity > 2] go to standard output only. *)
Definition check_one (verbosity : Z) (c : MoleculeConstraints) (mol : Molecule)
    : result (bool * Molecule) :=
  let* (too_few, mol) := atoms_outside (min_num_atoms c) Z.ltb mol in
  if too_few then Return (false, mol) else
  let* (too_many, mol) := atoms_outside (max_num_atoms c) Z.gtb mol in
  if too_many then Return (false, mol) else
  if nonempty (allowed_elements c)
     && negb (all (map (fun a => in_array a (allowed_elements c)) (ati mol)))
  then Return (false, mol) else
  if nonempty (required_elements c)
     && negb (molecule_has_required_elements mol (required_elements c) verbosity)
  then Return (false, mol) else
  let* low := field_outside (min_charge c) Z.ltb charge mol in
  if low then Return (false, mol) else
  let* high := field_outside (max_charge c) Z.gtb charge mol in
  if high then Return (false, mol) else
  let* spin := field_outside (max_uhf c) Z.gtb uhf mol in
  if spin then Return (false, mol) else
  Return (true, mol).

Fixpoint check_loop (verbosity : Z) (c : MoleculeConstraints)
    (mols : list Molecule) (allowed_mols : list Molecule)
    : result (list Molecule) :=
  match mols with
  | [] => Return allowed_mols
  | mol :: rest =>
      let* (keep, mol') := check_one verbosity c mol in
      check_loop verbosity c rest
        (if keep then allowed_mols ++ [mol'] else allowed_mols)
  end.

(** The returned list holds the kept objects in the state the call leaves
    them in. *)
Definition check_molecule_composition
    (mols : list Molecule) (verbosity : Z) (molecule_constraints : MoleculeConstraints)
    : result (list Molecule) :=
  check_loop verbosity molecule_constraints mols [].

End Composition.

(** ** The regular expressions of [extract_species_from_path] *)
Module Re.

(** The pieces the four patterns are made of: a literal character, an
    optional literal character ([/?]) and a named group holding a greedy,
    non-empty run of characters outside a set ([(?P<name>[^...]+)]). *)
Inductive atom : Type :=
  | Lit (c : ascii)
  | Opt (c : ascii)
  | Group (name : string) (excluded : list ascii).

Definition excludes (excluded : list ascii) (c : ascii) : bool :=
  existsb (Py.ascii_eqb c) excluded.

Definition or_else {A} (a b : option A) : option A :=
  match a with Some _ => a | None => b end.

(** [re.match(pattern, s)]: the pattern is matched at the start of [s], with
    backtracking, longest run first; the result lists the named groups. *)
Fixpoint re_match (pattern : list atom) (s : string) : option (list (string * string)) :=
  match pattern with
  | [] => Some []
  | Lit c :: rest =>
      match s with
      | String d r => if Py.ascii_eqb c d then re_match rest r else None
      | EmptyString => None
      end
  | Opt c :: rest =>
      or_else
        match s with
        | String d r => if Py.ascii_eqb c d then re_match rest r else None
        | EmptyString => None
        end
        (re_match rest s)
  | Group name excluded :: rest =>
      (fix run (taken : string) (s : string) {struct s} :=
         let stop :=
           if Py.is_empty taken then None
           else match re_match rest s with
                | Some m => Some ((name, String.rev taken) :: m)
                | None => None
                end in
         match s with
         | String d r =>
             if excludes excluded d then stop
             else or_else (run (String d taken) r) stop
         | EmptyString => stop
         end) EmptyString s
  end.

(** [m.group(name)] *)
Fixpoint group (m : list (string * string)) (name : string) : string :=
  match m with
  | (n, v) :: rest => if Py.str_eqb n name then v else group rest name
  | [] => EmptyString
  end.

End Re.

(** ** [utils/res_file.py] *)
Module ResFile.
Import Re.

(** [(?P<prefix>[^{}]+)\{(?P<species>[^}]+)\}(?P<suffix>[^/]+)] *)
Definition re_base_before_and_after : list atom :=
  [Group "prefix" ["{"; "}"]%char; Lit "{"; Group "species" ["}"]%char; Lit "}";
   Group "suffix" ["/"]%char].

(** [(?P<base>[^{}]+)/?\{(?P<species>[^}]+)\}] *)
Definition re_base_before : list atom :=
  [Group "base" ["{"; "}"]%char; Opt "/"; Lit "{"; Group "species" ["}"]%char; Lit "}"].

(** [\{(?P<species>[^}]+)\}(?P<base>[^/]+)] *)
Definition re_base_after : list atom :=
  [Lit "{"; Group "species" ["}"]%char; Lit "}"; Group "base" ["/"]%char].

(** [\{(?P<species>[^}]+)\}] *)
Definition re_no_base : list atom :=
  [Lit "{"; Group "species" ["}"]%char; Lit "}"].

(** [[s.strip() for s in m.group("species").split(",")]] *)
Definition species_of (m : list (string * string)) : list string :=
  map Py.strip (Py.split_on ","%char (group m "species")).

Definition extract_species_from_path (path : string) : result (list string) :=
  match re_match re_base_before_and_after path with
  | Some m =>
      let prefix := group m "prefix" in
      let suffix := group m "suffix" in
      Return (map (fun s => prefix ++ s ++ suffix)%string (species_of m))
  | None =>
  match re_match re_base_before path with
  | Some m =>
      let base := group m "base" in
      Return (map (fun s => base ++ s)%string (species_of m))
  | None =>
  match re_match re_base_after path with
  | Some m =>
      let base := group m "base" in
      Return (map (fun s => s ++ base)%string (species_of m))
  | None =>
  match re_match re_no_base path with
  | Some m => Return (species_of m)
  | None => Raise (InvalidSpeciesFormat path)
  end end end end.

(** [x in tokens] *)
Definition in_list (x : string) (tokens : list string) : bool :=
  existsb (Py.str_eqb x) tokens.

(** [tokens.index(x)] *)
Fixpoint index (x : string) (tokens : list string) : result nat :=
  match tokens with
  | [] => Raise (NotInList x)
  | t :: rest =>
      if Py.str_eqb t x then Return 0%nat
      else let* i := index x rest in Return (S i)
  end.

(** The test that makes a line a tmer entry.  [tokens[0]] exists whenever
    ["x" in tokens] holds. *)
Definition is_tmer_entry (tokens : list string) : bool :=
  in_list "x" tokens
  && match tokens with
     | t0 :: _ => Py.startswith "$tmer" t0 || Py.startswith "tmer" t0
     | [] => false
     end.

(** The loop collecting [species_tokens] from [tokens[1:]] up to ["x"]. *)
Fixpoint collect_species_tokens (tokens : list string) : list string :=
  match tokens with
  | [] => []
  | token :: rest =>
      if Py.str_eqb token "x" then [] else token :: collect_species_tokens rest
  end.

(** The loop over [tokens[stochiometry_start:]]. *)
Fixpoint stochiometry_loop (tokens : list string) (stochiometry_values : list Z)
    : result (list Z) :=
  match tokens with
  | [] => Return stochiometry_values
  | token :: rest =>
      if Py.startswith "$w" token then Return stochiometry_values
      else let* n := Py.int token in
           stochiometry_loop rest (stochiometry_values ++ [n])
  end.

(** The inner loop over [token.split("/")]: the last piece that is neither
    empty nor starts with [$]. *)
Definition token_to_search (token : string) : string :=
  fold_left
    (fun found relevant_path =>
       let relevant_path := Py.strip relevant_path in
       if Py.startswith "$" relevant_path || Py.is_empty relevant_path
       then found else relevant_path)
    (Py.split_on "/"%char token) EmptyString.

(** The loop over [species_tokens] that builds [species]. *)
Fixpoint species_loop (species_tokens : list string) (species : list string)
    : result (list string) :=
  match species_tokens with
  | [] => Return species
  | token :: rest =>
      let found := token_to_search token in
      if Py.is_empty found then species_loop rest species
      else if Py.contains "{"%char found && Py.contains "}"%char found
      then let* expanded := extract_species_from_path found in
           species_loop rest (species ++ expanded)
      else species_loop rest (species ++ [found])
  end.

(** [all(s in valid_species for s in set(species))] *)
Definition all_valid (valid_species : gset string) (species : list string) : bool :=
  let unique_species : gset string := list_to_set species in
  forallb (fun s => bool_decide (s ∈ valid_species)) (elements unique_species).

(** The three lists the loop of [filter_res_file] appends to. *)
Definition filtered : Type := list string * list (list string) * list (list Z).

(** One turn of the loop of [filter_res_file]. *)
Definition filter_line (valid_species : gset string) (acc : filtered) (line : string)
    : result filtered :=
  let '(result, list_reaction_species, list_stochiometries) := acc in
  let stripped := Py.strip line in
  if Py.is_empty stripped || Py.startswith "#" stripped
  then Return (result ++ [line], list_reaction_species, list_stochiometries)
  else
    let tokens := Py.split stripped in
    if negb (is_tmer_entry tokens)
    then Return (result ++ [line], list_reaction_species, list_stochiometries)
    else
      let species_tokens := collect_species_tokens (tail tokens) in
      let* ix := index "x" tokens in
      let stochiometry_start := S ix in
      let* stochiometry_values :=
        stochiometry_loop (drop stochiometry_start tokens) [] in
      let* species := species_loop species_tokens [] in
      if all_valid valid_species species
      then Return (result ++ [line],
                   list_reaction_species ++ [species],
                   list_stochiometries ++ [stochiometry_values])
      else Return acc.

Fixpoint filter_loop (valid_species : gset string) (res_lines : list string)
    (acc : filtered) : result filtered :=
  match res_lines with
  | [] => Return acc
  | line :: rest =>
      let* acc' := filter_line valid_species acc line in
      filter_loop valid_species rest acc'
  end.

Definition filter_res_file (res_lines : list string) (valid_species : gset string)
    : result filtered :=
  filter_loop valid_species res_lines ([], [], []).

(** *** [parse_res_file] *)

Definition row : Type := Z * float * float.

(** [tokens[i]], used only where [len(tokens) >= 8] makes the index valid. *)
Definition item (tokens : list string) (i : nat) : string :=
  default EmptyString (tokens !! i).

(** [abs(comp_energy - ref_energy) > 750] *)
Definition too_far (comp_energy ref_energy : float) : bool :=
  PrimFloat.ltb 750 (PrimFloat.abs (comp_energy - ref_energy)).

(** The body of the [try]: [None] is the [continue] taken on a large
    difference, and a [Raise] is handled by [parse_line]. *)
Definition try_body (strictmode : bool) (line : string) (tokens : list string)
    (index : Z) : result (option row) :=
  let* ref_energy := Py.float (Py.strip (item tokens 7)) in
  let* comp_energy := Py.float (Py.strip (item tokens 5)) in
  if too_far comp_energy ref_energy
  then if strictmode then Raise (LargeDifference line) else Return None
  else Return (Some (index, ref_energy, comp_energy)).

(** One non-blank line: the row to append, if any.  The [except ValueError]
    clause also catches the error raised inside the [try] for a large
    difference.  The messages printed at [verbosity > 1] go to standard
    output only. *)
Definition parse_line (strictmode : bool) (line : string) (tokens : list string)
    (index : Z) : result (option row) :=
  if 8 <=? Mol.len tokens
  then match try_body strictmode line tokens index with
       | Return r => Return r
       | Raise _ =>
           if strictmode then Raise (ConversionFailed line) else Return None
       end
  else if strictmode then Raise (NotEnoughTokens line) else Return None.

Fixpoint parse_loop (strictmode : bool) (lines : list string)
    (data : list row) (index : Z) : result (list row) :=
  match lines with
  | [] => Return data
  | line :: rest =>
      let line := Py.strip line in
      if Py.is_empty line then parse_loop strictmode rest data index
      else
        let tokens := Py.split line in
        let index := index + 1 in
        let* r := parse_line strictmode line tokens index in
        parse_loop strictmode rest
          (match r with Some x => data ++ [x] | None => data end) index
  end.

Definition parse_res_file (res_file_content : string) (strictmode : bool)
    (verbosity : Z) : result (list row) :=
  parse_loop strictmode (Py.splitlines res_file_content) [] (-1).

End ResFile.

(** ** [utils/statistics.py] *)
Module Statistics.

Local Open Scope float_scope.

(** A row of the data frame built by [evaluate_benchmark]; the two value
    columns have dtype float64. *)
Record Row : Type := mkRow {
  Reaction : string;
  Stochiometry : string;
  ReferenceValue : float;
  MethodValue : float
}.

Definition DataFrame : Type := list Row.

(** *** The numpy and pandas operations the function calls

    [np.mean], [np.std], [np.max] and [np.min] applied to a pandas [Series]
    defer to the method of that name on the [Series], which leaves out the
    not-a-number entries and yields not-a-number when nothing is left (for
    [std] with [ddof=1]: when at most one entry is left).  The library adds a
    long column in blocks; [sum] adds from left to right, which is the same
    sum for the columns of at most two rows evaluated below. *)

Definition notna (s : list float) : list float :=
  filter (fun x => negb (is_nan x)) s.

(** The count of entries as a float64. *)
Definition count (s : list float) : float :=
  SF2Prim (binary_normalize prec emax (Z.of_nat (length s)) 0 false).

Definition sum (s : list float) : float := fold_left PrimFloat.add s 0.

Definition np_abs (s : list float) : list float := map PrimFloat.abs s.

Definition square (s : list float) : list float := map (fun x => x * x) s.

Definition np_mean (s : list float) : float :=
  let values := notna s in
  match values with
  | [] => nan
  | _ :: _ => sum values / count values
  end.

(** [np.std(s, ddof=1)] *)
Definition np_std_ddof1 (s : list float) : float :=
  let values := notna s in
  if (Z.of_nat (length values) <=? 1)%Z then nan
  else
    let avg := sum values / count values in
    let sqr := square (map (fun x => avg - x) values) in
    PrimFloat.sqrt (sum sqr / (count values - 1)).

Definition fmax (a b : float) : float := if PrimFloat.ltb a b then b else a.
Definition fmin (a b : float) : float := if PrimFloat.ltb b a then b else a.

Definition np_max (s : list float) : float :=
  match notna s with
  | [] => nan
  | x :: rest => fold_left fmax rest x
  end.

Definition np_min (s : list float) : float :=
  match notna s with
  | [] => nan
  | x :: rest => fold_left fmin rest x
  end.

(** The dictionary returned by [statistical_measures], with its keys as
    fields. *)
Record Stats : Type := mkStats {
  N : Z;
  MeanAbsRef : float;
  MAE : float;
  MSE : float;
  STDDEV : float;
  RMSD : float;
  MAX : float;
  MIN : float;
  ErrRange : float
}.

Definition statistical_measures (subset_data : DataFrame) : Stats :=
  let errors :=
    map (fun r => MethodValue r - ReferenceValue r) subset_data in
  {| N := Z.of_nat (length subset_data);
     MeanAbsRef := np_mean (np_abs (map ReferenceValue subset_data));
     MAE := np_mean (np_abs errors);
     MSE := np_mean errors;
     STDDEV := np_std_ddof1 errors;
     RMSD := PrimFloat.sqrt (np_mean (square errors));
     MAX := np_max errors;
     MIN := np_min errors;
     ErrRange := np_max errors - np_min errors |}.

End Statistics.

(** ** Notions used to state the properties *)
Module Props.
Import ResFile.

(** A line that the loop of [filter_res_file] treats as a reaction: not
    blank, not a comment, and a tmer entry. *)
Definition is_reaction_line (line : string) : bool :=
  let stripped := Py.strip line in
  negb (Py.is_empty stripped || Py.startswith "#" stripped)
  && is_tmer_entry (Py.split stripped).

(** The species list and the stoichiometry list the loop computes for a
    reaction line. *)
Definition line_species (line : string) : result (list string) :=
  species_loop (collect_species_tokens (tail (Py.split (Py.strip line)))) [].

Definition line_stochiometry (line : string) : result (list Z) :=
  let tokens := Py.split (Py.strip line) in
  let* ix := index "x" tokens in
  stochiometry_loop (drop (S ix) tokens) [].

(** Appending what a run of lines contributes to the three lists. *)
Definition app3 (a b : filtered) : filtered :=
  (a.1.1 ++ b.1.1, a.1.2 ++ b.1.2, a.2 ++ b.2).

Definition nothing : filtered := ([], [], []).

(** What one line contributes to the three lists, whatever has been
    collected before it. *)
Definition contribution (valid_species : gset string) (line : string)
    : result filtered :=
  if is_reaction_line line then
    let* st := line_stochiometry line in
    let* sp := line_species line in
    Return (if all_valid valid_species sp then ([line], [sp], [st]) else nothing)
  else Return ([line], [], []).

(** A line of the scoring output that is blank after [strip]. *)
Definition is_blank (line : string) : bool := Py.is_empty (Py.strip line).

(** The number of non-blank lines among [lines]. *)
Definition nonblank_count (lines : list string) : Z :=
  Z.of_nat (length (filter (fun l => is_blank l = false) lines)).

Definition row_index (r : row) : Z := r.1.1.

(** The rows the lenient parse appends for [lines] when the counter stands
    at [index] before them. *)
Fixpoint rows_from (index : Z) (lines : list string) : list row :=
  match lines with
  | [] => []
  | line :: rest =>
      if is_blank line then rows_from index rest
      else
        match parse_line false (Py.strip line) (Py.split (Py.strip line)) (index + 1) with
        | Return (Some x) => x :: rows_from (index + 1) rest
        | _ => rows_from (index + 1) rest
        end
  end.

(** The fields of a molecule that decide the tests after the atom count. *)
Definition same_fields (m m' : Mol.Molecule) : Prop :=
  Mol._charge m' = Mol._charge m /\ Mol._uhf m' = Mol._uhf m /\
  Mol._ati m' = Mol._ati m.

End Props.

(** ** Notions used to state further properties of the composition filter *)
Module CompositionProps.
Import Mol Composition.

(** [lo <= v <= hi], where an absent bound does not restrict. *)
Definition within (lo hi : option Z) (v : Z) : bool :=
  match lo with Some l => l <=? v | None => true end
  && match hi with Some h => v <=? h | None => true end.

(** The two element tests of the filter; each is skipped when its list is
    empty. *)
Definition elements_ok (c : MoleculeConstraints) (m : Molecule) : bool :=
  (negb (nonempty (allowed_elements c))
   || all (map (fun a => in_array a (allowed_elements c)) (ati m)))
  && (negb (nonempty (required_elements c))
      || molecule_has_required_elements m (required_elements c) 0).

(** The decision of the filter on a molecule whose count, charge and spin
    are all stored. *)
Definition passes (c : MoleculeConstraints) (m : Molecule) : bool :=
  match _num_atoms m, _charge m, _uhf m with
  | Some n, Some q, Some u =>
      within (min_num_atoms c) (max_num_atoms c) n
      && elements_ok c m
      && within (min_charge c) (max_charge c) q
      && within None (max_uhf c) u
  | _, _, _ => false
  end.

Definition populated (m : Molecule) : Prop :=
  is_Some (_num_atoms m) /\ is_Some (_charge m) /\ is_Some (_uhf m).

(** A value fails a bound that is given; [test] is [<] for a lower and [>]
    for an upper bound. *)
Definition outside (bound : option Z) (test : Z -> Z -> bool) (v : Z) : bool :=
  match bound with Some b => test v b | None => false end.

(** A bound that is given is met by a stored value. *)
Definition bound_met (bound field : option Z) (R : Z -> Z -> Prop) : Prop :=
  forall b, bound = Some b -> exists v, field = Some v /\ R v b.

(** What the filter guarantees of a molecule it keeps. *)
Definition satisfies (c : MoleculeConstraints) (m : Molecule) : Prop :=
  bound_met (min_num_atoms c) (_num_atoms m) Z.ge /\
  bound_met (max_num_atoms c) (_num_atoms m) Z.le /\
  (allowed_elements c <> [] -> forall a, a ∈ ati m -> a ∈ allowed_elements c) /\
  (required_elements c <> [] ->
     exists g, g ∈ required_elements c /\ forall a, a ∈ g -> a ∈ ati m) /\
  bound_met (min_charge c) (_charge m) Z.ge /\
  bound_met (max_charge c) (_charge m) Z.le /\
  bound_met (max_uhf c) (_uhf m) Z.le.

(** [m'] is the object [m], possibly with its atom count stored by the
    [num_atoms] property. *)
Definition stored_from (m m' : Molecule) : Prop :=
  _name m' = _name m /\ _charge m' = _charge m /\ _uhf m' = _uhf m /\
  _atlist m' = _atlist m /\ _xyz m' = _xyz m /\ _ati m' = _ati m /\
  (_num_atoms m' = _num_atoms m \/ _num_atoms m = None).

End CompositionProps.

(** ** Notions used to state further properties of the species expansion *)
Module SpeciesProps.

(** No character of [s] is in [excluded]. *)
Fixpoint avoids (excluded : list ascii) (s : string) : bool :=
  match s with
  | String c r => negb (Re.excludes excluded c) && avoids excluded r
  | EmptyString => true
  end.

(** The longest start of [s] that holds no character of [excluded]. *)
Fixpoint upto (excluded : list ascii) (s : string) : string :=
  match s with
  | String c r => if Re.excludes excluded c then EmptyString else String c (upto excluded r)
  | EmptyString => EmptyString
  end.

(** What follows that start. *)
Fixpoint after (excluded : list ascii) (s : string) : string :=
  match s with
  | String c r => if Re.excludes excluded c then s else after excluded r
  | EmptyString => EmptyString
  end.

(** One scan from the left: the text before the first brace, which must be
    an opening one; the list up to the next closing brace, which must exist
    and not follow at once; and the rest. *)
Definition scan (path : string) : option (string * string * string) :=
  match after ["{"; "}"]%char path with
  | String c x =>
      if Py.ascii_eqb c "{" then
        match after ["}"%char] x with
        | String _ tail =>
            if Py.is_empty (upto ["}"%char] x) then None
            else Some (upto ["{"; "}"]%char path, upto ["}"%char] x, tail)
        | EmptyString => None
        end
      else None
  | EmptyString => None
  end.

(** The search that [re_match] makes for a group, with [k] standing for the
    match of the rest of the pattern. *)
Fixpoint group_run (name : string) (excluded : list ascii)
    (k : string -> option (list (string * string)))
    (taken s : string) {struct s} : option (list (string * string)) :=
  let stop :=
    if Py.is_empty taken then None
    else match k s with
         | Some m => Some ((name, String.rev taken) :: m)
         | None => None
         end in
  match s with
  | String d r =>
      if Re.excludes excluded d then stop
      else Re.or_else (group_run name excluded k (String d taken) r) stop
  | EmptyString => stop
  end.

End SpeciesProps.

(** ** [eval.py]: the required elements and the join of reactions and rows *)
Module Eval.
Import Composition ResFile.

(** The exceptions of this part: a [ValueError] of the element selector,
    the [ValueError] for the two exclusive options, and the [IndexError] of
    a list index out of range. *)
Inductive Exception : Type :=
  | FromValueError (e : ValueError)
  | BothRequiredOptions
  | IndexError (index : Z).

Inductive outcome (A : Type) : Type :=
  | Done (a : A)
  | Fail (e : Exception).
Arguments Done {A} a.
Arguments Fail {A} e.

(** The two options of [argparse.Namespace] that [parse_required_elements]
    reads; each is a [str] or [None]. *)
Record Namespace : Type := mkNamespace {
  required_elements_all : option string;
  required_elements_one : option string
}.

(** The truth value of an option: neither [None] nor the empty string. *)
Definition given (o : option string) : bool :=
  match o with
  | Some s => negb (Py.is_empty s)
  | None => false
  end.

Definition text (o : option string) : string := default EmptyString o.

Definition parse_required_elements (parsed_args : Namespace)
    : outcome (list (list Z)) :=
  let required_elements : list (list Z) := [] in
  if given (required_elements_all parsed_args)
     && given (required_elements_one parsed_args)
  then Fail BothRequiredOptions
  else
    match
      (if given (required_elements_all parsed_args) then
         match parse_element_list (text (required_elements_all parsed_args)) with
         | Return required_elements_all => Done (required_elements ++ [required_elements_all])
         | Raise e => Fail (FromValueError e)
         end
       else Done required_elements)
    with
    | Fail e => Fail e
    | Done required_elements =>
        if given (required_elements_one parsed_args) then
          match parse_element_list (text (required_elements_one parsed_args)) with
          | Return required_elements_one =>
              Done (fold_left (fun acc elem => acc ++ [[elem]])
                      required_elements_one required_elements)
          | Raise e => Fail (FromValueError e)
          end
        else Done required_elements
    end.

(** [l[i]] for a list and an integer: a negative index counts from the
    end. *)
Definition getitem {A} (l : list A) (i : Z) : option A :=
  if 0 <=? i then l !! Z.to_nat i
  else if - Mol.len l <=? i then l !! Z.to_nat (Mol.len l + i)
  else None.

(** A row of the table built by [evaluate_benchmark]: the species and the
    stoichiometry of a reaction with the reference and the computed value. *)
Definition joined : Type := list string * list Z * float * float.

(** The loop [for index, ref, comp in res_data] of [evaluate_benchmark]. *)
Fixpoint join_rows (reactions : list (list string)) (stochiometries : list (list Z))
    (res_data : list row) (rows : list joined) : outcome (list joined) :=
  match res_data with
  | [] => Done rows
  | (index, ref, comp) :: rest =>
      match getitem reactions index, getitem stochiometries index with
      | Some reaction, Some stochiometry =>
          join_rows reactions stochiometries rest
            (rows ++ [(reaction, stochiometry, ref, comp)])
      | _, _ => Fail (IndexError index)
      end
  end.

(** [set(range(len(reactions))) - {index for index, *_ in res_data}] *)
Definition missing_indices (reactions : list (list string)) (res_data : list row)
    : gset Z :=
  list_to_set (seqZ 0 (Mol.len reactions))
  ∖ list_to_set (map (fun x : row => x.1.1) res_data).

End Eval.

(** ** [utils/molecule.py]: the conversions between [ati] and [atlist] *)
Module Conversion.
Import Mol.

(** The exceptions numpy raises here: the [IndexError] of an index out of
    bounds and the [ValueError] of [np.full] for a negative shape. *)
Inductive Exception : Type :=
  | OutOfBounds (index : Z)
  | NegativeDimensions (num : Z).

Inductive numpy (A : Type) : Type :=
  | Value (a : A)
  | Throw (e : Exception).
Arguments Value {A} a.
Arguments Throw {A} e.

(** The position an index [i] denotes in an array of length [n]: a negative
    index counts from the end. *)
Definition position (n i : Z) : Z := if i <? 0 then n + i else i.

(** [a[i] += 1] on an [int64] array. *)
Definition increment (a : list Z) (i : Z) : numpy (list Z) :=
  if (i <? - len a) || (len a <=? i) then Throw (OutOfBounds i)
  else Value (alter (fun x => wrap64 (x + 1)) (Z.to_nat (position (len a) i)) a).

(** The loop of [ati_to_atlist]. *)
Fixpoint count_atoms (atlist ati : list Z) : numpy (list Z) :=
  match ati with
  | [] => Value atlist
  | atomtype :: rest =>
      match increment atlist atomtype with
      | Value atlist' => count_atoms atlist' rest
      | Throw e => Throw e
      end
  end.

Definition ati_to_atlist (ati : list Z) : numpy (list Z) :=
  let atlist := replicate 103 0 in
  count_atoms atlist ati.

(** [np.full(shape=num, fill_value=i)] *)
Definition np_full (num i : Z) : numpy (list Z) :=
  if num <? 0 then Throw (NegativeDimensions num)
  else Value (replicate (Z.to_nat num) i).

(** The loop of [atlist_to_ati] from the index [i] on. *)
Fixpoint append_atoms (i : Z) (atlist ati : list Z) : numpy (list Z) :=
  match atlist with
  | [] => Value ati
  | num :: rest =>
      match np_full num i with
      | Value block => append_atoms (i + 1) rest (ati ++ block)
      | Throw e => Throw e
      end
  end.

Definition atlist_to_ati (atlist : list Z) : numpy (list Z) :=
  let ati : list Z := [] in
  append_atoms 0 atlist ati.

End Conversion.

(** ** Notions used to state the properties of the conversions *)
Module ConversionProps.
Import Mol Conversion.

(** The element indices the entries of [ati] denote in an array of length
    [n]. *)
Definition positions (n : Z) (ati : list Z) : list Z := map (position n) ati.

(** How many entries of [l] are equal to [k]. *)
Definition atoms_of (k : Z) (l : list Z) : Z := Z.of_nat (count_occ Z.eq_dec l k).

(** The sum of the entries without rounding. *)
Definition total (l : list Z) : Z := fold_right Z.add 0 l.

(** [num] copies of each index, from the index [i] on. *)
Fixpoint blocks (i : Z) (atlist : list Z) : list Z :=
  match atlist with
  | [] => []
  | num :: rest => replicate (Z.to_nat num) i ++ blocks (i + 1) rest
  end.

End ConversionProps.

(** ** Properties *)

Lemma bind_Return {A B} (r : result A) (k : A -> result B) (b : B) :
  bind r k = Return b -> exists a, r = Return a /\ k a = Return b.
Proof. destruct r as [a|e]; simpl; [eauto | discriminate]. Qed.

Lemma bind_Raise {A B} (r : result A) (k : A -> result B) :
  raises r -> raises (bind r k).
Proof. intros [e ->]. exists e. reflexivity. Qed.

(** *** The first token of a line *)

Lemma lstrip_head (s : string) (c : ascii) (r : string) :
  Py.lstrip s = String c r -> Py.isspace c = false.
Proof.
  induction s as [|d s IH]; simpl; [discriminate|].
  destruct (Py.isspace d) eqn:E; [exact IH|]. intros [= <- _]. exact E.
Qed.

(** A stripped string is empty or starts with a character that is not white
    space. *)
Lemma strip_head (s : string) :
  Py.strip s = EmptyString \/
  exists c r, Py.strip s = String c r /\ Py.isspace c = false.
Proof.
  unfold Py.strip. destruct (Py.lstrip s) as [|c r] eqn:E; [by left|].
  right. apply lstrip_head in E. exists c, (Py.rstrip r).
  cbn [Py.rstrip]. by rewrite E.
Qed.

Lemma split_go_head (s cur : string) :
  Py.is_empty cur = false ->
  exists t ts, Py.split_go cur s = String.rev_app cur t :: ts.
Proof.
  revert cur. induction s as [|d s IH]; intros cur Hcur; cbn [Py.split_go].
  - rewrite Hcur. by exists EmptyString, [].
  - destruct (Py.isspace d).
    + rewrite Hcur. by eexists EmptyString, _.
    + destruct (IH (String d cur) eq_refl) as (t & ts & ->).
      by exists (String d t), ts.
Qed.

(** The first token of a string that starts with a character that is not
    white space starts with that character. *)
Lemma split_head (c : ascii) (r : string) :
  Py.isspace c = false ->
  exists t ts, Py.split (String c r) = String c t :: ts.
Proof.
  intros Hc. unfold Py.split. cbn [Py.split_go]. rewrite Hc.
  destruct (split_go_head r (String c EmptyString) eq_refl) as (t & ts & ->).
  by exists t, ts.
Qed.

(** A line is treated as a reaction exactly when its tokens hold ["x"] and
    the first of them starts with ["$tmer"] or ["tmer"]: such a line is
    neither blank nor a comment. *)
Lemma is_reaction_line_tmer (line : string) :
  Props.is_reaction_line line = ResFile.is_tmer_entry (Py.split (Py.strip line)).
Proof.
  unfold Props.is_reaction_line, ResFile.is_tmer_entry.
  destruct (strip_head line) as [->|(c & r & -> & Hc)].
  { simpl. reflexivity. }
  destruct (split_head c r Hc) as (t & ts & ->).
  cbn [Py.is_empty Py.startswith orb negb andb].
  destruct (Ascii.eqb_spec "#"%char c) as [<-|Hne].
  - cbn. by rewrite andb_false_r.
  - unfold Py.ascii_eqb. by rewrite (proj2 (Ascii.eqb_neq _ _) Hne).
Qed.

Section FilterResFile.
Import ResFile Props.

Variable valid_species : gset string.

Lemma app3_nothing_l (a : filtered) : app3 nothing a = a.
Proof. destruct a as [[k s] t]. reflexivity. Qed.

Lemma app3_nothing_r (a : filtered) : app3 a nothing = a.
Proof.
  destruct a as [[k s] t]. unfold app3, nothing. simpl.
  by rewrite !app_nil_r.
Qed.

Lemma app3_assoc (a b c : filtered) : app3 (app3 a b) c = app3 a (app3 b c).
Proof.
  destruct a as [[? ?] ?], b as [[? ?] ?], c as [[? ?] ?].
  unfold app3. simpl. by rewrite !app_assoc.
Qed.

Lemma filter_line_contribution (acc : filtered) (line : string) :
  filter_line valid_species acc line
  = let* d := contribution valid_species line in Return (app3 acc d).
Proof.
  destruct acc as [[k s] t].
  unfold filter_line, contribution, is_reaction_line, line_stochiometry, line_species.
  destruct (Py.is_empty (Py.strip line) || Py.startswith "#" (Py.strip line)); simpl.
  { unfold app3; simpl. by rewrite !app_nil_r. }
  destruct (is_tmer_entry (Py.split (Py.strip line))); simpl.
  2:{ unfold app3; simpl. by rewrite !app_nil_r. }
  destruct (index "x" (Py.split (Py.strip line))) as [ix|e]; simpl; [|done].
  destruct (stochiometry_loop (drop (S ix) (Py.split (Py.strip line))) [])
    as [st|e]; simpl; [|done].
  destruct (species_loop (collect_species_tokens (tail (Py.split (Py.strip line)))) [])
    as [sp|e]; simpl; [|done].
  destruct (all_valid valid_species sp); unfold app3; simpl; [done|].
  by rewrite !app_nil_r.
Qed.

Lemma filter_loop_acc (lines : list string) (acc : filtered) :
  filter_loop valid_species lines acc
  = let* r := filter_res_file lines valid_species in Return (app3 acc r).
Proof.
  unfold filter_res_file. revert acc.
  induction lines as [|line rest IH]; intros acc; cbn [filter_loop].
  { simpl. by rewrite app3_nothing_r. }
  rewrite !filter_line_contribution.
  destruct (contribution valid_species line) as [d|e]; simpl; [|done].
  rewrite (IH (app3 acc d)), (IH (app3 ([], [], []) d)).
  destruct (filter_loop valid_species rest ([], [], [])) as [r|e]; simpl; [|done].
  by rewrite app3_nothing_l, app3_assoc.
Qed.

Lemma filter_res_file_cons (line : string) (rest : list string) :
  filter_res_file (line :: rest) valid_species
  = let* d := contribution valid_species line in
    let* r := filter_res_file rest valid_species in
    Return (app3 d r).
Proof.
  unfold filter_res_file at 1. cbn [filter_loop].
  rewrite filter_line_contribution.
  destruct (contribution valid_species line) as [d|e]; simpl; [|done].
  by rewrite filter_loop_acc, app3_nothing_l.
Qed.

Lemma filter_res_file_app (l1 l2 : list string) :
  filter_res_file (l1 ++ l2) valid_species
  = let* a := filter_res_file l1 valid_species in
    let* b := filter_res_file l2 valid_species in
    Return (app3 a b).
Proof.
  induction l1 as [|line rest IH].
  { change (filter_res_file [] valid_species) with (Return nothing).
    simpl. destruct (filter_res_file l2 valid_species) as [b|e]; simpl; [|done].
    by rewrite app3_nothing_l. }
  change ((line :: rest) ++ l2) with (line :: (rest ++ l2)).
  rewrite !filter_res_file_cons.
  destruct (contribution valid_species line) as [d|e]; simpl; [|done].
  rewrite IH.
  destruct (filter_res_file rest valid_species) as [a|e]; simpl; [|done].
  destruct (filter_res_file l2 valid_species) as [b|e]; simpl; [|done].
  by rewrite app3_assoc.
Qed.

Lemma all_valid_spec (species : list string) :
  all_valid valid_species species = true
  <-> (forall name, name ∈ species -> name ∈ valid_species).
Proof.
  unfold all_valid. rewrite forallb_forall.
  setoid_rewrite bool_decide_eq_true.
  setoid_rewrite <- list_elem_of_In.
  setoid_rewrite elem_of_elements.
  setoid_rewrite elem_of_list_to_set.
  reflexivity.
Qed.

Lemma contribution_passes (line : string) :
  is_reaction_line line = false ->
  contribution valid_species line = Return ([line], [], []).
Proof. intros H. unfold contribution. by rewrite H. Qed.

Lemma contribution_reaction (line : string) (d : filtered) :
  is_reaction_line line = true ->
  contribution valid_species line = Return d ->
  exists sp st,
    line_species line = Return sp /\ line_stochiometry line = Return st /\
    d = if all_valid valid_species sp then ([line], [sp], [st]) else nothing.
Proof.
  intros H. unfold contribution. rewrite H. intros Hd.
  apply bind_Return in Hd as (st & Hst & Hd).
  apply bind_Return in Hd as (sp & Hsp & Hd).
  exists sp, st. by inversion Hd.
Qed.

Lemma contribution_raises (pre post : list string) (line : string) :
  raises (contribution valid_species line) ->
  raises (filter_res_file (pre ++ line :: post) valid_species).
Proof.
  intros [e He]. rewrite filter_res_file_app, filter_res_file_cons, He.
  destruct (filter_res_file pre valid_species) as [a|e']; simpl; by eexists.
Qed.

Lemma filter_res_file_split (pre post : list string) (line : string) (out : filtered) :
  filter_res_file (pre ++ line :: post) valid_species = Return out ->
  exists a d b,
    filter_res_file pre valid_species = Return a /\
    contribution valid_species line = Return d /\
    filter_res_file post valid_species = Return b /\
    out = app3 a (app3 d b).
Proof.
  rewrite filter_res_file_app, filter_res_file_cons. intros H.
  apply bind_Return in H as (a & Ha & H).
  apply bind_Return in H as (x & Hx & H).
  apply bind_Return in Hx as (d & Hd & Hx).
  apply bind_Return in Hx as (b & Hb & Hx).
  exists a, d, b. inversion H. inversion Hx. by subst.
Qed.

(** The call returns when the species and the stoichiometry of every
    reaction line can be read. *)
Lemma filter_res_file_returns (res_lines : list string) :
  (forall line, line ∈ res_lines -> is_reaction_line line = true ->
     (exists sp, line_species line = Return sp) /\
     (exists st, line_stochiometry line = Return st)) ->
  exists out, filter_res_file res_lines valid_species = Return out.
Proof.
  induction res_lines as [|line rest IH]; intros Hok; [by eexists|].
  rewrite filter_res_file_cons.
  destruct IH as [r ->]; [intros l Hl; apply Hok; by right|].
  unfold contribution. destruct (is_reaction_line line) eqn:Hline; [|by eexists].
  destruct (Hok line) as ([sp ->] & [st ->]); [by left|done|]. by eexists.
Qed.

End FilterResFile.

(** *** The reaction-file filter keeps a reaction exactly when its species
    are all valid *)

Import ResFile Props.

(** C3.  Take any call of [filter_res_file] that returns, and any reaction
    line [line] of its input, with [pre] the lines before it and [post] the
    lines after it.  The species and the stoichiometry of [line] are
    computed, and either every name of the species list is in
    [valid_species] and [line], its species list and its stoichiometry list
    are kept together, between what [pre] and what [post] contribute; or some
    name is not in [valid_species] and the three outputs are those of [pre]
    followed by those of [post]: nothing is produced for [line], and the kept
    lines are one fewer than if it had been kept. *)
Theorem filter_res_file_keeps_iff_valid
    (pre post : list string) (line : string) (valid_species : gset string)
    (out : filtered) :
  is_reaction_line line = true ->
  filter_res_file (pre ++ line :: post) valid_species = Return out ->
  exists sp st k1 s1 t1 k2 s2 t2,
    line_species line = Return sp /\ line_stochiometry line = Return st /\
    filter_res_file pre valid_species = Return (k1, s1, t1) /\
    filter_res_file post valid_species = Return (k2, s2, t2) /\
    (((forall name, name ∈ sp -> name ∈ valid_species) /\
      out = (k1 ++ line :: k2, s1 ++ sp :: s2, t1 ++ st :: t2))
     \/
     (~ (forall name, name ∈ sp -> name ∈ valid_species) /\
      out = (k1 ++ k2, s1 ++ s2, t1 ++ t2) /\
      (length (k1 ++ k2) + 1 = length (k1 ++ line :: k2))%nat)).
Proof.
  intros Hline Hout.
  apply filter_res_file_split in Hout as (a & d & b & Ha & Hd & Hb & ->).
  apply contribution_reaction in Hd as (sp & st & Hsp & Hst & ->); [|exact Hline].
  destruct a as [[k1 s1] t1], b as [[k2 s2] t2].
  exists sp, st, k1, s1, t1, k2, s2, t2.
  repeat split; try assumption.
  destruct (all_valid valid_species sp) eqn:Hv.
  - left. split; [by apply all_valid_spec|reflexivity].
  - right. split; [|split].
    + intros Hall. apply all_valid_spec in Hall. congruence.
    + reflexivity.
    + rewrite !length_app. simpl. lia.
Qed.

Lemma filter_res_file_keeps_iff_valid_witness :
  let pre := ["# reactions"; "w=1"]%string in
  let post := ["tmer C/$f D/$f x -1 1 $w 2.0"%string; EmptyString] in
  let line := "$tmer 01_10{P,R1}/$f B/$f x -1 1 2 $w 3.0"%string in
  let valid : gset string := {["01_10P"; "01_10R1"; "B"; "C"]}%string in
  let out : filtered :=
    (pre ++ [line; EmptyString], [["01_10P"; "01_10R1"; "B"]%string], [[-1; 1; 2]]) in
  is_reaction_line line = true /\
  filter_res_file (pre ++ line :: post) valid = Return out /\
  exists sp st k1 s1 t1 k2 s2 t2,
    line_species line = Return sp /\ line_stochiometry line = Return st /\
    filter_res_file pre valid = Return (k1, s1, t1) /\
    filter_res_file post valid = Return (k2, s2, t2) /\
    (((forall name, name ∈ sp -> name ∈ valid) /\
      out = (k1 ++ line :: k2, s1 ++ sp :: s2, t1 ++ st :: t2))
     \/
     (~ (forall name, name ∈ sp -> name ∈ valid) /\
      out = (k1 ++ k2, s1 ++ s2, t1 ++ t2) /\
      (length (k1 ++ k2) + 1 = length (k1 ++ line :: k2))%nat)).
Proof.
  intros pre post line valid out.
  split; [reflexivity|]. split; [reflexivity|].
  apply (filter_res_file_keeps_iff_valid pre post line valid out); reflexivity.
Defined.

(** *** The three outputs are aligned *)

(** C9.  When [filter_res_file] returns, the species lists and the
    stoichiometry lists are equally many; the kept lines are a subsequence of
    the input lines, in their order; and the i-th species list and the i-th
    stoichiometry list are the ones computed for the i-th kept reaction
    line. *)
Theorem filter_res_file_aligned
    (res_lines : list string) (valid_species : gset string)
    (kept : list string) (sps : list (list string)) (sts : list (list Z)) :
  filter_res_file res_lines valid_species = Return (kept, sps, sts) ->
  length sps = length sts /\
  sublist kept res_lines /\
  Forall3 (fun line sp st =>
             line_species line = Return sp /\ line_stochiometry line = Return st)
          (filter (fun line => is_reaction_line line = true) kept) sps sts.
Proof.
  revert kept sps sts.
  induction res_lines as [|line rest IH]; intros kept sps sts H.
  { inversion H. repeat split; constructor. }
  rewrite filter_res_file_cons in H.
  apply bind_Return in H as (d & Hd & H).
  apply bind_Return in H as ([[k s] t] & Hr & H).
  destruct (IH k s t Hr) as (Hlen & Hsub & Hall).
  destruct (is_reaction_line line) eqn:Hline.
  - apply contribution_reaction in Hd as (sp & st & Hsp & Hst & ->); [|exact Hline].
    destruct (all_valid valid_species sp); inversion H; subst; simpl.
    + rewrite filter_cons_True by exact Hline.
      repeat split; [by f_equal | by apply sublist_skip | by constructor].
    + repeat split; [done | by apply sublist_cons | done].
  - rewrite contribution_passes in Hd by exact Hline.
    inversion Hd; subst. inversion H; subst. simpl.
    rewrite filter_cons_False by congruence.
    repeat split; [done | by apply sublist_skip | done].
Qed.

Lemma filter_res_file_aligned_witness :
  let res_lines :=
    ["# reactions"; "tmer A/$f B/$f x -1 1"; "tmer A/$f Z/$f x -2 1";
     "$tmer {A,B}/$f x 1 -1 $w 1.5"]%string in
  let valid : gset string := {["A"; "B"]}%string in
  let kept :=
    ["# reactions"; "tmer A/$f B/$f x -1 1"; "$tmer {A,B}/$f x 1 -1 $w 1.5"]%string in
  let sps := [["A"; "B"]; ["A"; "B"]]%string in
  let sts := [[-1; 1]; [1; -1]] in
  filter_res_file res_lines valid = Return (kept, sps, sts) /\
  length sps = length sts /\
  sublist kept res_lines /\
  Forall3 (fun line sp st =>
             line_species line = Return sp /\ line_stochiometry line = Return st)
          (filter (fun line => is_reaction_line line = true) kept) sps sts.
Proof.
  intros res_lines valid kept sps sts.
  split; [reflexivity|].
  apply (filter_res_file_aligned res_lines valid kept sps sts). reflexivity.
Defined.

(** *** Errors that leave the reaction-file filter *)

Lemma str_eqb_eq (a b : string) : Py.str_eqb a b = true <-> a = b.
Proof. apply String.eqb_eq. Qed.

Lemma index_first (x : string) (before after : list string) :
  x ∉ before ->
  index x (before ++ x :: after) = Return (length before).
Proof.
  induction before as [|t before IH]; intros Hnot; simpl.
  - by rewrite (proj2 (str_eqb_eq x x) eq_refl).
  - apply not_elem_of_cons in Hnot as [Hne Hnot].
    destruct (Py.str_eqb t x) eqn:E.
    + apply str_eqb_eq in E. congruence.
    + by rewrite IH.
Qed.

Lemma stochiometry_loop_raises (mid rest : list string) (acc : list Z) (token : string) :
  (forall t, t ∈ mid -> Py.startswith "$w" t = false) ->
  token ∈ mid ->
  raises (Py.int token) ->
  raises (stochiometry_loop (mid ++ rest) acc).
Proof.
  revert acc. induction mid as [|t mid IH]; intros acc Hw Hin Hbad.
  { by apply elem_of_nil in Hin. }
  cbn [app stochiometry_loop]. rewrite (Hw t) by left.
  destruct (Py.int t) as [n|e] eqn:Ht; cbn [bind]; [|by eexists].
  apply elem_of_cons in Hin as [->|Hin].
  - destruct Hbad as [e He]. congruence.
  - apply IH; [|done..]. intros u Hu. apply Hw. by right.
Qed.

Lemma contains_nonempty (c : ascii) (s : string) :
  Py.contains c s = true -> Py.is_empty s = false.
Proof. by destruct s. Qed.

Lemma species_loop_raises (species_tokens : list string) (acc : list string)
    (token : string) :
  token ∈ species_tokens ->
  Py.contains "{" (token_to_search token) = true ->
  Py.contains "}" (token_to_search token) = true ->
  raises (extract_species_from_path (token_to_search token)) ->
  raises (species_loop species_tokens acc).
Proof.
  revert acc. induction species_tokens as [|t rest IH]; intros acc Hin Ho Hc Hbad.
  { by apply elem_of_nil in Hin. }
  apply elem_of_cons in Hin as [<-|Hin]; cbn [species_loop].
  - rewrite (contains_nonempty _ _ Ho), Ho, Hc. cbn [andb]. by apply bind_Raise.
  - destruct (Py.is_empty (token_to_search t)); [by apply IH|].
    destruct (Py.contains "{" (token_to_search t) && Py.contains "}" (token_to_search t));
      [|by apply IH].
    destruct (extract_species_from_path (token_to_search t)) as [ex|e]; cbn [bind];
      [by apply IH | by eexists].
Qed.

(** C10.  A line whose tokens hold ["x"] and start with a token beginning
    with ["$tmer"] or ["tmer"], and whose tokens after the first ["x"] and
    before the first token starting with ["$w"] include one that [int]
    rejects, makes the whole call raise, whatever the other lines are and
    whatever the set of valid species is: the stoichiometry is parsed before
    the species are checked. *)
Theorem filter_res_file_bad_stochiometry_raises
    (pre post : list string) (line : string) (valid_species : gset string)
    (before mid rest : list string) (token : string) :
  is_tmer_entry (Py.split (Py.strip line)) = true ->
  Py.split (Py.strip line) = before ++ "x"%string :: mid ++ rest ->
  "x"%string ∉ before ->
  (forall t, t ∈ mid -> Py.startswith "$w" t = false) ->
  token ∈ mid ->
  raises (Py.int token) ->
  raises (filter_res_file (pre ++ line :: post) valid_species).
Proof.
  intros Hline Htok Hx Hw Hin Hbad. rewrite <- is_reaction_line_tmer in Hline.
  apply contribution_raises. unfold contribution. rewrite Hline.
  apply bind_Raise. unfold line_stochiometry.
  rewrite Htok, index_first by exact Hx. cbn [bind].
  replace (before ++ "x"%string :: mid ++ rest)
    with ((before ++ ["x"%string]) ++ mid ++ rest) by (by rewrite <- app_assoc).
  rewrite drop_app_length' by (rewrite length_app; simpl; lia).
  by apply stochiometry_loop_raises with token.
Qed.

Lemma filter_res_file_bad_stochiometry_raises_witness :
  let line := "tmer A/$f Z/$f x 1 1.5 -1 $w 2"%string in
  let valid : gset string := {["A"]}%string in
  is_tmer_entry (Py.split (Py.strip line)) = true /\
  line_species line = Return ["A"; "Z"]%string /\
  all_valid valid ["A"; "Z"]%string = false /\
  raises (Py.int "1.5") /\
  raises (filter_res_file (["# c"]%string ++ line :: ["tmer A x 1"]%string) valid).
Proof.
  intros line valid.
  assert (Hbad : raises (Py.int "1.5")) by (eexists; reflexivity).
  repeat split; [exact Hbad|].
  apply (filter_res_file_bad_stochiometry_raises
           ["# c"]%string ["tmer A x 1"]%string line valid
           ["tmer"; "A/$f"; "Z/$f"]%string ["1"; "1.5"; "-1"]%string
           ["$w"; "2"]%string "1.5"%string);
    [reflexivity | reflexivity | | | | exact Hbad].
  - intros H. repeat (apply elem_of_cons in H as [H|H]; [discriminate|]).
    by apply elem_of_nil in H.
  - intros t H.
    repeat (apply elem_of_cons in H as [->|H]; [reflexivity|]).
    by apply elem_of_nil in H.
  - right; left.
Defined.

(** C2, as stated, fails: [filter_res_file] has no strict mode, and a brace
    expression that matches none of the four patterns is not skipped.  Here
    the first reaction holds the token [a{}]; the call raises, and the valid
    reaction after it yields nothing. *)
Lemma malformed_brace_not_skipped :
  let res_lines := ["tmer a{}/$f x 1"; "tmer A/$f x 1"]%string in
  let valid : gset string := {["A"]}%string in
  extract_species_from_path "a{}" = Raise (InvalidSpeciesFormat "a{}") /\
  filter_res_file res_lines valid = Raise (InvalidSpeciesFormat "a{}") /\
  ~ (exists out, filter_res_file res_lines valid = Return out).
Proof.
  repeat split. intros [out H]. discriminate H.
Qed.

(** C2, amended.  A reaction line with a species token whose relevant path
    piece holds both braces and matches none of the four patterns makes
    [filter_res_file] raise, whatever the other lines and the valid species
    are; there is no mode in which the line is skipped. *)
Theorem filter_res_file_malformed_brace_raises
    (pre post : list string) (line : string) (valid_species : gset string)
    (token : string) :
  is_reaction_line line = true ->
  token ∈ collect_species_tokens (tail (Py.split (Py.strip line))) ->
  Py.contains "{" (token_to_search token) = true ->
  Py.contains "}" (token_to_search token) = true ->
  raises (extract_species_from_path (token_to_search token)) ->
  raises (filter_res_file (pre ++ line :: post) valid_species).
Proof.
  intros Hline Hin Ho Hc Hbad.
  apply contribution_raises. unfold contribution. rewrite Hline.
  destruct (line_stochiometry line) as [st|e]; cbn [bind]; [|by eexists].
  apply bind_Raise. unfold line_species.
  by apply species_loop_raises with token.
Qed.

Lemma filter_res_file_malformed_brace_raises_witness :
  let line := "tmer A/$f }B,C{/$f x 1 -1"%string in
  let token := "}B,C{/$f"%string in
  is_reaction_line line = true /\
  token ∈ collect_species_tokens (tail (Py.split (Py.strip line))) /\
  token_to_search token = "}B,C{"%string /\
  raises (extract_species_from_path "}B,C{") /\
  raises (filter_res_file (["# c"]%string ++ line :: ["tmer A x 1"]%string)
            {["A"; "B"; "C"]}%string).
Proof.
  intros line token.
  assert (Hin : token ∈ collect_species_tokens (tail (Py.split (Py.strip line))))
    by (right; left).
  assert (Hbad : raises (extract_species_from_path (token_to_search token)))
    by (eexists; reflexivity).
  split; [reflexivity|]. split; [exact Hin|]. split; [reflexivity|].
  split; [exact Hbad|].
  exact (filter_res_file_malformed_brace_raises
           ["# c"]%string ["tmer A x 1"]%string line {["A"; "B"; "C"]}%string token
           eq_refl Hin eq_refl eq_refl Hbad).
Defined.

(** *** The element selector *)

Import Composition.

(** C1.  [parse_element_list] on the wildcard ranges of the specification:
    ["5-*"] gives the indices 4 to 102 and ["*-*"] raises, but ["*-3"] gives
    -1, 0, 1, 2: the wildcard start is replaced by 0 and then, like a 1-based
    element number, decreased by one, so an index below 0 is in the output. *)
Theorem parse_element_list_wildcards :
  parse_element_list "*-3" = Return [-1; 0; 1; 2] /\
  parse_element_list "5-*" = Return (seqZ 4 99) /\
  parse_element_list "*-*" = Raise BothWildcard /\
  parse_element_list "1-3,5" = Return [0; 1; 2; 4].
Proof. repeat split; vm_compute; reflexivity. Qed.

(** *** The error statistics *)

Import Statistics.

(** C6.  On the rows (reference 1.0, computed 1.5) and (reference 2.0,
    computed 1.0) the signed errors, computed minus reference, are 0.5 and
    -1.0, and the summary has N = 2, MAE = 0.75, MSE = -0.25, MAX = 0.5,
    MIN = -1.0 and ErrRange = 1.5. *)
Theorem statistical_measures_two_rows :
  let rows := [mkRow "r1" "[1]" 1.0 1.5; mkRow "r2" "[1]" 2.0 1.0]%float in
  let s := statistical_measures rows in
  map (fun r => MethodValue r - ReferenceValue r)%float rows = [0.5; -1.0]%float /\
  N s = 2 /\
  MAE s = 0.75%float /\
  MSE s = (-0.25)%float /\
  MAX s = 0.5%float /\
  MIN s = (-1.0)%float /\
  ErrRange s = 1.5%float.
Proof. repeat split. Qed.

Lemma np_std_ddof1_single (x : float) : np_std_ddof1 [x] = nan.
Proof.
  unfold np_std_ddof1, notna. rewrite filter_cons, filter_nil.
  destruct (decide _); reflexivity.
Qed.

(** C7.  [statistical_measures] is a total function: each library call it
    makes yields a number, possibly not-a-number, on every column.  On the
    empty table the count is 0 and every derived statistic is not-a-number;
    on a table of one row, whatever its values, the sample standard deviation
    is not-a-number. *)
Theorem statistical_measures_degenerate :
  statistical_measures []
  = mkStats 0 nan nan nan nan nan nan nan nan /\
  (forall r : Row,
     N (statistical_measures [r]) = 1 /\ STDDEV (statistical_measures [r]) = nan).
Proof.
  split; [reflexivity|].
  intros r. split; [reflexivity|]. apply np_std_ddof1_single.
Qed.

(** *** The composition filter is idempotent *)

Import Mol.

(** A molecule whose count is stored answers [num_atoms] without change. *)
Lemma num_atoms_stored (m : Molecule) (n : Z) :
  _num_atoms m = Some n -> num_atoms m = Return (n, m).
Proof. intros H. unfold num_atoms. by rewrite H. Qed.

Lemma set_num_atoms_fields (m m' : Molecule) (v : Z) :
  set_num_atoms m v = Return m' ->
  _num_atoms m' = Some v /\ _charge m' = _charge m /\ _uhf m' = _uhf m /\
  _ati m' = _ati m.
Proof.
  unfold set_num_atoms. destruct (v <? 0); [discriminate|].
  intros H. inversion H. by subst.
Qed.

(** After [num_atoms] has returned, the count is stored in the object and
    the fields the filter reads are as before. *)
Lemma num_atoms_fields (m m' : Molecule) (n : Z) :
  num_atoms m = Return (n, m') ->
  _num_atoms m' = Some n /\ _charge m' = _charge m /\ _uhf m' = _uhf m /\
  _ati m' = _ati m.
Proof.
  unfold num_atoms. destruct (_num_atoms m) as [k|] eqn:Hk.
  { intros H. inversion H. by subst. }
  intros H. apply bind_Return in H as (m1 & Hset & H).
  assert (Hsame : _charge m1 = _charge m /\ _uhf m1 = _uhf m /\ _ati m1 = _ati m).
  { destruct (nonempty (_atlist m));
      [by apply set_num_atoms_fields in Hset as (_ & ? & ? & ?)|].
    destruct (nonempty (_xyz m));
      [by apply set_num_atoms_fields in Hset as (_ & ? & ? & ?)|].
    destruct (nonempty (_ati m));
      [by apply set_num_atoms_fields in Hset as (_ & ? & ? & ?)|].
    inversion Hset. by subst. }
  destruct (_num_atoms m1) as [k|] eqn:Hk1; [|discriminate].
  destruct (k =? 0); [discriminate|].
  inversion H. subst. by rewrite Hk1.
Qed.

Lemma atoms_outside_again (bound : option Z) (test : Z -> Z -> bool)
    (m m' : Molecule) (b : bool) :
  atoms_outside bound test m = Return (b, m') ->
  atoms_outside bound test m' = Return (b, m') /\ same_fields m m' /\
  (forall n, _num_atoms m = Some n -> m' = m) /\
  (bound <> None -> exists n, _num_atoms m' = Some n).
Proof.
  unfold atoms_outside. destruct bound as [lo|].
  - intros H. apply bind_Return in H as ([n m1] & Hn & H).
    inversion H; subst.
    destruct (num_atoms_fields _ _ _ Hn) as (Hs & Hrest).
    rewrite (num_atoms_stored _ _ Hs). repeat split; try apply Hrest.
    + intros k Hk. rewrite (num_atoms_stored _ _ Hk) in Hn. by inversion Hn.
    + eauto.
  - intros H. inversion H; subst. repeat split; congruence.
Qed.

(** A second turn of the loop on an object decides as the first turn did and
    leaves the object as it is; so a list that holds one object twice is
    faithfully modelled by a list of values. *)
Lemma check_one_again (v v' : Z) (c : MoleculeConstraints) (m m' : Molecule)
    (keep : bool) :
  check_one v c m = Return (keep, m') ->
  check_one v' c m' = Return (keep, m').
Proof.
  unfold check_one. intros H.
  apply bind_Return in H as ([b1 m1] & H1 & H).
  destruct (atoms_outside_again _ _ _ _ _ H1) as (A1 & _ & _ & S1).
  destruct b1.
  { inversion H; subst. by rewrite A1. }
  apply bind_Return in H as ([b2 m2] & H2 & H).
  destruct (atoms_outside_again _ _ _ _ _ H2) as (A2 & _ & K2 & _).
  assert (A1' : atoms_outside (min_num_atoms c) Z.ltb m2 = Return (false, m2)).
  { destruct (min_num_atoms c) as [lo|] eqn:Hlo; [|reflexivity].
    destruct S1 as [n Hn]; [done|]. by rewrite (K2 n Hn). }
  destruct b2.
  { inversion H; subst. rewrite A1'. cbn [bind]. by rewrite A2. }
  assert (E : m' = m2).
  { repeat match type of H with
           | (if ?b then _ else _) = _ => destruct b; [by inversion H|]
           | bind ?r _ = _ =>
               let x := fresh "x" in let Hx := fresh "Hx" in
               apply bind_Return in H as (x & Hx & H)
           end.
    by inversion H. }
  subst m'. rewrite A1'. cbn [bind]. rewrite A2. cbn [bind].
  unfold molecule_has_required_elements in *. exact H.
Qed.

Lemma check_loop_acc (v : Z) (c : MoleculeConstraints) (mols acc out : list Molecule) :
  check_loop v c mols acc = Return out ->
  exists kept,
    out = acc ++ kept /\
    Forall (fun m => forall v', check_one v' c m = Return (true, m)) kept.
Proof.
  revert acc out. induction mols as [|m rest IH]; intros acc out H.
  { inversion H. exists []. by rewrite app_nil_r. }
  cbn [check_loop] in H.
  apply bind_Return in H as ([keep m'] & Hone & H).
  apply IH in H as (kept & -> & Hall).
  destruct keep.
  - exists (m' :: kept). split; [by rewrite <- app_assoc|].
    constructor; [|exact Hall]. intros v'. exact (check_one_again v v' c m m' true Hone).
  - by exists kept.
Qed.

Lemma check_loop_kept (v : Z) (c : MoleculeConstraints) (kept acc : list Molecule) :
  Forall (fun m => forall v', check_one v' c m = Return (true, m)) kept ->
  check_loop v c kept acc = Return (acc ++ kept).
Proof.
  intros Hall. revert acc.
  induction Hall as [|m rest Hm _ IH]; intros acc; cbn [check_loop].
  { by rewrite app_nil_r. }
  rewrite Hm. cbn [bind]. rewrite IH. by rewrite <- app_assoc.
Qed.

(** C8.  When [check_molecule_composition] returns a list, applying it to
    that list with the same constraints returns the same molecules in the
    same order. *)
Theorem check_molecule_composition_idempotent
    (mols out : list Molecule) (verbosity verbosity' : Z) (c : MoleculeConstraints) :
  check_molecule_composition mols verbosity c = Return out ->
  check_molecule_composition out verbosity' c = Return out.
Proof.
  unfold check_molecule_composition. intros H.
  apply check_loop_acc in H as (kept & -> & Hall).
  by apply check_loop_kept.
Qed.

Lemma check_molecule_composition_idempotent_witness :
  let water := mkMolecule "h2o" None (Some 0) (Some 0) [] [] [7; 0; 0] in
  let cation := mkMolecule "na" (Some 1) (Some 1) (Some 0) [] [] [10] in
  let radical := mkMolecule "oh" None (Some 0) (Some 1) [] [] [7; 0] in
  let c := mkConstraints [0; 5; 6; 7; 10] [[7]; [10]] (Some (-1)) (Some 1) (Some 0)
             (Some 1) None in
  let out := [mkMolecule "h2o" (Some 3) (Some 0) (Some 0) [] [] [7; 0; 0]; cation] in
  check_molecule_composition [water; cation; radical] 0 c = Return out /\
  check_molecule_composition out 0 c = Return out.
Proof.
  intros water cation radical c out.
  split; [reflexivity|].
  apply (check_molecule_composition_idempotent [water; cation; radical] out 0 0 c).
  reflexivity.
Defined.

(** *** The scoring-output parser *)

Section ParseResFile.

Lemma nonblank_count_cons (line : string) (rest : list string) :
  nonblank_count (line :: rest)
  = (if is_blank line then 0 else 1) + nonblank_count rest.
Proof.
  unfold nonblank_count. rewrite filter_cons.
  destruct (is_blank line); destruct (decide _); simpl; try congruence; lia.
Qed.

Lemma nonblank_count_nonneg (lines : list string) : 0 <= nonblank_count lines.
Proof. unfold nonblank_count. lia. Qed.

(** The lenient parse of one line never raises. *)
Lemma parse_line_lenient (line : string) (tokens : list string) (index : Z) :
  exists r, parse_line false line tokens index = Return r.
Proof.
  unfold parse_line. destruct (8 <=? len tokens); [|by eexists].
  destruct (try_body false line tokens index); by eexists.
Qed.

(** A row that is produced carries the counter of its line, and the values
    read from the tokens 7 and 5. *)
Lemma parse_line_row (strictmode : bool) (line : string) (tokens : list string)
    (index : Z) (x : row) :
  parse_line strictmode line tokens index = Return (Some x) ->
  exists ref comp,
    x = (index, ref, comp) /\
    Py.float (Py.strip (item tokens 7)) = Return ref /\
    Py.float (Py.strip (item tokens 5)) = Return comp /\
    too_far comp ref = false /\ 8 <= len tokens.
Proof.
  unfold parse_line. destruct (8 <=? len tokens) eqn:E8.
  2:{ destruct strictmode; discriminate. }
  destruct (try_body strictmode line tokens index) as [r|e] eqn:Ht.
  2:{ destruct strictmode; discriminate. }
  intros H. inversion H; subst. unfold try_body in Ht.
  apply bind_Return in Ht as (ref & Href & Ht).
  apply bind_Return in Ht as (comp & Hcomp & Ht).
  destruct (too_far comp ref) eqn:Hfar.
  { destruct strictmode; discriminate. }
  inversion Ht. exists ref, comp. repeat split; try assumption. lia.
Qed.

(** What the strict parse of a line returns, the lenient parse returns. *)
Lemma parse_line_strict_lenient (line : string) (tokens : list string) (index : Z)
    (r : option row) :
  parse_line true line tokens index = Return r ->
  parse_line false line tokens index = Return r.
Proof.
  unfold parse_line. destruct (8 <=? len tokens); [|discriminate].
  unfold try_body.
  destruct (Py.float (Py.strip (item tokens 7))) as [ref|e]; cbn [bind]; [|discriminate].
  destruct (Py.float (Py.strip (item tokens 5))) as [comp|e]; cbn [bind]; [|discriminate].
  destruct (too_far comp ref); [discriminate|]. by intros H.
Qed.

Lemma parse_loop_lenient (lines : list string) (data : list row) (index : Z) :
  parse_loop false lines data index = Return (data ++ rows_from index lines).
Proof.
  revert data index. induction lines as [|line rest IH]; intros data index.
  { simpl. by rewrite app_nil_r. }
  cbn [parse_loop rows_from]. unfold is_blank.
  destruct (Py.is_empty (Py.strip line)); [apply IH|].
  destruct (parse_line_lenient (Py.strip line) (Py.split (Py.strip line)) (index + 1))
    as [r Hr].
  rewrite Hr. cbn [bind]. rewrite IH.
  destruct r; [by rewrite <- app_assoc|done].
Qed.

Lemma parse_loop_returns (strictmode : bool) (lines : list string)
    (data out : list row) (index : Z) :
  parse_loop strictmode lines data index = Return out ->
  out = data ++ rows_from index lines.
Proof.
  destruct strictmode.
  2:{ rewrite parse_loop_lenient. by intros [= <-]. }
  revert data index. induction lines as [|line rest IH]; intros data index H.
  { inversion H. by rewrite app_nil_r. }
  cbn [parse_loop rows_from] in *. unfold is_blank.
  destruct (Py.is_empty (Py.strip line)); [by apply IH|].
  apply bind_Return in H as (r & Hr & H).
  rewrite (parse_line_strict_lenient _ _ _ _ Hr).
  apply IH in H as ->. destruct r; [by rewrite <- app_assoc|done].
Qed.

(** The lenient parse returns on every text. *)
Lemma parse_res_file_lenient_returns (res_file_content : string) (verbosity : Z) :
  parse_res_file res_file_content false verbosity
  = Return (rows_from (-1) (Py.splitlines res_file_content)).
Proof. unfold parse_res_file. by rewrite parse_loop_lenient. Qed.

(** The strict parse stops at the first line it cannot read. *)
Lemma parse_loop_strict_raises (pre post : list string) (line : string)
    (data : list row) (index : Z) :
  is_blank line = false ->
  raises (parse_line true (Py.strip line) (Py.split (Py.strip line))
            (index + nonblank_count pre + 1)) ->
  raises (parse_loop true (pre ++ line :: post) data index).
Proof.
  intros Hnb Hbad. revert data index Hbad.
  induction pre as [|l pre IH]; intros data index Hbad.
  - change (nonblank_count []) with 0 in Hbad. rewrite Z.add_0_r in Hbad.
    cbn [app parse_loop]. unfold is_blank in Hnb. rewrite Hnb.
    by apply bind_Raise.
  - rewrite nonblank_count_cons in Hbad.
    cbn [app parse_loop]. unfold is_blank in Hbad.
    destruct (Py.is_empty (Py.strip l)).
    + apply IH. by rewrite Z.add_0_l in Hbad.
    + destruct (parse_line true _ _ (index + 1)) as [r|e]; cbn [bind]; [|by eexists].
      apply IH. by replace (index + 1 + nonblank_count pre + 1)
        with (index + (1 + nonblank_count pre) + 1) by lia.
Qed.

Lemma rows_from_app (index : Z) (pre post : list string) :
  rows_from index (pre ++ post)
  = rows_from index pre ++ rows_from (index + nonblank_count pre) post.
Proof.
  revert index. induction pre as [|l pre IH]; intros index.
  { change (nonblank_count []) with 0. by rewrite Z.add_0_r. }
  rewrite nonblank_count_cons. cbn [app rows_from].
  destruct (is_blank l).
  - by rewrite IH, Z.add_0_l.
  - replace (index + (1 + nonblank_count pre)) with (index + 1 + nonblank_count pre) by lia.
    destruct (parse_line false _ _ (index + 1)) as [[x|]|e]; rewrite IH; done.
Qed.

(** Every row of the lenient parse comes from a non-blank line and carries
    the number of non-blank lines before that line. *)
Lemma rows_from_source (index : Z) (lines : list string) (x : row) :
  x ∈ rows_from index lines ->
  exists pre line post,
    lines = pre ++ line :: post /\ is_blank line = false /\
    row_index x = index + 1 + nonblank_count pre /\
    parse_line false (Py.strip line) (Py.split (Py.strip line)) (row_index x)
    = Return (Some x).
Proof.
  revert index. induction lines as [|l rest IH]; intros index Hin.
  { by apply elem_of_nil in Hin. }
  cbn [rows_from] in Hin.
  assert (Hrest : forall j, j = index + (if is_blank l then 0 else 1) ->
            x ∈ rows_from j rest ->
            exists pre line post,
              l :: rest = pre ++ line :: post /\ is_blank line = false /\
              row_index x = index + 1 + nonblank_count pre /\
              parse_line false (Py.strip line) (Py.split (Py.strip line)) (row_index x)
              = Return (Some x)).
  { intros j Hj Hx. apply IH in Hx as (pre & line & post & -> & Hnb & Hidx & Hrow).
    exists (l :: pre), line, post. repeat split; try assumption.
    rewrite nonblank_count_cons. lia. }
  destruct (is_blank l) eqn:Hl.
  { apply (Hrest index); [lia|exact Hin]. }
  destruct (parse_line false _ _ (index + 1)) as [[y|]|e] eqn:Hy;
    try (apply (Hrest (index + 1)); [lia|exact Hin]).
  apply elem_of_cons in Hin as [->|Hin]; [|apply (Hrest (index + 1)); [lia|exact Hin]].
  exists [], l, rest.
  destruct (parse_line_row _ _ _ _ _ Hy) as (ref & comp & -> & _).
  change (nonblank_count []) with 0. unfold row_index. simpl.
  repeat split; try assumption; lia.
Qed.

Lemma rows_from_above (index : Z) (lines : list string) (x : row) :
  x ∈ rows_from index lines -> index < row_index x.
Proof.
  intros H. apply rows_from_source in H as (pre & _ & _ & _ & _ & -> & _).
  pose proof (nonblank_count_nonneg pre). lia.
Qed.

Lemma rows_from_sorted (index : Z) (lines : list string) :
  StronglySorted Z.lt (map row_index (rows_from index lines)).
Proof.
  revert index. induction lines as [|l rest IH]; intros index; [constructor|].
  cbn [rows_from]. destruct (is_blank l); [apply IH|].
  destruct (parse_line false _ _ (index + 1)) as [[y|]|e] eqn:Hy; try apply IH.
  cbn [map]. constructor; [apply IH|].
  apply Forall_forall. intros j Hj.
  apply list_elem_of_In, in_map_iff in Hj as (x & <- & Hx).
  apply list_elem_of_In, rows_from_above in Hx.
  destruct (parse_line_row _ _ _ _ _ Hy) as (ref & comp & -> & _).
  unfold row_index in *. simpl in *. lia.
Qed.

End ParseResFile.

Section Tolerance.

Lemma nonblank_count_app (l1 l2 : list string) :
  nonblank_count (l1 ++ l2) = nonblank_count l1 + nonblank_count l2.
Proof.
  induction l1 as [|l l1 IH]; [reflexivity|].
  change ((l :: l1) ++ l2) with (l :: (l1 ++ l2)).
  rewrite !nonblank_count_cons, IH. lia.
Qed.

Lemma rows_from_below (index : Z) (lines : list string) (x : row) :
  x ∈ rows_from index lines -> row_index x <= index + nonblank_count lines.
Proof.
  intros H. apply rows_from_source in H as (pre & line & post & -> & Hnb & -> & _).
  rewrite nonblank_count_app, nonblank_count_cons, Hnb.
  pose proof (nonblank_count_nonneg post). lia.
Qed.

(** The rows around a non-blank line: those of the lines before it, its own
    row if it has one, and those of the lines after it, read with the counter
    advanced by the line. *)
Lemma rows_from_around (index : Z) (pre post : list string) (line : string) :
  is_blank line = false ->
  rows_from index (pre ++ line :: post)
  = rows_from index pre
    ++ match parse_line false (Py.strip line) (Py.split (Py.strip line))
               (index + nonblank_count pre + 1) with
       | Return (Some x) => [x]
       | _ => []
       end
    ++ rows_from (index + nonblank_count pre + 1) post.
Proof.
  intros Hnb. rewrite rows_from_app. cbn [rows_from]. rewrite Hnb.
  by destruct (parse_line false _ _ _) as [[x|]|e].
Qed.

Lemma rows_from_gap (index : Z) (pre post : list string) (line : string) (x : row) :
  is_blank line = false ->
  parse_line false (Py.strip line) (Py.split (Py.strip line))
    (index + nonblank_count pre + 1) = Return None ->
  x ∈ rows_from index (pre ++ line :: post) ->
  row_index x <> index + nonblank_count pre + 1.
Proof.
  intros Hnb Hnone. rewrite rows_from_around, Hnone by exact Hnb.
  cbn [app]. intros [H|H]%elem_of_app.
  - apply rows_from_below in H. lia.
  - apply rows_from_above in H. lia.
Qed.

Lemma SFleb_not_ltb (a b : spec_float) : SFleb a b = true -> SFltb b a = false.
Proof.
  unfold SFleb, SFltb.
  destruct a as [sa|sa| |sa ma ea], b as [sb|sb| |sb mb eb]; simpl;
    try destruct sa; try destruct sb; simpl; try done.
  - rewrite (Z.compare_antisym ea eb).
    change (Pos.compare_cont Eq mb ma) with (Pos.compare mb ma).
    change (Pos.compare_cont Eq ma mb) with (Pos.compare ma mb).
    rewrite (Pos.compare_antisym ma mb).
    destruct (ea ?= eb); simpl; try done. by destruct (ma ?= mb)%positive.
  - rewrite (Z.compare_antisym ea eb).
    change (Pos.compare_cont Eq mb ma) with (Pos.compare mb ma).
    change (Pos.compare_cont Eq ma mb) with (Pos.compare ma mb).
    rewrite (Pos.compare_antisym ma mb).
    destruct (ea ?= eb); simpl; try done. by destruct (ma ?= mb)%positive.
Qed.

(** A difference of at most 750 is not a difference of more than 750. *)
Lemma within_not_too_far (comp ref : float) :
  PrimFloat.leb (PrimFloat.abs (comp - ref)) 750 = true -> too_far comp ref = false.
Proof.
  unfold too_far. rewrite leb_spec, ltb_spec. apply SFleb_not_ltb.
Qed.

Lemma tokens_not_blank (line : string) :
  8 <= len (Py.split (Py.strip line)) -> is_blank line = false.
Proof.
  unfold is_blank. destruct (Py.strip line); [|done].
  unfold len. simpl. lia.
Qed.

End Tolerance.

(** C5.  When [parse_res_file] returns, each row comes from a non-blank line
    of the text and its index is the number of non-blank lines before that
    line, counted from 0; the indices of the returned rows increase strictly;
    and a non-blank line that yields no row still takes its index, which
    then no returned row carries.  Blank lines are not counted. *)
Theorem parse_res_file_positions
    (res_file_content : string) (strictmode : bool) (verbosity : Z)
    (data : list row) :
  parse_res_file res_file_content strictmode verbosity = Return data ->
  (forall x, x ∈ data ->
     exists pre line post,
       Py.splitlines res_file_content = pre ++ line :: post /\
       is_blank line = false /\
       row_index x = nonblank_count pre /\
       parse_line false (Py.strip line) (Py.split (Py.strip line)) (row_index x)
       = Return (Some x)) /\
  StronglySorted Z.lt (map row_index data) /\
  (forall pre line post,
     Py.splitlines res_file_content = pre ++ line :: post ->
     is_blank line = false ->
     parse_line false (Py.strip line) (Py.split (Py.strip line)) (nonblank_count pre)
     = Return None ->
     forall x, x ∈ data -> row_index x <> nonblank_count pre).
Proof.
  unfold parse_res_file. intros H.
  apply parse_loop_returns in H. cbn [app] in H. subst data.
  split; [|split].
  - intros x Hx. apply rows_from_source in Hx as (pre & line & post & ? & ? & Hi & ?).
    exists pre, line, post. repeat split; try assumption; lia.
  - apply rows_from_sorted.
  - intros pre line post Hsplit Hnb Hnone x Hx. rewrite Hsplit in Hx.
    replace (nonblank_count pre) with (-1 + nonblank_count pre + 1) in * by lia.
    by apply rows_from_gap with post line.
Qed.

Lemma parse_res_file_positions_witness :
  let nl := String "010" EmptyString in
  let text :=
    ("-1.5 -1.4 0.0 0.0 0.0 0.5 -0.25 0.75 B_T/B_G" ++ nl ++ nl ++
     "too short" ++ nl ++
     "-1.5 -1.4 0.0 0.0 0.0 2.5 -0.25 2.75 P_TT/P_TG" ++ nl)%string in
  let data : list row := [(0, 0.75%float, 0.5%float); (2, 2.75%float, 2.5%float)] in
  parse_res_file text false 0 = Return data /\
  (forall x, x ∈ data ->
     exists pre line post,
       Py.splitlines text = pre ++ line :: post /\
       is_blank line = false /\
       row_index x = nonblank_count pre /\
       parse_line false (Py.strip line) (Py.split (Py.strip line)) (row_index x)
       = Return (Some x)) /\
  StronglySorted Z.lt (map row_index data) /\
  (forall pre line post,
     Py.splitlines text = pre ++ line :: post ->
     is_blank line = false ->
     parse_line false (Py.strip line) (Py.split (Py.strip line)) (nonblank_count pre)
     = Return None ->
     forall x, x ∈ data -> row_index x <> nonblank_count pre).
Proof.
  intros nl text data. split; [reflexivity|].
  apply (parse_res_file_positions text false 0 data). reflexivity.
Defined.

(** C4.  Take a line of the scoring output with at least 8 tokens whose
    tokens 7 and 5 are read as the reference and the computed value.  If the
    two differ in absolute value by more than 750, the strict parse raises,
    and the lenient parse returns the rows of the lines before and of the
    lines after, none of which carries the index of this line; a difference
    of exactly 1000 is such a difference; and if the difference is at most
    750 the row of this line is among the rows returned, in either mode. *)
Theorem parse_res_file_tolerance
    (res_file_content : string) (verbosity : Z)
    (pre post : list string) (line : string) (ref comp : float) :
  let tokens := Py.split (Py.strip line) in
  let i := nonblank_count pre in
  Py.splitlines res_file_content = pre ++ line :: post ->
  8 <= len tokens ->
  Py.float (Py.strip (item tokens 7)) = Return ref ->
  Py.float (Py.strip (item tokens 5)) = Return comp ->
  (too_far comp ref = true ->
     raises (parse_res_file res_file_content true verbosity) /\
     parse_res_file res_file_content false verbosity
     = Return (rows_from (-1) pre ++ rows_from i post) /\
     (forall x, x ∈ rows_from (-1) pre ++ rows_from i post -> row_index x <> i)) /\
  (PrimFloat.abs (comp - ref) = 1000%float -> too_far comp ref = true) /\
  (PrimFloat.leb (PrimFloat.abs (comp - ref)) 750 = true ->
     (exists data,
        parse_res_file res_file_content false verbosity = Return data /\
        (i, ref, comp) ∈ data) /\
     (forall data,
        parse_res_file res_file_content true verbosity = Return data ->
        (i, ref, comp) ∈ data)).
Proof.
  intros tokens i Hsplit H8 Href Hcomp.
  pose proof (tokens_not_blank line H8) as Hnb.
  assert (H8b : (8 <=? len tokens) = true) by (apply Z.leb_le; exact H8).
  assert (Hi : -1 + nonblank_count pre + 1 = i) by (unfold i; lia).
  split; [|split].
  - intros Hfar.
    assert (Hnone : parse_line false (Py.strip line) tokens i = Return None).
    { unfold parse_line, try_body. fold tokens.
      by rewrite H8b, Href, Hcomp; cbn [bind]; rewrite Hfar. }
    assert (Hrows : rows_from (-1) (pre ++ line :: post)
                    = rows_from (-1) pre ++ rows_from i post).
    { rewrite rows_from_around by exact Hnb. fold tokens. by rewrite Hi, Hnone. }
    split; [|split].
    + unfold parse_res_file. rewrite Hsplit.
      apply parse_loop_strict_raises; [exact Hnb|]. fold tokens. rewrite Hi.
      unfold parse_line, try_body. fold tokens.
      rewrite H8b, Href, Hcomp; cbn [bind]; rewrite Hfar. by eexists.
    + unfold parse_res_file. by rewrite Hsplit, parse_loop_lenient, Hrows.
    + intros x Hx. rewrite <- Hrows in Hx. rewrite <- Hi.
      apply rows_from_gap with post line; try assumption. by rewrite Hi.
  - intros Hd. unfold too_far. by rewrite Hd.
  - intros Hle. apply within_not_too_far in Hle.
    assert (Hrow : forall strictmode,
              parse_line strictmode (Py.strip line) tokens i
              = Return (Some (i, ref, comp))).
    { intros strictmode. unfold parse_line, try_body. fold tokens.
      by rewrite H8b, Href, Hcomp; cbn [bind]; rewrite Hle. }
    assert (Hin : (i, ref, comp) ∈ rows_from (-1) (pre ++ line :: post)).
    { rewrite rows_from_around by exact Hnb. fold tokens. rewrite Hi, Hrow.
      apply elem_of_app. right. by left. }
    split.
    + eexists. split; [|exact Hin].
      unfold parse_res_file. by rewrite Hsplit, parse_loop_lenient.
    + intros data Hdata. unfold parse_res_file in Hdata.
      apply parse_loop_returns in Hdata. subst data. by rewrite Hsplit.
Qed.

Lemma parse_res_file_tolerance_witness :
  let nl := String "010" EmptyString in
  let first := "-1.5 -1.4 0.0 0.0 0.0 0.5 -0.25 0.75 B_T/B_G"%string in
  let line := "-1.5 -1.4 0.0 0.0 0.0 1000.0 -0.25 0.0 P_TT/P_TG"%string in
  let last := "-1.5 -1.4 0.0 0.0 0.0 750.0 -0.25 0.0 P_TT/P_GG"%string in
  let text := (first ++ nl ++ line ++ nl ++ last ++ nl)%string in
  let tokens := Py.split (Py.strip line) in
  Py.splitlines text = [first] ++ line :: [last] /\
  8 <= len tokens /\
  Py.float (Py.strip (item tokens 7)) = Return 0%float /\
  Py.float (Py.strip (item tokens 5)) = Return 1000%float /\
  PrimFloat.abs (1000 - 0) = 1000%float /\
  raises (parse_res_file text true 0) /\
  parse_res_file text false 0
  = Return [(0, 0.75%float, 0.5%float); (2, 0%float, 750%float)].
Proof.
  intros nl first line last text tokens.
  assert (H8 : 8 <= len tokens) by (vm_compute; discriminate).
  destruct (parse_res_file_tolerance text 0 [first] [last] line 0%float 1000%float
              eq_refl H8 eq_refl eq_refl) as (Hfar & H1000 & _).
  destruct (Hfar (H1000 eq_refl)) as (Hstrict & Hlenient & _).
  repeat (split; [first [reflexivity | exact H8]|]).
  split; [exact Hstrict|]. rewrite Hlenient. reflexivity.
Defined.

(** ** Further properties *)

(** *** The [num_atoms] property *)

Import CompositionProps.

Lemma set_num_atoms_stored_from (m m' : Molecule) (v : Z) :
  _num_atoms m = None ->
  set_num_atoms m v = Return m' ->
  stored_from m m' /\ _num_atoms m' = Some v /\ 0 <= v.
Proof.
  unfold set_num_atoms. intros Hn. destruct (v <? 0) eqn:E; [discriminate|].
  intros [= <-]. apply Z.ltb_ge in E. unfold stored_from. simpl.
  repeat split; first [reflexivity | by right | exact E].
Qed.

Lemma num_atoms_stored_from (m m' : Molecule) (n : Z) :
  num_atoms m = Return (n, m') ->
  stored_from m m' /\
  (forall k, _num_atoms m = Some k -> n = k /\ m' = m) /\
  (_num_atoms m = None -> 0 < n).
Proof.
  intros H.
  unfold num_atoms in H. destruct (_num_atoms m) as [k|] eqn:Hk.
  { inversion H; subst.
    split; [unfold stored_from; repeat split; first [reflexivity | by left]|].
    split; [by intros ? [= <-]|discriminate]. }
  apply bind_Return in H as (m1 & Hset & H).
  assert (Hm1 : stored_from m m1 /\ (_num_atoms m1 = None \/ exists v, _num_atoms m1 = Some v /\ 0 <= v)).
  { destruct (nonempty (_atlist m));
      [apply set_num_atoms_stored_from in Hset as (? & ? & ?); eauto|].
    destruct (nonempty (_xyz m));
      [apply set_num_atoms_stored_from in Hset as (? & ? & ?); eauto|].
    destruct (nonempty (_ati m));
      [apply set_num_atoms_stored_from in Hset as (? & ? & ?); eauto|].
    inversion Hset; subst. split; [|by left].
    unfold stored_from. repeat split; first [reflexivity | by left]. }
  destruct Hm1 as (Hst & Hv).
  destruct (_num_atoms m1) as [v|] eqn:Hv1; [|discriminate].
  destruct (v =? 0) eqn:E0; [discriminate|]. inversion H; subst.
  split; [exact Hst|]. split; [discriminate|]. intros _.
  destruct Hv as [?|(w & [= <-] & Hw)]; [discriminate|].
  apply Z.eqb_neq in E0. lia.
Qed.

(** X1.  When [num_atoms] returns a count, asking again returns the same
    count and leaves the object as it is; the first call changes nothing
    but the stored count; a stored count is returned as it is, and a count
    that had to be inferred from the arrays is positive. *)
Theorem num_atoms_cached (m m' : Molecule) (n : Z) :
  num_atoms m = Return (n, m') ->
  num_atoms m' = Return (n, m') /\
  stored_from m m' /\
  (forall k, _num_atoms m = Some k -> n = k /\ m' = m) /\
  (_num_atoms m = None -> 0 < n).
Proof.
  intros H. pose proof (num_atoms_fields _ _ _ H) as (Hs & _).
  split; [by apply num_atoms_stored|]. by apply num_atoms_stored_from.
Qed.

Lemma num_atoms_cached_witness :
  let m := mkMolecule "h2o" None (Some 0) (Some 0) [] [] [7; 0; 0] in
  let m' := mkMolecule "h2o" (Some 3) (Some 0) (Some 0) [] [] [7; 0; 0] in
  num_atoms m = Return (3, m') /\
  num_atoms m' = Return (3, m') /\
  stored_from m m' /\
  (forall k, _num_atoms m = Some k -> 3 = k /\ m' = m) /\
  (_num_atoms m = None -> 0 < 3).
Proof.
  intros m m'. split; [reflexivity|].
  apply (num_atoms_cached m m' 3). reflexivity.
Defined.

(** X2.  A molecule without a stored count raises when none of its arrays
    has an entry, and also when its element counts are present but sum to
    zero: the element counts are asked first, and the coordinates are then
    not looked at. *)
Theorem num_atoms_not_present (m : Molecule) :
  _num_atoms m = None ->
  (_atlist m = [] /\ _xyz m = [] /\ _ati m = []) \/
  (_atlist m <> [] /\ np_sum_int (_atlist m) = 0) ->
  num_atoms m = Raise NumAtomsNotPresent.
Proof.
  intros Hn H. unfold num_atoms. rewrite Hn.
  destruct H as [(Ha & Hx & Hi)|(Ha & Hz)].
  - rewrite Ha, Hx, Hi. simpl. by rewrite Hn.
  - destruct (_atlist m) as [|a l] eqn:E; [done|].
    cbn [nonempty]. unfold set_num_atoms. rewrite Hz. reflexivity.
Qed.

Lemma num_atoms_not_present_witness :
  let m := mkMolecule "ghost" None (Some 0) (Some 0) [0; 0; 0] [(0, 0, 1)%float] [0] in
  _num_atoms m = None /\
  (_atlist m <> [] /\ np_sum_int (_atlist m) = 0) /\
  num_atoms m = Raise NumAtomsNotPresent.
Proof.
  intros m.
  assert (H : _atlist m <> [] /\ np_sum_int (_atlist m) = 0) by (split; [discriminate|reflexivity]).
  split; [reflexivity|]. split; [exact H|].
  exact (num_atoms_not_present m eq_refl (or_intror H)).
Defined.

(** *** What the composition filter keeps *)

Lemma in_array_spec (x : Z) (a : list Z) : in_array x a = true <-> x ∈ a.
Proof. unfold in_array. apply bool_decide_eq_true. Qed.

Lemma all_map_spec {A} (f : A -> bool) (l : list A) :
  all (map f l) = true <-> forall x, x ∈ l -> f x = true.
Proof.
  unfold all. rewrite forallb_forall. split.
  - intros H x Hx. apply (H (f x)), in_map, list_elem_of_In, Hx.
  - intros H b (x & <- & Hx)%in_map_iff. apply H, list_elem_of_In, Hx.
Qed.

Lemma any_map_spec {A} (f : A -> bool) (l : list A) :
  any (map f l) = true <-> exists x, x ∈ l /\ f x = true.
Proof.
  unfold any. rewrite existsb_exists. split.
  - intros (b & (x & <- & Hx)%in_map_iff & Hb). exists x.
    split; [by apply list_elem_of_In|exact Hb].
  - intros (x & Hx & Hf). exists (f x). split; [|exact Hf].
    apply in_map, list_elem_of_In, Hx.
Qed.

(** X3.  [molecule_has_required_elements] holds exactly when some group of
    the list has all its elements in the molecule: an empty list of groups
    is never satisfied, an empty group always is; the verbosity plays no
    part. *)
Theorem molecule_has_required_elements_spec
    (mol : Molecule) (required : list (list Z)) (verbosity : Z) :
  (molecule_has_required_elements mol required verbosity = true
   <-> exists g, g ∈ required /\ forall a, a ∈ g -> a ∈ ati mol) /\
  molecule_has_required_elements mol [] verbosity = false /\
  ([] ∈ required -> molecule_has_required_elements mol required verbosity = true).
Proof.
  assert (Hspec : forall req,
            molecule_has_required_elements mol req verbosity = true
            <-> exists g, g ∈ req /\ forall a, a ∈ g -> a ∈ ati mol).
  { intros req. unfold molecule_has_required_elements. rewrite any_map_spec.
    split; intros (g & Hg & H); exists g; split; try exact Hg.
    - intros a Ha. apply in_array_spec. by apply (proj1 (all_map_spec _ g) H).
    - apply all_map_spec. intros a Ha. apply in_array_spec, H, Ha. }
  split; [apply Hspec|]. split; [reflexivity|].
  intros Hin. apply Hspec. exists []. split; [exact Hin|].
  intros a Ha. by apply elem_of_nil in Ha.
Qed.

Lemma stored_from_refl (m : Molecule) : stored_from m m.
Proof. unfold stored_from. repeat split; first [reflexivity | by left]. Qed.

Lemma stored_from_trans (m1 m2 m3 : Molecule) :
  stored_from m1 m2 -> stored_from m2 m3 -> stored_from m1 m3.
Proof.
  unfold stored_from.
  intros (? & ? & ? & ? & ? & ? & H12) (? & ? & ? & ? & ? & ? & H23).
  repeat split; try congruence.
  destruct H12 as [H12|H12]; [|by right].
  destruct H23 as [H23|H23]; [left; congruence|right; congruence].
Qed.

Lemma atoms_outside_spec (bound : option Z) (test : Z -> Z -> bool)
    (m m' : Molecule) (b : bool) :
  atoms_outside bound test m = Return (b, m') ->
  stored_from m m' /\
  (forall n, _num_atoms m = Some n -> m' = m) /\
  (forall bd, bound = Some bd -> exists n, _num_atoms m' = Some n /\ b = test n bd) /\
  (bound = None -> b = false).
Proof.
  unfold atoms_outside. destruct bound as [bd|].
  - intros H. apply bind_Return in H as ([n m1] & Hn & H). inversion H; subst.
    destruct (num_atoms_stored_from _ _ _ Hn) as (Hst & Hk & _).
    destruct (num_atoms_fields _ _ _ Hn) as (Hs & _).
    split; [exact Hst|]. split; [|split].
    + intros k Hk'. by destruct (Hk k Hk').
    + intros ? [= <-]. eauto.
    + discriminate.
  - intros [= <- <-]. split; [apply stored_from_refl|]. by repeat split.
Qed.

Lemma field_outside_spec (bound field : option Z) (test : Z -> Z -> bool)
    (getter : Molecule -> result Z) (e : ValueError) (m : Molecule) (b : bool) :
  getter m = match field with Some v => Return v | None => Raise e end ->
  field_outside bound test getter m = Return b ->
  (forall bd, bound = Some bd -> exists v, field = Some v /\ b = test v bd) /\
  (bound = None -> b = false).
Proof.
  unfold field_outside. intros Hg. destruct bound as [bd|].
  - rewrite Hg. destruct field as [v|]; [|discriminate].
    intros [= <-]. split; [|discriminate]. intros ? [= <-]. eauto.
  - intros [= <-]. split; [discriminate|done].
Qed.

Lemma nonempty_spec {A} (l : list A) : nonempty l = true <-> l <> [].
Proof. destruct l; simpl; split; congruence. Qed.

(** A molecule the loop keeps meets every constraint that is given. *)
Lemma check_one_satisfies (v : Z) (c : MoleculeConstraints) (m m' : Molecule) :
  check_one v c m = Return (true, m') ->
  stored_from m m' /\ satisfies c m'.
Proof.
  unfold check_one. intros H.
  apply bind_Return in H as ([b1 m1] & H1 & H).
  destruct b1; [discriminate|].
  apply bind_Return in H as ([b2 m2] & H2 & H).
  destruct b2; [discriminate|].
  destruct (atoms_outside_spec _ _ _ _ _ H1) as (S1 & _ & B1 & _).
  destruct (atoms_outside_spec _ _ _ _ _ H2) as (S2 & K2 & B2 & _).
  destruct (nonempty (allowed_elements c)
            && negb (all (map (fun a => in_array a (allowed_elements c)) (ati m2))))
    eqn:Hallowed; [discriminate|].
  destruct (nonempty (required_elements c)
            && negb (molecule_has_required_elements m2 (required_elements c) v))
    eqn:Hrequired; [discriminate|].
  apply bind_Return in H as (low & Hlow & H). destruct low; [discriminate|].
  apply bind_Return in H as (high & Hhigh & H). destruct high; [discriminate|].
  apply bind_Return in H as (spin & Hspin & H). destruct spin; [discriminate|].
  inversion H; subst m'.
  destruct (field_outside_spec _ (_charge m2) _ _ ChargeNotSet _ _ eq_refl Hlow) as (Clo & _).
  destruct (field_outside_spec _ (_charge m2) _ _ ChargeNotSet _ _ eq_refl Hhigh) as (Chi & _).
  destruct (field_outside_spec _ (_uhf m2) _ _ UhfNotSet _ _ eq_refl Hspin) as (Cu & _).
  split; [by apply stored_from_trans with m1|].
  unfold satisfies, bound_met. split; [|split; [|split; [|split; [|split; [|split]]]]].
  - intros lo Hlo. destruct (B1 lo Hlo) as (n & Hn & Hb).
    rewrite (K2 n Hn). exists n. split; [exact Hn|].
    symmetry in Hb. apply Z.ltb_ge in Hb. lia.
  - intros hi Hhi. destruct (B2 hi Hhi) as (n & Hn & Hb).
    exists n. split; [exact Hn|].
    symmetry in Hb. rewrite Z.gtb_ltb in Hb. apply Z.ltb_ge in Hb. lia.
  - intros Hne a Ha. apply nonempty_spec in Hne. rewrite Hne in Hallowed.
    apply negb_false_iff in Hallowed.
    apply in_array_spec. by apply (proj1 (all_map_spec _ _) Hallowed).
  - intros Hne. apply nonempty_spec in Hne. rewrite Hne in Hrequired.
    apply negb_false_iff in Hrequired.
    unfold molecule_has_required_elements in Hrequired.
    apply any_map_spec in Hrequired as (g & Hg & Hall).
    exists g. split; [exact Hg|]. intros a Ha.
    apply in_array_spec. by apply (proj1 (all_map_spec _ _) Hall).
  - intros lo Hlo. destruct (Clo lo Hlo) as (q & Hq & Hb).
    exists q. split; [exact Hq|]. symmetry in Hb. apply Z.ltb_ge in Hb. lia.
  - intros hi Hhi. destruct (Chi hi Hhi) as (q & Hq & Hb).
    exists q. split; [exact Hq|].
    symmetry in Hb. rewrite Z.gtb_ltb in Hb. apply Z.ltb_ge in Hb. lia.
  - intros hi Hhi. destruct (Cu hi Hhi) as (u & Hu & Hb).
    exists u. split; [exact Hu|].
    symmetry in Hb. rewrite Z.gtb_ltb in Hb. apply Z.ltb_ge in Hb. lia.
Qed.

Lemma check_loop_sound (v : Z) (c : MoleculeConstraints)
    (mols acc out : list Molecule) :
  check_loop v c mols acc = Return out ->
  exists sub kept,
    out = acc ++ kept /\ sublist sub mols /\
    Forall2 stored_from sub kept /\ Forall (satisfies c) kept.
Proof.
  revert acc out. induction mols as [|m rest IH]; intros acc out H.
  { inversion H. exists [], []. rewrite app_nil_r.
    split; [done|]. split; [constructor|]. split; constructor. }
  cbn [check_loop] in H.
  apply bind_Return in H as ([keep m'] & Hone & H).
  apply IH in H as (sub & kept & -> & Hsub & Hst & Hsat).
  destruct keep.
  - apply check_one_satisfies in Hone as (Hs & Hc).
    exists (m :: sub), (m' :: kept).
    rewrite <- app_assoc.
    split; [done|]. split; [by apply sublist_skip|]. split; by constructor.
  - exists sub, kept. split; [done|]. split; [by apply sublist_cons|done].
Qed.

(** X4.  Every molecule returned by [check_molecule_composition] meets
    each constraint that is given, with its count, charge or spin stored
    wherever a bound on it is given; and the returned molecules are, in
    their order, molecules of the input that differ from them at most by
    the atom count stored meanwhile. *)
Theorem check_molecule_composition_sound
    (mols out : list Molecule) (verbosity : Z) (c : MoleculeConstraints) :
  check_molecule_composition mols verbosity c = Return out ->
  Forall (satisfies c) out /\
  exists sub, sublist sub mols /\ Forall2 stored_from sub out.
Proof.
  unfold check_molecule_composition. intros H.
  apply check_loop_sound in H as (sub & kept & -> & Hsub & Hst & Hsat).
  split; [exact Hsat|]. by exists sub.
Qed.

Lemma check_molecule_composition_sound_witness :
  let water := mkMolecule "h2o" None (Some 0) None [] [] [7; 0; 0] in
  let cation := mkMolecule "na" (Some 1) (Some 1) (Some 0) [] [] [10] in
  let c := mkConstraints [0; 7] [[7]] (Some 0) (Some 0) None (Some 2) None in
  let out := [mkMolecule "h2o" (Some 3) (Some 0) None [] [] [7; 0; 0]] in
  check_molecule_composition [water; cation] 0 c = Return out /\
  Forall (satisfies c) out /\
  exists sub, sublist sub [water; cation] /\ Forall2 stored_from sub out.
Proof.
  intros water cation c out. split; [reflexivity|].
  apply (check_molecule_composition_sound [water; cation] out 0 c). reflexivity.
Defined.

Lemma within_spec (lo hi : option Z) (v : Z) :
  within lo hi v = negb (outside lo Z.ltb v) && negb (outside hi Z.gtb v).
Proof.
  unfold within, outside.
  destruct lo as [l|], hi as [h|]; simpl;
    rewrite ?Z.gtb_ltb, ?Z.leb_antisym; reflexivity.
Qed.

Lemma atoms_outside_stored (bound : option Z) (test : Z -> Z -> bool)
    (m : Molecule) (n : Z) :
  _num_atoms m = Some n ->
  atoms_outside bound test m = Return (outside bound test n, m).
Proof.
  intros Hn. unfold atoms_outside, outside.
  destruct bound; [|reflexivity]. by rewrite (num_atoms_stored m n Hn).
Qed.

Lemma field_outside_stored (bound : option Z) (test : Z -> Z -> bool)
    (getter : Molecule -> result Z) (m : Molecule) (v : Z) :
  getter m = Return v ->
  field_outside bound test getter m = Return (outside bound test v).
Proof.
  intros Hg. unfold field_outside, outside.
  destruct bound; [|reflexivity]. by rewrite Hg.
Qed.

(** On a molecule with stored count, charge and spin, one turn of the loop
    decides by [passes] and leaves the object as it is. *)
Lemma check_one_populated (v : Z) (c : MoleculeConstraints) (m : Molecule) :
  populated m -> check_one v c m = Return (passes c m, m).
Proof.
  intros ([n Hn] & [q Hq] & [u Hu]).
  assert (Hcharge : charge m = Return q) by (unfold charge; by rewrite Hq).
  assert (Huhf : uhf m = Return u) by (unfold uhf; by rewrite Hu).
  unfold passes. rewrite Hn, Hq, Hu, !within_spec.
  change (outside None Z.ltb u) with false. cbn [negb andb].
  unfold check_one.
  rewrite (atoms_outside_stored _ _ m n Hn). cbn [bind].
  destruct (outside (min_num_atoms c) Z.ltb n); cbn [negb andb]; [reflexivity|].
  rewrite (atoms_outside_stored _ _ m n Hn). cbn [bind].
  destruct (outside (max_num_atoms c) Z.gtb n); cbn [negb andb]; [reflexivity|].
  unfold elements_ok, molecule_has_required_elements.
  destruct (nonempty (allowed_elements c)); cbn [negb andb orb].
  1: destruct (all _); cbn [negb andb]; [|reflexivity].
  all: destruct (nonempty (required_elements c)); cbn [negb andb orb].
  1,3: destruct (any _); cbn [negb andb]; [|reflexivity].
  all: rewrite (field_outside_stored _ _ _ m q Hcharge); cbn [bind];
    (destruct (outside (min_charge c) Z.ltb q); cbn [negb andb]; [reflexivity|]);
    rewrite (field_outside_stored _ _ _ m q Hcharge); cbn [bind];
    (destruct (outside (max_charge c) Z.gtb q); cbn [negb andb]; [reflexivity|]);
    rewrite (field_outside_stored _ _ _ m u Huhf); cbn [bind];
    destruct (outside (max_uhf c) Z.gtb u); reflexivity.
Qed.

Lemma check_loop_populated (v : Z) (c : MoleculeConstraints)
    (mols acc : list Molecule) :
  Forall populated mols ->
  check_loop v c mols acc
  = Return (acc ++ filter (fun m => passes c m = true) mols).
Proof.
  intros Hall. revert acc.
  induction Hall as [|m rest Hm _ IH]; intros acc; cbn [check_loop].
  { by rewrite app_nil_r. }
  rewrite (check_one_populated v c m Hm). cbn [bind]. rewrite IH.
  rewrite filter_cons. destruct (passes c m); destruct (decide _); try done.
  by rewrite <- app_assoc.
Qed.

(** X5.  On molecules whose atom count, charge and spin are all stored, as
    the file readers leave them, [check_molecule_composition] never raises
    and returns, unchanged and in order, exactly the molecules whose count
    lies within the atom bounds, whose elements pass the two element tests,
    whose charge lies within the charge bounds and whose spin does not
    exceed its bound. *)
Theorem check_molecule_composition_populated
    (mols : list Molecule) (verbosity : Z) (c : MoleculeConstraints) :
  Forall populated mols ->
  check_molecule_composition mols verbosity c
  = Return (filter (fun m => passes c m = true) mols).
Proof.
  intros Hall. unfold check_molecule_composition.
  by rewrite check_loop_populated.
Qed.

Lemma check_molecule_composition_populated_witness :
  let water := mkMolecule "h2o" (Some 3) (Some 0) (Some 0) [] [] [7; 0; 0] in
  let cation := mkMolecule "na" (Some 1) (Some 1) (Some 0) [] [] [10] in
  let radical := mkMolecule "oh" (Some 2) (Some 0) (Some 1) [] [] [7; 0] in
  let c := mkConstraints [0; 7; 10] [[7]; [10]] None (Some 1) (Some 0) None (Some 3) in
  Forall populated [water; cation; radical] /\
  filter (fun m => passes c m = true) [water; cation; radical] = [water; cation] /\
  check_molecule_composition [water; cation; radical] 2 c = Return [water; cation].
Proof.
  intros water cation radical c.
  assert (Hall : Forall populated [water; cation; radical]).
  { repeat constructor; by eexists. }
  split; [exact Hall|]. split; [reflexivity|].
  exact (check_molecule_composition_populated [water; cation; radical] 2 c Hall).
Defined.

(** X6.  With no bound given and both element lists empty, no property of
    a molecule is read: the call returns its input unchanged, also for
    molecules whose count, charge or spin is not set. *)
Theorem check_molecule_composition_unconstrained
    (mols : list Molecule) (verbosity : Z) :
  check_molecule_composition mols verbosity
    (mkConstraints [] [] None None None None None)
  = Return mols.
Proof.
  unfold check_molecule_composition.
  rewrite check_loop_kept; [reflexivity|].
  apply Forall_forall. intros m _ v'. reflexivity.
Qed.

(** *** The element selector *)

Lemma StronglySorted_le_NoDup (l : list Z) :
  StronglySorted Z.le l -> NoDup l -> StronglySorted Z.lt l.
Proof.
  induction 1 as [|x l Hl IH Hx]; intros Hnd; [constructor|].
  apply NoDup_cons in Hnd as [Hnotin Hnd].
  constructor; [by apply IH|].
  apply Forall_forall. intros y Hy.
  pose proof (proj1 (Forall_forall _ _) Hx y Hy) as Hle.
  assert (x <> y) by (intros ->; exact (Hnotin Hy)). lia.
Qed.

Lemma sorted_spec (s : gset Z) :
  StronglySorted Z.lt (sorted s) /\ (forall x, x ∈ sorted s <-> x ∈ s).
Proof.
  unfold sorted.
  assert (Hperm : merge_sort Z.le (elements s) ≡ₚ elements s)
    by apply merge_sort_Permutation.
  split.
  - apply StronglySorted_le_NoDup.
    + apply (StronglySorted_merge_sort Z.le).
    + rewrite Hperm. apply NoDup_elements.
  - intros x. by rewrite Hperm, elem_of_elements.
Qed.

Lemma parse_items_spec (items : list string) (acc out : gset Z) :
  parse_items items acc = Return out ->
  Forall (fun item => exists new, parse_item item = Return new) items /\
  forall x, x ∈ out <->
    x ∈ acc \/ exists item new,
                 item ∈ items /\ parse_item item = Return new /\ x ∈ new.
Proof.
  revert acc out. induction items as [|item rest IH]; intros acc out H.
  { inversion H; subst. split; [constructor|]. intros x. split; [by left|].
    intros [?|(item & new & Hin & _)]; [done|]. by apply elem_of_nil in Hin. }
  cbn [parse_items] in H. apply bind_Return in H as (new & Hnew & H).
  apply IH in H as (Hall & Hmem). split; [constructor; eauto|].
  intros x. rewrite Hmem, elem_of_union, elem_of_list_to_set. split.
  - intros [[?|?]|(it & nw & Hin & Hit & Hx)]; [by left|right..].
    + exists item, new. split; [by left|done].
    + exists it, nw. split; [by right|done].
  - intros [?|(it & nw & Hin & Hit & Hx)]; [by left; left|].
    apply elem_of_cons in Hin as [->|Hin].
    + left. right. congruence.
    + right. eauto.
Qed.

Lemma parse_items_raises (items : list string) (acc : gset Z) (item : string) :
  item ∈ items -> raises (parse_item item) -> raises (parse_items items acc).
Proof.
  revert acc. induction items as [|it rest IH]; intros acc Hin Hbad.
  { by apply elem_of_nil in Hin. }
  cbn [parse_items].
  destruct (parse_item it) as [new|e] eqn:Hit; cbn [bind]; [|by eexists].
  apply elem_of_cons in Hin as [->|Hin]; [|by apply IH].
  destruct Hbad as [e He]. congruence.
Qed.

Lemma parse_items_returns (items : list string) (acc : gset Z) :
  Forall (fun item => exists new, parse_item item = Return new) items ->
  exists out, parse_items items acc = Return out.
Proof.
  intros Hall. revert acc.
  induction Hall as [|item rest [new Hnew] _ IH]; intros acc; [by eexists|].
  cbn [parse_items]. rewrite Hnew. cbn [bind]. apply IH.
Qed.

Lemma is_empty_spec (s : string) : Py.is_empty s = true <-> s = EmptyString.
Proof. destruct s; simpl; split; congruence. Qed.

(** X7.  Whatever list [parse_element_list] returns is strictly
    increasing: it is sorted and holds no index twice, however the items of
    the input overlap or are ordered. *)
Theorem parse_element_list_sorted (allowed_elements : string) (l : list Z) :
  parse_element_list allowed_elements = Return l ->
  StronglySorted Z.lt l.
Proof.
  unfold parse_element_list. destruct (Py.is_empty allowed_elements).
  { intros [= <-]. constructor. }
  intros H. apply bind_Return in H as (s & _ & [= <-]). apply sorted_spec.
Qed.

Lemma parse_element_list_sorted_witness :
  parse_element_list "7-9, 3, 8-10,1-3" = Return [0; 1; 2; 6; 7; 8; 9] /\
  StronglySorted Z.lt [0; 1; 2; 6; 7; 8; 9].
Proof.
  split; [vm_compute; reflexivity|].
  apply (parse_element_list_sorted "7-9, 3, 8-10,1-3"). vm_compute. reflexivity.
Defined.

(** X8.  The indices returned for a non-empty input are exactly those that
    some item of the comma-separated list contributes: the result is the
    union over the items, each stripped of surrounding white space. *)
Theorem parse_element_list_union (allowed_elements : string) (l : list Z) :
  allowed_elements <> EmptyString ->
  parse_element_list allowed_elements = Return l ->
  forall x, x ∈ l <->
    exists item new,
      item ∈ map Py.strip (Py.split_on "," allowed_elements) /\
      parse_item item = Return new /\ x ∈ new.
Proof.
  intros Hne. unfold parse_element_list.
  destruct (Py.is_empty allowed_elements) eqn:E.
  { apply is_empty_spec in E. done. }
  intros H. apply bind_Return in H as (s & Hs & [= <-]).
  apply parse_items_spec in Hs as (_ & Hmem).
  intros x. rewrite (proj2 (sorted_spec s) x), Hmem. split.
  - intros [Hx|?]; [|done]. by apply elem_of_empty in Hx.
  - intros ?. by right.
Qed.

Lemma parse_element_list_union_witness :
  let s := "1-3, 5"%string in
  s <> EmptyString /\
  parse_element_list s = Return [0; 1; 2; 4] /\
  forall x, x ∈ [0; 1; 2; 4] <->
    exists item new,
      item ∈ map Py.strip (Py.split_on "," s) /\
      parse_item item = Return new /\ x ∈ new.
Proof.
  intros s. split; [discriminate|]. split; [vm_compute; reflexivity|].
  apply (parse_element_list_union s [0; 1; 2; 4]);
    [discriminate | vm_compute; reflexivity].
Defined.

(** X9.  The empty string is accepted and gives the empty list.  A
    non-empty input is accepted exactly when every item of its
    comma-separated list is: one item that cannot be read, such as the empty
    item left by a doubled or trailing comma, makes the whole call raise. *)
Theorem parse_element_list_accepts (allowed_elements : string) :
  parse_element_list EmptyString = Return [] /\
  (allowed_elements <> EmptyString ->
   ((exists l, parse_element_list allowed_elements = Return l)
    <-> Forall (fun item => exists new, parse_item item = Return new)
          (map Py.strip (Py.split_on "," allowed_elements)))) /\
  raises (parse_item EmptyString).
Proof.
  split; [reflexivity|]. split; [|by eexists].
  intros Hne. unfold parse_element_list.
  destruct (Py.is_empty allowed_elements) eqn:E.
  { apply is_empty_spec in E. done. }
  split.
  - intros [l H]. apply bind_Return in H as (s & Hs & _).
    by apply parse_items_spec in Hs as (Hall & _).
  - intros Hall. destruct (parse_items_returns _ ∅ Hall) as [out ->].
    by eexists.
Qed.

Lemma split_on_absent (c : ascii) (s : string) :
  Py.contains c s = false -> Py.split_on c s = [s].
Proof.
  induction s as [|d s IH]; [reflexivity|]. cbn [Py.contains Py.split_on].
  intros [Hd Hs]%orb_false_elim. unfold Py.ascii_eqb in *.
  rewrite Ascii.eqb_sym, Hd. by rewrite (IH Hs).
Qed.

Lemma int_not_wildcard (a : string) (n : Z) :
  Py.int a = Return n -> Py.str_eqb a "*" = false.
Proof.
  intros H. destruct (Py.str_eqb a "*") eqn:E; [|reflexivity].
  apply str_eqb_eq in E. subst a. discriminate H.
Qed.

(** X10.  An item [a-b] of two numbers selects the 0-based indices from
    [a - 1] to [b - 1], none if [b < a]; with [*] for [b] the upper end is
    103, the highest element number, so the indices run up to 102. *)
Theorem parse_item_range (item a b : string) (lo hi : Z) :
  Py.split_on "-" item = [a; b] ->
  Py.int a = Return lo ->
  (b = "*"%string /\ hi = 103) \/ Py.int b = Return hi ->
  parse_item item = Return (seqZ (lo - 1) (hi - lo + 1)) /\
  forall x, x ∈ seqZ (lo - 1) (hi - lo + 1) <-> lo - 1 <= x <= hi - 1.
Proof.
  intros Hsplit Ha Hb. split; [|intros x; rewrite elem_of_seqZ; lia].
  assert (Hc : Py.contains "-" item = true).
  { destruct (Py.contains "-" item) eqn:E; [reflexivity|].
    rewrite (split_on_absent _ _ E) in Hsplit. discriminate. }
  unfold parse_item. rewrite Hc, Hsplit, (int_not_wildcard a lo Ha), andb_false_r, Ha.
  cbn [bind]. unfold range.
  destruct Hb as [[-> ->]|Hb].
  - cbn. do 2 f_equal. lia.
  - rewrite (int_not_wildcard b hi Hb), Hb. cbn [bind]. do 2 f_equal. lia.
Qed.

Lemma parse_item_range_witness :
  Py.split_on "-" "81-*" = ["81"; "*"]%string /\
  Py.int "81" = Return 81 /\
  parse_item "81-*" = Return (seqZ 80 23) /\
  forall x, x ∈ seqZ 80 23 <-> 81 - 1 <= x <= 103 - 1.
Proof.
  split; [reflexivity|]. split; [reflexivity|].
  exact (parse_item_range "81-*" "81" "*" 81 103 eq_refl eq_refl
           (or_introl (conj eq_refl eq_refl))).
Defined.

(** *** The species expansion *)

Import Re SpeciesProps.

Lemma re_match_group_run (name : string) (excluded : list ascii)
    (rest : list atom) (s : string) :
  re_match (Group name excluded :: rest) s
  = group_run name excluded (re_match rest) EmptyString s.
Proof.
  cbn [re_match]. generalize EmptyString as taken.
  induction s as [|d s IH]; intros taken; [reflexivity|].
  cbn [group_run]. rewrite <- IH. reflexivity.
Qed.

(** A group followed by a literal that the group excludes matches in one
    way only: the group takes the characters up to the next excluded
    character, which must be the literal. *)
Lemma re_match_group_lit_at (name : string) (excluded : list ascii) (c e : ascii)
    (rest : list atom) (a s : string) :
  excludes excluded c = true ->
  excludes excluded e = true ->
  avoids excluded a = true ->
  re_match (Group name excluded :: Lit c :: rest) (a ++ String e s)
  = if Py.is_empty a then None
    else if Py.ascii_eqb c e then
      match re_match rest s with
      | Some m => Some ((name, a) :: m)
      | None => None
      end
    else None.
Proof.
  intros Hc He Ha. rewrite re_match_group_run.
  enough (H : forall taken,
            group_run name excluded (re_match (Lit c :: rest)) taken (a ++ String e s)
            = if Py.is_empty taken && Py.is_empty a then None
              else if Py.ascii_eqb c e then
                match re_match rest s with
                | Some m => Some ((name, String.rev_app taken a) :: m)
                | None => None
                end
              else None) by apply H.
  induction a as [|d a IH]; intros taken.
  - change (EmptyString ++ String e s)%string with (String e s).
    cbn [group_run re_match]. rewrite He, andb_true_r.
    destruct (Py.is_empty taken); [reflexivity|].
    by destruct (Py.ascii_eqb c e); [destruct (re_match rest s)|].
  - cbn [avoids] in Ha. apply andb_prop in Ha as [Hd Ha].
    apply negb_true_iff in Hd.
    change (String d a ++ String e s)%string with (String d (a ++ String e s)).
    cbn [group_run]. rewrite Hd, (IH Ha (String d taken)).
    cbn [Py.is_empty andb String.rev_app re_match]. rewrite andb_false_r.
    assert (Hstop : (if Py.is_empty taken then None
                     else match (if Py.ascii_eqb c d
                                 then re_match rest (a ++ String e s) else None) with
                          | Some m => Some ((name, String.rev taken) :: m)
                          | None => None
                          end) = None).
    { destruct (Py.is_empty taken); [reflexivity|]. unfold Py.ascii_eqb.
      destruct (Ascii.eqb_spec c d) as [->|_]; [congruence|reflexivity]. }
    rewrite Hstop.
    by destruct (Py.ascii_eqb c e); [destruct (re_match rest s)|].
Qed.

Lemma re_match_group_lit (name : string) (excluded : list ascii) (c : ascii)
    (rest : list atom) (a s : string) :
  excludes excluded c = true ->
  avoids excluded a = true ->
  re_match (Group name excluded :: Lit c :: rest) (a ++ String c s)
  = if Py.is_empty a then None
    else match re_match rest s with
         | Some m => Some ((name, a) :: m)
         | None => None
         end.
Proof.
  intros Hc Ha. rewrite re_match_group_lit_at by done.
  unfold Py.ascii_eqb. by rewrite Ascii.eqb_refl.
Qed.

(** Such a group and literal do not match a string that holds no excluded
    character at all. *)
Lemma re_match_group_lit_end (name : string) (excluded : list ascii) (c : ascii)
    (rest : list atom) (a : string) :
  excludes excluded c = true ->
  avoids excluded a = true ->
  re_match (Group name excluded :: Lit c :: rest) a = None.
Proof.
  intros Hc Ha. rewrite re_match_group_run.
  generalize EmptyString as taken.
  induction a as [|d a IH]; intros taken.
  - cbn [group_run re_match]. by destruct (Py.is_empty taken).
  - cbn [avoids] in Ha. apply andb_prop in Ha as [Hd Ha].
    apply negb_true_iff in Hd.
    cbn [group_run]. rewrite Hd, (IH Ha). cbn [or_else re_match].
    destruct (Py.is_empty taken); [reflexivity|]. unfold Py.ascii_eqb.
    destruct (Ascii.eqb_spec c d) as [->|_]; [congruence|reflexivity].
Qed.

(** A group at the end of the pattern takes the longest run it can. *)
Lemma re_match_group_last (name : string) (excluded : list ascii) (s : string) :
  re_match [Group name excluded] s
  = if Py.is_empty (upto excluded s) then None
    else Some [(name, upto excluded s)].
Proof.
  rewrite re_match_group_run.
  enough (H : forall taken,
            group_run name excluded (re_match []) taken s
            = if Py.is_empty taken && Py.is_empty (upto excluded s) then None
              else Some [(name, String.rev_app taken (upto excluded s))])
    by apply H.
  induction s as [|d s IH]; intros taken.
  - cbn. rewrite andb_true_r. reflexivity.
  - cbn [upto group_run]. destruct (excludes excluded d).
    + cbn. rewrite andb_true_r. reflexivity.
    + rewrite (IH (String d taken)). cbn [Py.is_empty andb String.rev_app].
      by rewrite andb_false_r.
Qed.

(** A group takes a non-empty run that ends where an excluded character or
    the end of the string follows, if the rest of the pattern matches
    there. *)
Lemma re_match_group (name : string) (excluded : list ascii)
    (rest : list atom) (a s : string) (m : list (string * string)) :
  avoids excluded a = true ->
  Py.is_empty a = false ->
  Py.is_empty (upto excluded s) = true ->
  re_match rest s = Some m ->
  re_match (Group name excluded :: rest) (a ++ s) = Some ((name, a) :: m).
Proof.
  intros Ha Hne Hs Hm. rewrite re_match_group_run.
  enough (H : forall taken,
            Py.is_empty taken && Py.is_empty a = false ->
            group_run name excluded (re_match rest) taken (a ++ s)
            = Some ((name, String.rev_app taken a) :: m))
    by (apply H; by rewrite Hne).
  clear Hne. induction a as [|d a IH]; intros taken Hor.
  - change (EmptyString ++ s)%string with s.
    cbn [String.rev_app]. rewrite andb_true_r in Hor.
    destruct s as [|e s]; cbn [group_run].
    + rewrite Hor, Hm. reflexivity.
    + cbn [upto] in Hs. destruct (excludes excluded e); [|discriminate].
      rewrite Hor, Hm. reflexivity.
  - cbn [avoids] in Ha. apply andb_prop in Ha as [Hd Ha].
    apply negb_true_iff in Hd.
    change (String d a ++ s)%string with (String d (a ++ s)).
    cbn [group_run]. rewrite Hd, (IH Ha (String d taken) eq_refl).
    reflexivity.
Qed.

Lemma append_empty_r (s : string) : (s ++ EmptyString)%string = s.
Proof.
  induction s as [|c s IH]; [reflexivity|].
  change (String c s ++ EmptyString)%string with (String c (s ++ EmptyString)).
  by rewrite IH.
Qed.

(** The part [{species}] of the four patterns, at a list that is not empty
    and holds no closing brace. *)
Lemma re_match_species (rest : list atom) (body tail : string) :
  avoids ["}"%char] body = true ->
  Py.is_empty body = false ->
  re_match (Group "species" ["}"%char] :: Lit "}" :: rest) (body ++ String "}" tail)
  = match re_match rest tail with
    | Some m => Some (("species"%string, body) :: m)
    | None => None
    end.
Proof.
  intros Hb Hne. rewrite re_match_group_lit by done. by rewrite Hne.
Qed.

Lemma extract_species_expands (p body tail : string) :
  avoids ["{"; "}"]%char p = true ->
  avoids ["}"%char] body = true ->
  Py.is_empty body = false ->
  extract_species_from_path (p ++ String "{" (body ++ String "}" tail))
  = Return (map (fun s => p ++ Py.strip s ++ upto ["/"%char] tail)%string
              (Py.split_on "," body)).
Proof.
  intros Hp Hb Hne. unfold extract_species_from_path.
  unfold re_base_before_and_after at 1.
  rewrite (re_match_group_lit "prefix" _ "{" _ p) by done.
  rewrite (re_match_species _ body tail Hb Hne), re_match_group_last.
  destruct (Py.is_empty p) eqn:Ep.
  - apply is_empty_spec in Ep. subst p.
    change (EmptyString ++ String "{" (body ++ String "}" tail))%string
      with (String "{" (body ++ String "}" tail)).
    unfold re_base_before, re_base_after, re_no_base.
    rewrite re_match_group_run.
    cbn [group_run excludes existsb Py.is_empty].
    change (Py.ascii_eqb "{" "{") with true. cbn [orb].
    change (re_match (Lit "{" :: ?r) (String "{" ?x)) with (re_match r x).
    rewrite !(re_match_species _ body tail Hb Hne), re_match_group_last.
    destruct (Py.is_empty (upto ["/"%char] tail)) eqn:Es.
    + apply is_empty_spec in Es. rewrite Es. cbn [re_match].
      unfold species_of. cbn [group Py.str_eqb String.eqb Ascii.eqb Bool.eqb].
      f_equal. rewrite <- (map_id (map Py.strip _)) at 1. rewrite map_map.
      apply map_ext. intros s. cbn. by rewrite append_empty_r.
    + unfold species_of. cbn [group Py.str_eqb String.eqb Ascii.eqb Bool.eqb].
      by rewrite map_map.
  - destruct (Py.is_empty (upto ["/"%char] tail)) eqn:Es.
    + apply is_empty_spec in Es. rewrite Es.
      unfold re_base_before.
      rewrite (re_match_group "base" _ _ p _ [("species"%string, body)]);
        [| done | done | reflexivity |].
      * unfold species_of. cbn [group Py.str_eqb String.eqb Ascii.eqb Bool.eqb].
        f_equal. rewrite map_map.
        apply map_ext. intros s. by rewrite append_empty_r.
      * change (re_match (Opt "/" :: Lit "{" :: ?r) (String "{" ?x))
          with (re_match r x).
        by rewrite (re_match_species _ body tail Hb Hne).
    + unfold species_of. cbn [group Py.str_eqb String.eqb Ascii.eqb Bool.eqb].
      by rewrite map_map.
Qed.

(** X11.  A token [prefix{a,b,...}tail] whose prefix holds no brace and
    whose list is not empty and holds no closing brace expands to one name
    per comma-separated item, in order: the prefix, the item stripped of
    surrounding white space, and the tail up to its first [/].  The prefix
    and that part of the tail may each be empty, which is how the four
    patterns arise. *)
Theorem extract_species_from_path_expands (p body tail : string) :
  avoids ["{"; "}"]%char p = true ->
  avoids ["}"%char] body = true ->
  Py.is_empty body = false ->
  extract_species_from_path (p ++ String "{" (body ++ String "}" tail))
  = Return (map (fun s => p ++ Py.strip s ++ upto ["/"%char] tail)%string
              (Py.split_on "," body)).
Proof. apply extract_species_expands. Qed.

Lemma extract_species_from_path_expands_witness :
  avoids ["{"; "}"]%char "01_10" = true /\
  avoids ["}"%char] "P, R1,R2" = true /\
  extract_species_from_path "01_10{P, R1,R2}b/$func/"
  = Return ["01_10Pb"; "01_10R1b"; "01_10R2b"]%string.
Proof.
  split; [reflexivity|]. split; [reflexivity|].
  exact (extract_species_from_path_expands "01_10" "P, R1,R2" "b/$func/"
           eq_refl eq_refl eq_refl).
Defined.

Lemma re_match_lit_step (c d : ascii) (rest : list atom) (y : string) :
  re_match (Lit c :: rest) (String d y)
  = if Py.ascii_eqb c d then re_match rest y else None.
Proof. reflexivity. Qed.

Lemma re_match_opt_step (o d : ascii) (rest : list atom) (y : string) :
  re_match (Opt o :: rest) (String d y)
  = or_else (if Py.ascii_eqb o d then re_match rest y else None)
      (re_match rest (String d y)).
Proof. reflexivity. Qed.

Lemma excludes_neq (excluded : list ascii) (c d : ascii) :
  excludes excluded c = true -> excludes excluded d = false ->
  Py.ascii_eqb c d = false.
Proof.
  intros Hc Hd. unfold Py.ascii_eqb.
  destruct (Ascii.eqb_spec c d) as [->|_]; [congruence|reflexivity].
Qed.

(** The literal after a group does not match inside the run of the group. *)
Lemma re_match_lit_run (excluded : list ascii) (c e : ascii) (rest : list atom)
    (a s : string) :
  excludes excluded c = true ->
  avoids excluded a = true ->
  re_match (Lit c :: rest) (a ++ String e s)
  = if Py.is_empty a then (if Py.ascii_eqb c e then re_match rest s else None)
    else None.
Proof.
  intros Hc Ha. destruct a as [|d a]; [reflexivity|].
  cbn [avoids] in Ha. apply andb_prop in Ha as [Hd _]. apply negb_true_iff in Hd.
  change (String d a ++ String e s)%string with (String d (a ++ String e s)).
  by rewrite re_match_lit_step, (excludes_neq excluded c d).
Qed.

Lemma re_match_lit_run_end (excluded : list ascii) (c : ascii) (rest : list atom)
    (a : string) :
  excludes excluded c = true ->
  avoids excluded a = true ->
  re_match (Lit c :: rest) a = None.
Proof.
  intros Hc Ha. destruct a as [|d a]; [reflexivity|].
  cbn [avoids] in Ha. apply andb_prop in Ha as [Hd _]. apply negb_true_iff in Hd.
  by rewrite re_match_lit_step, (excludes_neq excluded c d).
Qed.

(** The same for a group followed by an optional character that the group
    does not exclude and then by a literal that it excludes: the optional
    character is taken by the group if it is there. *)
Lemma re_match_group_opt_lit_at (name : string) (excluded : list ascii)
    (o c e : ascii) (rest : list atom) (a s : string) :
  excludes excluded o = false ->
  excludes excluded c = true ->
  excludes excluded e = true ->
  avoids excluded a = true ->
  re_match (Group name excluded :: Opt o :: Lit c :: rest) (a ++ String e s)
  = if Py.is_empty a then None
    else if Py.ascii_eqb c e then
      match re_match rest s with
      | Some m => Some ((name, a) :: m)
      | None => None
      end
    else None.
Proof.
  intros Ho Hc He Ha. rewrite re_match_group_run.
  enough (H : forall taken,
            group_run name excluded (re_match (Opt o :: Lit c :: rest)) taken
              (a ++ String e s)
            = if Py.is_empty taken && Py.is_empty a then None
              else if Py.ascii_eqb c e then
                match re_match rest s with
                | Some m => Some ((name, String.rev_app taken a) :: m)
                | None => None
                end
              else None) by apply H.
  induction a as [|d a IH]; intros taken.
  - change (EmptyString ++ String e s)%string with (String e s).
    cbn [group_run]. rewrite He, andb_true_r, re_match_opt_step, re_match_lit_step.
    unfold Py.ascii_eqb at 1.
    destruct (Ascii.eqb_spec o e) as [->|_]; [congruence|]. cbn [or_else].
    destruct (Py.is_empty taken); [reflexivity|].
    by destruct (Py.ascii_eqb c e); [destruct (re_match rest s)|].
  - pose proof Ha as Ha'.
    cbn [avoids] in Ha. apply andb_prop in Ha as [Hd Ha].
    apply negb_true_iff in Hd.
    change (String d a ++ String e s)%string with (String d (a ++ String e s)).
    cbn [group_run]. rewrite Hd, (IH Ha (String d taken)).
    cbn [Py.is_empty andb String.rev_app]. rewrite andb_false_r.
    rewrite re_match_opt_step, re_match_lit_step, (excludes_neq excluded c d) by done.
    rewrite (re_match_lit_run excluded c e rest a s Hc Ha).
    destruct (Py.ascii_eqb c e).
    + destruct (re_match rest s) as [m|]; [reflexivity|].
      cbn [or_else]. destruct (Py.is_empty taken); [reflexivity|].
      by destruct (Py.ascii_eqb o d), (Py.is_empty a).
    + cbn [or_else]. destruct (Py.is_empty taken); [reflexivity|].
      by destruct (Py.ascii_eqb o d), (Py.is_empty a).
Qed.

Lemma re_match_group_opt_lit_end (name : string) (excluded : list ascii)
    (o c : ascii) (rest : list atom) (a : string) :
  excludes excluded c = true ->
  avoids excluded a = true ->
  re_match (Group name excluded :: Opt o :: Lit c :: rest) a = None.
Proof.
  intros Hc Ha. rewrite re_match_group_run.
  generalize EmptyString as taken.
  induction a as [|d a IH]; intros taken.
  - cbn [group_run]. by destruct (Py.is_empty taken).
  - pose proof Ha as Ha'.
    cbn [avoids] in Ha. apply andb_prop in Ha as [Hd Ha].
    apply negb_true_iff in Hd.
    cbn [group_run]. rewrite Hd, (IH Ha). cbn [or_else].
    destruct (Py.is_empty taken); [reflexivity|].
    rewrite re_match_opt_step, (re_match_lit_run_end excluded c rest _ Hc Ha').
    rewrite (re_match_lit_run_end excluded c rest _ Hc Ha).
    by destruct (Py.ascii_eqb o d).
Qed.

Lemma upto_after (excluded : list ascii) (s : string) :
  s = (upto excluded s ++ after excluded s)%string /\
  avoids excluded (upto excluded s) = true /\
  (after excluded s = EmptyString \/
   exists e r, after excluded s = String e r /\ excludes excluded e = true).
Proof.
  induction s as [|c s (IH1 & IH2 & IH3)]; [by repeat split; left|].
  cbn [upto after avoids]. destruct (excludes excluded c) eqn:E.
  - split; [reflexivity|]. split; [reflexivity|]. right. eauto.
  - cbn [avoids]. rewrite E, IH2. split; [|by split].
    change (String c (upto excluded s) ++ after excluded s)%string
      with (String c (upto excluded s ++ after excluded s)).
    by rewrite <- IH1.
Qed.

Lemma extract_all_fail (path : string) :
  re_match re_base_before_and_after path = None ->
  re_match re_base_before path = None ->
  re_match re_base_after path = None ->
  re_match re_no_base path = None ->
  extract_species_from_path path = Raise (InvalidSpeciesFormat path).
Proof. intros H1 H2 H3 H4. unfold extract_species_from_path. by rewrite H1, H2, H3, H4. Qed.

(** No pattern matches when the first brace is missing or is a closing
    one. *)
Lemma extract_no_open (p rest : string) :
  avoids ["{"; "}"]%char p = true ->
  (rest = EmptyString \/
   exists e r, rest = String e r /\ excludes ["{"; "}"]%char e = true /\
               Py.ascii_eqb "{" e = false) ->
  extract_species_from_path (p ++ rest)
  = Raise (InvalidSpeciesFormat (p ++ rest)).
Proof.
  intros Hp [->|(e & r & -> & He & Hne)].
  - rewrite append_empty_r. apply extract_all_fail.
    + by apply re_match_group_lit_end.
    + by apply re_match_group_opt_lit_end.
    + by apply (re_match_lit_run_end ["{"; "}"]%char).
    + by apply (re_match_lit_run_end ["{"; "}"]%char).
  - apply extract_all_fail.
    + unfold re_base_before_and_after.
      rewrite re_match_group_lit_at, Hne by done. by destruct (Py.is_empty p).
    + unfold re_base_before.
      rewrite re_match_group_opt_lit_at, Hne by done. by destruct (Py.is_empty p).
    + unfold re_base_after.
      rewrite (re_match_lit_run ["{"; "}"]%char), Hne by done.
      by destruct (Py.is_empty p).
    + unfold re_no_base.
      rewrite (re_match_lit_run ["{"; "}"]%char), Hne by done.
      by destruct (Py.is_empty p).
Qed.

(** No pattern matches when the list after the opening brace cannot be
    read. *)
Lemma extract_no_species (p x : string) :
  avoids ["{"; "}"]%char p = true ->
  (forall rest, re_match (Group "species" ["}"%char] :: Lit "}" :: rest) x = None) ->
  extract_species_from_path (p ++ String "{" x)
  = Raise (InvalidSpeciesFormat (p ++ String "{" x)).
Proof.
  intros Hp Hx. apply extract_all_fail.
  - unfold re_base_before_and_after.
    rewrite re_match_group_lit, Hx by done. by destruct (Py.is_empty p).
  - unfold re_base_before.
    rewrite (re_match_group_opt_lit_at "base" _ "/" "{" "{"), Hx by done.
    by destruct (Py.is_empty p).
  - unfold re_base_after.
    rewrite (re_match_lit_run ["{"; "}"]%char), Hx by done.
    by destruct (Py.is_empty p).
  - unfold re_no_base.
    rewrite (re_match_lit_run ["{"; "}"]%char), Hx by done.
    by destruct (Py.is_empty p).
Qed.

Lemma excludes_single (c e : ascii) : excludes [c] e = true -> e = c.
Proof.
  unfold excludes. cbn [existsb]. rewrite orb_false_r. unfold Py.ascii_eqb.
  by intros ?%Ascii.eqb_eq.
Qed.

(** X12.  [extract_species_from_path] does what one scan from the left
    does: when the first brace of the token is an opening one and a closing
    brace follows it, not at once, the result is the expansion of the list
    between the two with the text before the opening brace in front and the
    text after the closing brace, up to its first [/], behind; in every other
    case the call raises. *)
Theorem extract_species_from_path_scan (path : string) :
  extract_species_from_path path
  = match scan path with
    | Some (p, body, tail) =>
        Return (map (fun s => p ++ Py.strip s ++ upto ["/"%char] tail)%string
                  (Py.split_on "," body))
    | None => Raise (InvalidSpeciesFormat path)
    end.
Proof.
  destruct (upto_after ["{"; "}"]%char path) as (Hpath & Hp & Hafter).
  unfold scan.
  remember (upto ["{"; "}"]%char path) as p eqn:Ep.
  remember (after ["{"; "}"]%char path) as r1 eqn:Er1.
  clear Ep Er1. subst path.
  destruct Hafter as [Hr|(e & r & Hr & He)]; rewrite Hr.
  { apply extract_no_open; [exact Hp|by left]. }
  unfold Py.ascii_eqb. destruct (Ascii.eqb_spec e "{") as [->|Hne].
  2:{ apply extract_no_open; [exact Hp|]. right. exists e, r.
      split; [done|]. split; [done|]. unfold Py.ascii_eqb.
      by destruct (Ascii.eqb_spec "{" e) as [<-|_]. }
  destruct (upto_after ["}"%char] r) as (Hx & Hb & Hafter).
  remember (upto ["}"%char] r) as body eqn:Eb.
  remember (after ["}"%char] r) as r2 eqn:Er2.
  clear Eb Er2. subst r.
  destruct Hafter as [Hr2|(e2 & tail & Hr2 & He2)]; rewrite Hr2.
  { apply extract_no_species; [exact Hp|]. intros rest.
    rewrite append_empty_r. by apply re_match_group_lit_end. }
  apply excludes_single in He2. subst e2.
  destruct (Py.is_empty body) eqn:Ebody.
  { apply extract_no_species; [exact Hp|]. intros rest.
    rewrite re_match_group_lit by done. by rewrite Ebody. }
  by apply extract_species_expands.
Qed.

(** X13.  Whenever [extract_species_from_path] returns, it returns at
    least one name. *)
Theorem extract_species_from_path_nonempty (path : string) (names : list string) :
  extract_species_from_path path = Return names -> names <> [].
Proof.
  assert (Hs : forall m, species_of m <> []).
  { intros m. unfold species_of.
    destruct (group m "species") as [|c r]; [discriminate|]. cbn [Py.split_on].
    destruct (Py.ascii_eqb c ","); [discriminate|].
    by destruct (Py.split_on "," r). }
  unfold extract_species_from_path.
  destruct (re_match re_base_before_and_after path) as [m|];
    [|destruct (re_match re_base_before path) as [m|];
      [|destruct (re_match re_base_after path) as [m|];
        [|destruct (re_match re_no_base path) as [m|]; [|discriminate]]]];
    intros [= <-]; specialize (Hs m);
    destruct (species_of m); [done|discriminate| done|discriminate|
                              done|discriminate| done|discriminate].
Qed.

Lemma extract_species_from_path_nonempty_witness :
  extract_species_from_path "{ed,ts}1" = Return ["ed1"; "ts1"]%string /\
  ["ed1"; "ts1"]%string <> [].
Proof.
  split; [reflexivity|].
  apply (extract_species_from_path_nonempty "{ed,ts}1"). reflexivity.
Defined.

(** *** More on the reaction-file filter *)

Lemma contribution_cases (valid_species : gset string) (line : string) (d : filtered) :
  contribution valid_species line = Return d ->
  (is_reaction_line line = false /\ d = ([line], [], [])) \/
  (is_reaction_line line = true /\
   exists sp st,
     line_species line = Return sp /\ line_stochiometry line = Return st /\
     d = if all_valid valid_species sp then ([line], [sp], [st]) else nothing).
Proof.
  intros H. destruct (is_reaction_line line) eqn:E.
  - right. split; [reflexivity|]. by apply contribution_reaction.
  - left. rewrite contribution_passes in H by exact E. by inversion H.
Qed.

(** X14.  The lines that are not reactions (blank lines, comments and
    other directives) all pass through: those of the kept lines are those of
    the input, in the same order. *)
Theorem filter_res_file_keeps_directives
    (res_lines : list string) (valid_species : gset string)
    (kept : list string) (sps : list (list string)) (sts : list (list Z)) :
  filter_res_file res_lines valid_species = Return (kept, sps, sts) ->
  filter (fun line => is_reaction_line line = false) kept
  = filter (fun line => is_reaction_line line = false) res_lines.
Proof.
  revert kept sps sts.
  induction res_lines as [|line rest IH]; intros kept sps sts H.
  { by inversion H. }
  rewrite filter_res_file_cons in H.
  apply bind_Return in H as (d & Hd & H).
  apply bind_Return in H as ([[k s] t] & Hr & H).
  specialize (IH k s t Hr).
  apply contribution_cases in Hd as [[Hline ->]|(Hline & sp & st & _ & _ & ->)].
  - inversion H; subst. simpl. by rewrite !filter_cons_True, IH by exact Hline.
  - rewrite (filter_cons_False _ line rest) by congruence.
    destruct (all_valid valid_species sp); inversion H; subst; simpl.
    + by rewrite filter_cons_False by congruence.
    + exact IH.
Qed.

Lemma filter_res_file_keeps_directives_witness :
  let res_lines :=
    ["#!/bin/bash"; "w=1"; "tmer A/$f Z/$f x -2 1"; EmptyString;
     "$tmer {A,B}/$f x 1 -1 $w 1.5"]%string in
  let kept :=
    ["#!/bin/bash"; "w=1"; EmptyString; "$tmer {A,B}/$f x 1 -1 $w 1.5"]%string in
  filter_res_file res_lines {["A"; "B"]}%string
  = Return (kept, [["A"; "B"]%string], [[1; -1]]) /\
  filter (fun line => is_reaction_line line = false) kept
  = filter (fun line => is_reaction_line line = false) res_lines.
Proof.
  intros res_lines kept. split; [reflexivity|].
  apply (filter_res_file_keeps_directives res_lines {["A"; "B"]}%string kept
           [["A"; "B"]%string] [[1; -1]]).
  reflexivity.
Defined.

Lemma app3_sublist (a a' b b' : filtered) :
  sublist a.1.1 a'.1.1 -> sublist a.1.2 a'.1.2 -> sublist a.2 a'.2 ->
  sublist b.1.1 b'.1.1 -> sublist b.1.2 b'.1.2 -> sublist b.2 b'.2 ->
  sublist (app3 a b).1.1 (app3 a' b').1.1 /\
  sublist (app3 a b).1.2 (app3 a' b').1.2 /\
  sublist (app3 a b).2 (app3 a' b').2.
Proof. intros. unfold app3. simpl. repeat split; by apply sublist_app. Qed.

(** X15.  Whether [filter_res_file] raises does not depend on the set of
    valid species; and a larger set keeps more: what is kept for a set is,
    in each of the three lists, a subsequence of what is kept for any set
    that includes it. *)
Theorem filter_res_file_monotone
    (res_lines : list string) (valid valid' : gset string) :
  ((exists out, filter_res_file res_lines valid = Return out)
   <-> (exists out', filter_res_file res_lines valid' = Return out')) /\
  (valid ⊆ valid' ->
   forall out out',
     filter_res_file res_lines valid = Return out ->
     filter_res_file res_lines valid' = Return out' ->
     sublist out.1.1 out'.1.1 /\ sublist out.1.2 out'.1.2 /\
     sublist out.2 out'.2).
Proof.
  assert (Hret : forall v v' lines out,
            filter_res_file lines v = Return out ->
            exists out', filter_res_file lines v' = Return out').
  { intros v v' lines. induction lines as [|line rest IH]; intros out H; [by eexists|].
    rewrite filter_res_file_cons in *.
    apply bind_Return in H as (d & Hd & H).
    apply bind_Return in H as (r & Hr & H).
    destruct (IH r Hr) as [r' ->].
    apply contribution_cases in Hd as [[Hline ->]|(Hline & sp & st & Hsp & Hst & ->)].
    - rewrite contribution_passes by exact Hline. by eexists.
    - unfold contribution. rewrite Hline, Hst, Hsp. by eexists. }
  split; [split; intros [out H]; by eapply Hret|].
  intros Hsub. induction res_lines as [|line rest IH]; intros out out' H H'.
  { inversion H; inversion H'; subst. by repeat split. }
  rewrite filter_res_file_cons in H, H'.
  apply bind_Return in H as (d & Hd & H).
  apply bind_Return in H as (r & Hr & H).
  apply bind_Return in H' as (d' & Hd' & H').
  apply bind_Return in H' as (r' & Hr' & H').
  inversion H; inversion H'; subst.
  destruct (IH r r' Hr Hr') as (I1 & I2 & I3).
  apply contribution_cases in Hd as [[Hline ->]|(Hline & sp & st & Hsp & Hst & ->)].
  - rewrite contribution_passes in Hd' by exact Hline. inversion Hd'; subst.
    by apply app3_sublist.
  - unfold contribution in Hd'. rewrite Hline, Hst, Hsp in Hd'.
    inversion Hd'; subst.
    destruct (all_valid valid sp) eqn:Hv.
    + assert (Hv' : all_valid valid' sp = true).
      { apply all_valid_spec. intros name Hin.
        apply Hsub. by apply (proj1 (all_valid_spec valid sp) Hv). }
      rewrite Hv'. by apply app3_sublist.
    + apply app3_sublist; try done;
        destruct (all_valid valid' sp); simpl; try done; apply sublist_nil_l.
Qed.

(** X16.  If every name of every reaction line of the input is valid, the
    lines are returned as they are, and there is one species list and one
    stoichiometry list for each reaction line. *)
Theorem filter_res_file_all_valid
    (res_lines : list string) (valid_species : gset string)
    (kept : list string) (sps : list (list string)) (sts : list (list Z)) :
  (forall line sp name,
     line ∈ res_lines -> is_reaction_line line = true ->
     line_species line = Return sp -> name ∈ sp -> name ∈ valid_species) ->
  filter_res_file res_lines valid_species = Return (kept, sps, sts) ->
  kept = res_lines /\
  length sps = length (filter (fun line => is_reaction_line line = true) res_lines) /\
  length sts = length sps.
Proof.
  revert kept sps sts.
  induction res_lines as [|line rest IH]; intros kept sps sts Hvalid H.
  { by inversion H. }
  rewrite filter_res_file_cons in H.
  apply bind_Return in H as (d & Hd & H).
  apply bind_Return in H as ([[k s] t] & Hr & H).
  destruct (IH k s t) as (-> & Hs & Ht); [|exact Hr|].
  { intros l sp name Hl. apply Hvalid. by right. }
  apply contribution_cases in Hd as [[Hline ->]|(Hline & sp & st & Hsp & Hst & ->)].
  - inversion H; subst. simpl.
    by rewrite filter_cons_False by congruence.
  - assert (Hv : all_valid valid_species sp = true).
    { apply all_valid_spec. intros name Hin.
      apply (Hvalid line sp name); [by left|done..]. }
    rewrite Hv in H. inversion H; subst. simpl.
    rewrite filter_cons_True by exact Hline. simpl.
    split; [done|]. split; congruence.
Qed.

Lemma filter_res_file_all_valid_witness :
  let res_lines :=
    ["w=1"; "tmer A/$f B/$f x -2 1"; "$tmer {A,B}/$f x 1 -1 $w 1.5"]%string in
  let valid : gset string := {["A"; "B"; "C"]}%string in
  let sps := [["A"; "B"]; ["A"; "B"]]%string in
  let sts := [[-2; 1]; [1; -1]] in
  filter_res_file res_lines valid = Return (res_lines, sps, sts) /\
  res_lines = res_lines /\
  length sps = length (filter (fun line => is_reaction_line line = true) res_lines) /\
  length sts = length sps.
Proof.
  intros res_lines valid sps sts. split; [reflexivity|].
  apply (filter_res_file_all_valid res_lines valid res_lines sps sts);
    [|reflexivity].
  assert (HAB : forall n, n ∈ ["A"; "B"]%string -> n ∈ valid).
  { intros n Hn. subst valid.
    apply elem_of_cons in Hn as [->|Hn]; [set_solver|].
    apply elem_of_cons in Hn as [->|Hn]; [set_solver|].
    by apply elem_of_nil in Hn. }
  intros line sp name Hline Hr Hsp Hname.
  apply elem_of_cons in Hline as [->|Hline]; [discriminate Hr|].
  apply elem_of_cons in Hline as [->|Hline].
  { vm_compute in Hsp. inversion Hsp; subst sp. by apply HAB. }
  apply elem_of_cons in Hline as [->|Hline].
  { vm_compute in Hsp. inversion Hsp; subst sp. by apply HAB. }
  by apply elem_of_nil in Hline.
Defined.

(** *** More on the scoring-output parser *)

Lemma rows_from_length (index : Z) (lines : list string) :
  Z.of_nat (length (rows_from index lines)) <= nonblank_count lines.
Proof.
  revert index. induction lines as [|l rest IH]; intros index; [done|].
  rewrite nonblank_count_cons. cbn [rows_from].
  destruct (is_blank l); [specialize (IH index); lia|].
  destruct (parse_line false _ _ (index + 1)) as [[x|]|e];
    cbn [length]; specialize (IH (index + 1)); lia.
Qed.

(** X17.  The indices of the returned rows lie between 0 and the number
    of non-blank lines of the text, exclusive, and there are at most that
    many rows. *)
Theorem parse_res_file_index_bounds
    (res_file_content : string) (strictmode : bool) (verbosity : Z)
    (data : list row) :
  parse_res_file res_file_content strictmode verbosity = Return data ->
  (forall x, x ∈ data ->
     0 <= row_index x < nonblank_count (Py.splitlines res_file_content)) /\
  Z.of_nat (length data) <= nonblank_count (Py.splitlines res_file_content).
Proof.
  unfold parse_res_file. intros H.
  apply parse_loop_returns in H. cbn [app] in H. subst data.
  split; [|apply rows_from_length].
  intros x Hx. pose proof (rows_from_above _ _ _ Hx).
  pose proof (rows_from_below _ _ _ Hx). lia.
Qed.

(** X18.  In every returned row the reference and the computed value are
    those read from the tokens 7 and 5 of a line with at least 8 tokens, and
    they do not differ by more than 750. *)
Theorem parse_res_file_rows_within
    (res_file_content : string) (strictmode : bool) (verbosity : Z)
    (data : list row) (index : Z) (ref comp : float) :
  parse_res_file res_file_content strictmode verbosity = Return data ->
  (index, ref, comp) ∈ data ->
  too_far comp ref = false /\
  exists line,
    line ∈ Py.splitlines res_file_content /\
    8 <= len (Py.split (Py.strip line)) /\
    Py.float (Py.strip (item (Py.split (Py.strip line)) 7)) = Return ref /\
    Py.float (Py.strip (item (Py.split (Py.strip line)) 5)) = Return comp.
Proof.
  unfold parse_res_file. intros H Hin.
  apply parse_loop_returns in H. cbn [app] in H. subst data.
  apply rows_from_source in Hin as (pre & line & post & Hsplit & _ & _ & Hrow).
  apply parse_line_row in Hrow as (r & c & [= <- <-] & Hr & Hc & Hfar & H8).
  split; [exact Hfar|]. exists line. rewrite Hsplit.
  split; [|done]. apply elem_of_app. right. by left.
Qed.

Lemma parse_res_file_index_bounds_witness :
  let nl := String "010" EmptyString in
  let text :=
    ("-1.5 -1.4 0.0 0.0 0.0 0.5 -0.25 0.75 B_T/B_G" ++ nl ++ nl ++
     "too short" ++ nl ++
     "-1.5 -1.4 0.0 0.0 0.0 2.5 -0.25 2.75 P_TT/P_TG" ++ nl)%string in
  let data : list row := [(0, 0.75%float, 0.5%float); (2, 2.75%float, 2.5%float)] in
  parse_res_file text true 0 = Raise (NotEnoughTokens "too short") /\
  parse_res_file text false 0 = Return data /\
  nonblank_count (Py.splitlines text) = 3 /\
  (forall x, x ∈ data -> 0 <= row_index x < nonblank_count (Py.splitlines text)) /\
  Z.of_nat (length data) <= nonblank_count (Py.splitlines text).
Proof.
  intros nl text data. split; [reflexivity|]. split; [reflexivity|].
  split; [reflexivity|].
  apply (parse_res_file_index_bounds text false 0 data). reflexivity.
Defined.

Lemma parse_res_file_rows_within_witness :
  let nl := String "010" EmptyString in
  let text :=
    ("-1.5 -1.4 0.0 0.0 0.0 0.5 -0.25 0.75 B_T/B_G" ++ nl ++
     "-1.5 -1.4 0.0 0.0 0.0 900.5 -0.25 0.75 B_T/B_X" ++ nl)%string in
  parse_res_file text false 0 = Return [(0, 0.75%float, 0.5%float)] /\
  too_far 0.5 0.75 = false /\
  exists line,
    line ∈ Py.splitlines text /\
    8 <= len (Py.split (Py.strip line)) /\
    Py.float (Py.strip (item (Py.split (Py.strip line)) 7)) = Return 0.75%float /\
    Py.float (Py.strip (item (Py.split (Py.strip line)) 5)) = Return 0.5%float.
Proof.
  intros nl text. split; [reflexivity|].
  apply (parse_res_file_rows_within text false 0 [(0, 0.75%float, 0.5%float)] 0
           0.75%float 0.5%float); [reflexivity|by left].
Defined.

Lemma parse_line_some_any (strictmode : bool) (line : string) (tokens : list string)
    (index : Z) (x : row) :
  parse_line false line tokens index = Return (Some x) ->
  parse_line strictmode line tokens index = Return (Some x).
Proof.
  intros H. apply parse_line_row in H as (ref & comp & -> & Hr & Hc & Hfar & H8).
  unfold parse_line, try_body.
  rewrite (proj2 (Z.leb_le 8 (len tokens)) H8), Hr, Hc. cbn [bind].
  by rewrite Hfar.
Qed.

(** A line for which the lenient parse has no row makes the strict parse
    of the line raise. *)
Lemma parse_line_none_strict (line : string) (tokens : list string) (index : Z) :
  parse_line false line tokens index = Return None ->
  raises (parse_line true line tokens index).
Proof.
  unfold parse_line. destruct (8 <=? len tokens); [|by eexists].
  unfold try_body.
  destruct (Py.float (Py.strip (item tokens 7))) as [ref|e]; cbn [bind]; [|by eexists].
  destruct (Py.float (Py.strip (item tokens 5))) as [comp|e]; cbn [bind]; [|by eexists].
  destruct (too_far comp ref); [by eexists|discriminate].
Qed.

Lemma parse_loop_strict_complete (lines : list string) (data : list row) (index : Z) :
  Z.of_nat (length (rows_from index lines)) = nonblank_count lines ->
  parse_loop true lines data index = Return (data ++ rows_from index lines).
Proof.
  revert data index. induction lines as [|l rest IH]; intros data index Hlen.
  { simpl. by rewrite app_nil_r. }
  rewrite nonblank_count_cons in Hlen. cbn [parse_loop rows_from] in *.
  unfold is_blank in *. destruct (Py.is_empty (Py.strip l)); [by apply IH|].
  pose proof (rows_from_length (index + 1) rest) as Hle.
  destruct (parse_line false (Py.strip l) (Py.split (Py.strip l)) (index + 1))
    as [[x|]|e] eqn:Hl; [|lia..].
  rewrite (parse_line_some_any true _ _ _ _ Hl). cbn [bind].
  cbn [length] in Hlen. rewrite IH by lia. by rewrite <- app_assoc.
Qed.

Lemma parse_loop_strict_full (lines : list string) (data out : list row) (index : Z) :
  parse_loop true lines data index = Return out ->
  Z.of_nat (length (rows_from index lines)) = nonblank_count lines.
Proof.
  revert data out index. induction lines as [|l rest IH]; intros data out index H.
  { reflexivity. }
  rewrite nonblank_count_cons. cbn [parse_loop rows_from] in *. unfold is_blank in *.
  destruct (Py.is_empty (Py.strip l)).
  { rewrite (IH _ _ _ H). lia. }
  apply bind_Return in H as (r & Hr & H).
  pose proof (parse_line_strict_lenient _ _ _ _ Hr) as Hlen.
  rewrite Hlen. destruct r as [x|].
  - cbn [length]. rewrite Nat2Z.inj_succ, (IH _ _ _ H). lia.
  - apply parse_line_none_strict in Hlen as [e He]. congruence.
Qed.

(** X19.  The strict parse returns exactly when the lenient parse has a
    row for every non-blank line of the text, and then the two return the
    same rows. *)
Theorem parse_res_file_strict_iff (res_file_content : string) (verbosity : Z) :
  ((exists data, parse_res_file res_file_content true verbosity = Return data)
   <-> (exists data,
          parse_res_file res_file_content false verbosity = Return data /\
          Z.of_nat (length data) = nonblank_count (Py.splitlines res_file_content))) /\
  (forall data,
     parse_res_file res_file_content true verbosity = Return data ->
     parse_res_file res_file_content false verbosity = Return data).
Proof.
  assert (Hagree : forall data,
            parse_res_file res_file_content true verbosity = Return data ->
            parse_res_file res_file_content false verbosity = Return data).
  { intros data H. unfold parse_res_file in *.
    apply parse_loop_returns in H. subst data. apply parse_loop_lenient. }
  split; [|exact Hagree]. split.
  - intros [data H]. exists data. split; [by apply Hagree|].
    unfold parse_res_file in H.
    pose proof (parse_loop_strict_full _ _ _ _ H) as Hfull.
    apply parse_loop_returns in H. by subst data.
  - intros (data & H & Hlen). unfold parse_res_file in *.
    rewrite parse_loop_lenient in H. inversion H; subst data. cbn [app] in *.
    exists (rows_from (-1) (Py.splitlines res_file_content)).
    by rewrite parse_loop_strict_complete.
Qed.

(** X20.  A non-blank line with fewer than 8 tokens, or whose token 7 or
    token 5 is not read as a float, makes the strict parse raise; the lenient
    parse returns the rows of the lines before it and of the lines after it,
    the latter numbered as if the line had produced a row. *)
Theorem parse_res_file_unreadable_line
    (res_file_content : string) (verbosity : Z)
    (pre post : list string) (line : string) :
  let tokens := Py.split (Py.strip line) in
  Py.splitlines res_file_content = pre ++ line :: post ->
  is_blank line = false ->
  len tokens < 8 \/
  raises (Py.float (Py.strip (item tokens 7))) \/
  raises (Py.float (Py.strip (item tokens 5))) ->
  raises (parse_res_file res_file_content true verbosity) /\
  parse_res_file res_file_content false verbosity
  = Return (rows_from (-1) pre ++ rows_from (nonblank_count pre) post).
Proof.
  intros tokens Hsplit Hnb Hbad.
  assert (Hnone : forall i, parse_line false (Py.strip line) tokens i = Return None).
  { intros i. unfold parse_line, try_body.
    destruct (8 <=? len tokens) eqn:E8; [|reflexivity].
    apply Z.leb_le in E8.
    destruct Hbad as [?|[[e He]|[e He]]]; [lia|by rewrite He|].
    destruct (Py.float (Py.strip (item tokens 7))); [|reflexivity].
    cbn [bind]. by rewrite He. }
  unfold parse_res_file. rewrite Hsplit. split.
  - apply parse_loop_strict_raises; [exact Hnb|].
    apply parse_line_none_strict, Hnone.
  - rewrite parse_loop_lenient, rows_from_around by exact Hnb.
    fold tokens. rewrite Hnone. cbn [app]. do 3 f_equal. lia.
Qed.

Lemma parse_res_file_unreadable_line_witness :
  let nl := String "010" EmptyString in
  let first := "-1.5 -1.4 0.0 0.0 0.0 0.5 -0.25 0.75 B_T/B_G"%string in
  let line := "-1.5 -1.4 0.0 0.0 0.0 n/a -0.25 0.75 B_T/B_X"%string in
  let last := "-1.5 -1.4 0.0 0.0 0.0 2.5 -0.25 2.75 P_TT/P_TG"%string in
  let text := (first ++ nl ++ line ++ nl ++ last ++ nl)%string in
  Py.splitlines text = [first] ++ line :: [last] /\
  is_blank line = false /\
  raises (Py.float (Py.strip (item (Py.split (Py.strip line)) 5))) /\
  raises (parse_res_file text true 0) /\
  parse_res_file text false 0
  = Return [(0, 0.75%float, 0.5%float); (2, 2.75%float, 2.5%float)].
Proof.
  intros nl first line last text.
  assert (Hbad : raises (Py.float (Py.strip (item (Py.split (Py.strip line)) 5))))
    by (eexists; reflexivity).
  destruct (parse_res_file_unreadable_line text 0 [first] [last] line
              eq_refl eq_refl (or_intror (or_intror Hbad))) as (Hs & Hl).
  split; [reflexivity|]. split; [reflexivity|]. split; [exact Hbad|].
  split; [exact Hs|]. rewrite Hl. reflexivity.
Defined.

(** *** The required elements of the command line *)

Import Eval.

Lemma fold_left_singletons (l : list Z) (acc : list (list Z)) :
  fold_left (fun acc elem => acc ++ [[elem]]) l acc = acc ++ map (fun e => [e]) l.
Proof.
  revert acc. induction l as [|e l IH]; intros acc; simpl.
  - by rewrite app_nil_r.
  - by rewrite IH, <- app_assoc.
Qed.

(** X21.  With only [--required-elements-all] given, the required
    elements are one group holding every parsed index, and a molecule has
    the required elements exactly when it holds all of them. *)
Theorem parse_required_elements_all (s : string) (one : option string) (l : list Z) :
  s <> EmptyString ->
  given one = false ->
  parse_element_list s = Return l ->
  parse_required_elements (mkNamespace (Some s) one) = Done [l] /\
  forall mol verbosity,
    molecule_has_required_elements mol [l] verbosity = true
    <-> forall a, a ∈ l -> a ∈ Mol.ati mol.
Proof.
  intros Hs Hone Hl. split.
  - unfold parse_required_elements. cbn [required_elements_all required_elements_one].
    rewrite Hone, andb_false_r. unfold given at 1.
    change (text (Some s)) with s.
    destruct (Py.is_empty s) eqn:E; [by apply is_empty_spec in E|].
    cbn [negb]. by rewrite Hl.
  - intros mol verbosity. unfold molecule_has_required_elements.
    rewrite any_map_spec. split.
    + intros (g & Hg & Hall) a Ha. apply list_elem_of_singleton in Hg. subst g.
      apply in_array_spec. by apply (proj1 (all_map_spec _ _) Hall).
    + intros Hall. exists l. split; [by left|].
      apply all_map_spec. intros a Ha. by apply in_array_spec, Hall.
Qed.

Lemma parse_required_elements_all_witness :
  given None = false /\
  parse_element_list "6, 8" = Return [5; 7] /\
  parse_required_elements (mkNamespace (Some "6, 8"%string) None) = Done [[5; 7]] /\
  forall mol verbosity,
    molecule_has_required_elements mol [[5; 7]] verbosity = true
    <-> forall a, a ∈ [5; 7] -> a ∈ Mol.ati mol.
Proof.
  split; [reflexivity|]. split; [vm_compute; reflexivity|].
  apply (parse_required_elements_all "6, 8" None [5; 7]);
    [discriminate | reflexivity | vm_compute; reflexivity].
Defined.

(** X22.  With only [--required-elements-one] given, there is one group
    per parsed index, and a molecule has the required elements exactly when
    it holds at least one of them. *)
Theorem parse_required_elements_one (s : string) (all_ : option string) (l : list Z) :
  s <> EmptyString ->
  given all_ = false ->
  parse_element_list s = Return l ->
  parse_required_elements (mkNamespace all_ (Some s)) = Done (map (fun e => [e]) l) /\
  forall mol verbosity,
    molecule_has_required_elements mol (map (fun e => [e]) l) verbosity = true
    <-> exists a, a ∈ l /\ a ∈ Mol.ati mol.
Proof.
  intros Hs Hall Hl. split.
  - unfold parse_required_elements. cbn [required_elements_all required_elements_one].
    rewrite Hall. cbn [andb]. unfold given.
    change (text (Some s)) with s.
    destruct (Py.is_empty s) eqn:E; [by apply is_empty_spec in E|].
    cbn [negb]. by rewrite Hl, fold_left_singletons.
  - intros mol verbosity. unfold molecule_has_required_elements.
    rewrite any_map_spec. split.
    + intros (g & Hg & Hin).
      apply list_elem_of_In, in_map_iff in Hg as (a & <- & Ha).
      exists a. split; [by apply list_elem_of_In|].
      apply in_array_spec. apply (proj1 (all_map_spec _ _) Hin). by left.
    + intros (a & Ha & Hin). exists [a]. split.
      * apply list_elem_of_In, in_map_iff. exists a.
        split; [done|by apply list_elem_of_In].
      * apply all_map_spec. intros b Hb. apply list_elem_of_singleton in Hb.
        subst b. by apply in_array_spec.
Qed.

Lemma parse_required_elements_one_witness :
  given None = false /\
  parse_element_list "6, 8" = Return [5; 7] /\
  parse_required_elements (mkNamespace None (Some "6, 8"%string)) = Done [[5]; [7]] /\
  forall mol verbosity,
    molecule_has_required_elements mol [[5]; [7]] verbosity = true
    <-> exists a, a ∈ [5; 7] /\ a ∈ Mol.ati mol.
Proof.
  split; [reflexivity|]. split; [vm_compute; reflexivity|].
  apply (parse_required_elements_one "6, 8" None [5; 7]);
    [discriminate | reflexivity | vm_compute; reflexivity].
Defined.

(** *** The join of reactions and rows *)

Lemma getitem_nonneg {A} (l : list A) (i : Z) :
  0 <= i -> getitem l i = l !! Z.to_nat i.
Proof. intros Hi. unfold getitem. by rewrite (proj2 (Z.leb_le 0 i) Hi). Qed.

Lemma getitem_is_Some {A} (l : list A) (i : Z) :
  0 <= i -> (is_Some (getitem l i) <-> i < len l).
Proof.
  intros Hi. rewrite (getitem_nonneg l i Hi), lookup_lt_is_Some.
  unfold len. lia.
Qed.

Lemma join_rows_acc (reactions : list (list string)) (stochiometries : list (list Z))
    (res_data : list row) (acc rows : list joined) :
  (forall x, x ∈ res_data -> 0 <= row_index x) ->
  join_rows reactions stochiometries res_data acc = Done rows ->
  exists new,
    rows = acc ++ new /\
    Forall2 (fun (x : row) (r : joined) =>
               reactions !! Z.to_nat (row_index x) = Some r.1.1.1 /\
               stochiometries !! Z.to_nat (row_index x) = Some r.1.1.2 /\
               r.1.2 = x.1.2 /\ r.2 = x.2)
            res_data new.
Proof.
  revert acc rows. induction res_data as [|[[i ref] comp] rest IH]; intros acc rows Hpos H.
  { inversion H. exists []. by rewrite app_nil_r. }
  cbn [join_rows] in H.
  assert (Hi : 0 <= i) by (apply (Hpos (i, ref, comp)); by left).
  rewrite !getitem_nonneg in H by exact Hi.
  destruct (reactions !! Z.to_nat i) as [r|] eqn:Hr; [|discriminate].
  destruct (stochiometries !! Z.to_nat i) as [s|] eqn:Hs; [|discriminate].
  apply IH in H as (new & -> & Hall); [|intros x Hx; apply Hpos; by right].
  exists ((r, s, ref, comp) :: new). split; [by rewrite <- app_assoc|].
  by constructor.
Qed.

Lemma join_rows_returns (reactions : list (list string)) (stochiometries : list (list Z))
    (res_data : list row) (acc : list joined) :
  length stochiometries = length reactions ->
  (forall x, x ∈ res_data -> 0 <= row_index x < len reactions) ->
  exists rows, join_rows reactions stochiometries res_data acc = Done rows.
Proof.
  intros Hlen. revert acc.
  induction res_data as [|[[i ref] comp] rest IH]; intros acc Hin; [by eexists|].
  cbn [join_rows].
  assert (Hi : 0 <= i < len reactions) by (apply (Hin (i, ref, comp)); by left).
  destruct (proj2 (getitem_is_Some reactions i (proj1 Hi)) (proj2 Hi)) as [r ->].
  destruct (proj2 (getitem_is_Some stochiometries i (proj1 Hi))) as [s ->].
  { unfold len in *. lia. }
  apply IH. intros x Hx. apply Hin. by right.
Qed.

Lemma join_rows_fails (reactions : list (list string)) (stochiometries : list (list Z))
    (res_data : list row) (acc : list joined) (e : Exception) :
  length stochiometries = length reactions ->
  (forall x, x ∈ res_data -> 0 <= row_index x) ->
  join_rows reactions stochiometries res_data acc = Fail e ->
  exists x, x ∈ res_data /\ e = IndexError (row_index x) /\
            len reactions <= row_index x.
Proof.
  intros Hlen. revert acc.
  induction res_data as [|[[i ref] comp] rest IH]; intros acc Hpos H; [discriminate|].
  cbn [join_rows] in H.
  assert (Hi : 0 <= i) by (apply (Hpos (i, ref, comp)); by left).
  rewrite !getitem_nonneg in H by exact Hi.
  destruct (reactions !! Z.to_nat i) as [r|] eqn:Hr.
  - destruct (stochiometries !! Z.to_nat i) as [s|] eqn:Hs.
    + apply IH in H as (x & Hx & He & Hle); [|intros x Hx; apply Hpos; by right].
      exists x. split; [by right|done].
    + injection H as <-. exists (i, ref, comp). split; [by left|]. split; [done|].
      apply lookup_ge_None in Hs. unfold row_index, len. cbn. lia.
  - assert (e = IndexError i) as ->.
    { destruct (stochiometries !! Z.to_nat i); by injection H as <-. }
    exists (i, ref, comp). split; [by left|]. split; [done|].
    apply lookup_ge_None in Hr. unfold row_index, len. cbn. lia.
Qed.

(** X23.  For rows with indices that are not negative, as the parser
    numbers them, and equally many species and stoichiometry lists, the join
    returns exactly when every index is below the number of reactions, and
    otherwise fails with an index error; when it returns, there is one joined
    row per row, in order, holding the species and the stoichiometry at the
    index of the row, with its reference and its computed value. *)
Theorem join_rows_spec
    (reactions : list (list string)) (stochiometries : list (list Z))
    (res_data : list row) :
  length stochiometries = length reactions ->
  (forall x, x ∈ res_data -> 0 <= row_index x) ->
  ((exists rows, join_rows reactions stochiometries res_data [] = Done rows)
   <-> forall x, x ∈ res_data -> row_index x < len reactions) /\
  (forall e,
     join_rows reactions stochiometries res_data [] = Fail e ->
     exists x, x ∈ res_data /\ e = IndexError (row_index x) /\
               len reactions <= row_index x) /\
  (forall rows,
     join_rows reactions stochiometries res_data [] = Done rows ->
     Forall2 (fun (x : row) (r : joined) =>
                reactions !! Z.to_nat (row_index x) = Some r.1.1.1 /\
                stochiometries !! Z.to_nat (row_index x) = Some r.1.1.2 /\
                r.1.2 = x.1.2 /\ r.2 = x.2)
             res_data rows).
Proof.
  intros Hlen Hpos. split; [split|split].
  - intros [rows H] x Hx.
    apply join_rows_acc in H as (new & -> & Hall); [|exact Hpos].
    apply list_elem_of_lookup in Hx as [k Hk].
    destruct (Forall2_lookup_l _ _ _ _ _ Hall Hk) as (r & _ & Hr & _).
    apply lookup_lt_Some in Hr. pose proof (Hpos x (list_elem_of_lookup_2 _ _ _ Hk)).
    unfold len. lia.
  - intros Hin. apply join_rows_returns; [exact Hlen|].
    intros x Hx. split; [by apply Hpos|by apply Hin].
  - intros e H. by apply join_rows_fails in H.
  - intros rows H. apply join_rows_acc in H as (new & -> & Hall); [|exact Hpos].
    exact Hall.
Qed.

Lemma join_rows_spec_witness :
  let reactions := [["A"; "B"]; ["C"]]%string in
  let stochiometries := [[-1; 1]; [2]] in
  let res_data : list row := [(1, 2.75%float, 2.5%float)] in
  join_rows reactions stochiometries res_data []
  = Done [(["C"]%string, [2], 2.75%float, 2.5%float)] /\
  ((exists rows, join_rows reactions stochiometries res_data [] = Done rows)
   <-> forall x, x ∈ res_data -> row_index x < len reactions) /\
  (forall e,
     join_rows reactions stochiometries res_data [] = Fail e ->
     exists x, x ∈ res_data /\ e = IndexError (row_index x) /\
               len reactions <= row_index x) /\
  (forall rows,
     join_rows reactions stochiometries res_data [] = Done rows ->
     Forall2 (fun (x : row) (r : joined) =>
                reactions !! Z.to_nat (row_index x) = Some r.1.1.1 /\
                stochiometries !! Z.to_nat (row_index x) = Some r.1.1.2 /\
                r.1.2 = x.1.2 /\ r.2 = x.2)
             res_data rows).
Proof.
  intros reactions stochiometries res_data. split; [reflexivity|].
  apply (join_rows_spec reactions stochiometries res_data); [reflexivity|].
  intros x Hx. apply list_elem_of_singleton in Hx. subst x. by vm_compute.
Defined.

Lemma filter_res_file_lengths (res_lines : list string) (valid_species : gset string)
    (out : filtered) :
  filter_res_file res_lines valid_species = Return out ->
  length out.2 = length out.1.2.
Proof.
  revert out. induction res_lines as [|line rest IH]; intros out H.
  { by inversion H. }
  rewrite filter_res_file_cons in H.
  apply bind_Return in H as (d & Hd & H).
  apply bind_Return in H as (r & Hr & H). inversion H; subst.
  specialize (IH r Hr). unfold app3. simpl. rewrite !length_app, IH. f_equal.
  apply contribution_cases in Hd as [[_ ->]|(_ & sp & st & _ & _ & ->)]; [done|].
  by destruct (all_valid valid_species sp).
Qed.

Lemma StronglySorted_lt_NoDup (l : list Z) : StronglySorted Z.lt l -> NoDup l.
Proof.
  induction 1 as [|x l Hl IH Hx]; [constructor|].
  constructor; [|exact IH]. intros Hin.
  pose proof (proj1 (Forall_forall _ _) Hx x Hin). lia.
Qed.

(** X24.  When the scoring output has no more non-blank lines than there
    are kept reactions, joining the parsed rows with the species and
    stoichiometry lists of [filter_res_file] never fails, gives one joined
    row per parsed row, and the indices reported as missing are as many as
    there are reactions without a row. *)
Theorem filter_parse_join
    (res_lines : list string) (valid_species : gset string)
    (kept : list string) (reactions : list (list string)) (stochiometries : list (list Z))
    (res_file_content : string) (strictmode : bool) (verbosity : Z)
    (res_data : list row) :
  filter_res_file res_lines valid_species = Return (kept, reactions, stochiometries) ->
  parse_res_file res_file_content strictmode verbosity = Return res_data ->
  nonblank_count (Py.splitlines res_file_content) <= len reactions ->
  exists rows,
    join_rows reactions stochiometries res_data [] = Done rows /\
    length rows = length res_data /\
    size (missing_indices reactions res_data)
    = (length reactions - length res_data)%nat.
Proof.
  intros Hf Hp Hcount.
  apply filter_res_file_lengths in Hf. simpl in Hf.
  unfold parse_res_file in Hp. apply parse_loop_returns in Hp. cbn [app] in Hp.
  assert (Hrange : forall x, x ∈ res_data -> 0 <= row_index x < len reactions).
  { intros x Hx. subst res_data.
    pose proof (rows_from_above _ _ _ Hx). pose proof (rows_from_below _ _ _ Hx). lia. }
  destruct (join_rows_returns reactions stochiometries res_data [] Hf Hrange)
    as [rows Hrows].
  exists rows. split; [exact Hrows|].
  apply join_rows_acc in Hrows as (new & -> & Hall);
    [|intros x Hx; by apply Hrange].
  split; [symmetry; by apply Forall2_length in Hall|].
  unfold missing_indices. rewrite size_difference.
  - rewrite !size_list_to_set.
    + rewrite length_seqZ, length_map. unfold len. lia.
    + apply StronglySorted_lt_NoDup. subst res_data. apply rows_from_sorted.
    + apply NoDup_seqZ.
  - intros i Hi. apply elem_of_list_to_set in Hi.
    apply list_elem_of_In, in_map_iff in Hi as (x & <- & Hx).
    apply list_elem_of_In in Hx. apply elem_of_list_to_set, elem_of_seqZ.
    specialize (Hrange x Hx). unfold row_index in Hrange. lia.
Qed.

Lemma filter_parse_join_witness :
  let res_lines :=
    ["w=1"; "tmer A/$f B/$f x -2 1"; "$tmer {A,B}/$f x 1 -1 $w 1.5"]%string in
  let valid : gset string := {["A"; "B"]}%string in
  let nl := String "010" EmptyString in
  let text :=
    ("too short" ++ nl ++ "-1.5 -1.4 0.0 0.0 0.0 2.5 -0.25 2.75 x" ++ nl)%string in
  let reactions := [["A"; "B"]; ["A"; "B"]]%string in
  let stochiometries := [[-2; 1]; [1; -1]] in
  let res_data : list row := [(1, 2.75%float, 2.5%float)] in
  filter_res_file res_lines valid = Return (res_lines, reactions, stochiometries) /\
  parse_res_file text false 0 = Return res_data /\
  nonblank_count (Py.splitlines text) <= len reactions /\
  exists rows,
    join_rows reactions stochiometries res_data [] = Done rows /\
    length rows = length res_data /\
    size (missing_indices reactions res_data)
    = (length reactions - length res_data)%nat.
Proof.
  intros res_lines valid nl text reactions stochiometries res_data.
  assert (Hc : nonblank_count (Py.splitlines text) <= len reactions)
    by (vm_compute; discriminate).
  split; [reflexivity|]. split; [reflexivity|]. split; [exact Hc|].
  exact (filter_parse_join res_lines valid res_lines reactions stochiometries
           text false 0 res_data eq_refl eq_refl Hc).
Defined.

(** *** The conversions between [ati] and [atlist] *)
Import Conversion ConversionProps.

Lemma wrap64_small (z : Z) : - 2 ^ 63 <= z < 2 ^ 63 -> Mol.wrap64 z = z.
Proof. intros H. unfold Mol.wrap64. rewrite Z.mod_small; lia. Qed.

Lemma position_range (n i : Z) : - n <= i < n -> 0 <= position n i < n.
Proof.
  unfold position. intros H.
  destruct (i <? 0) eqn:E; [apply Z.ltb_lt in E | apply Z.ltb_ge in E]; lia.
Qed.

Lemma position_nonneg (n i : Z) : 0 <= i -> position n i = i.
Proof. unfold position. intros H. by rewrite (proj2 (Z.ltb_ge i 0) H). Qed.

Lemma increment_Value (a : list Z) (i : Z) (b : list Z) :
  increment a i = Value b ->
  - Mol.len a <= i < Mol.len a /\
  b = alter (fun x => Mol.wrap64 (x + 1)) (Z.to_nat (position (Mol.len a) i)) a.
Proof.
  unfold increment. destruct (_ || _) eqn:E; [discriminate|].
  intros [= <-]. apply orb_false_iff in E as [E1 E2].
  apply Z.ltb_ge in E1. apply Z.leb_gt in E2. split; [lia|reflexivity].
Qed.

Lemma increment_in_range (a : list Z) (i : Z) :
  - Mol.len a <= i < Mol.len a ->
  increment a i
  = Value (alter (fun x => Mol.wrap64 (x + 1)) (Z.to_nat (position (Mol.len a) i)) a).
Proof.
  intros H. unfold increment.
  rewrite (proj2 (Z.ltb_ge i (- Mol.len a))) by lia.
  rewrite (proj2 (Z.leb_gt (Mol.len a) i)) by lia. reflexivity.
Qed.

Lemma len_alter (f : Z -> Z) (k : nat) (a : list Z) : Mol.len (alter f k a) = Mol.len a.
Proof. unfold Mol.len. by rewrite length_alter. Qed.

Lemma count_atoms_range (a ati b : list Z) :
  count_atoms a ati = Value b ->
  length b = length a /\ forall i, i ∈ ati -> - Mol.len a <= i < Mol.len a.
Proof.
  revert a. induction ati as [|i rest IH]; intros a H.
  - inversion H. split; [done|]. intros i Hi. by apply elem_of_nil in Hi.
  - cbn [count_atoms] in H. destruct (increment a i) as [a'|e] eqn:E; [|discriminate].
    apply increment_Value in E as [Hi ->]. apply IH in H as [Hlen Hall].
    rewrite length_alter in Hlen. split; [exact Hlen|].
    intros j Hj. apply elem_of_cons in Hj as [->|Hj]; [exact Hi|].
    specialize (Hall j Hj). by rewrite len_alter in Hall.
Qed.

Lemma count_atoms_returns (a ati : list Z) :
  (forall i, i ∈ ati -> - Mol.len a <= i < Mol.len a) ->
  exists b, count_atoms a ati = Value b.
Proof.
  revert a. induction ati as [|i rest IH]; intros a H; [by eexists|].
  cbn [count_atoms]. rewrite increment_in_range by (apply H; by left).
  apply IH. intros j Hj. rewrite len_alter. apply H. by right.
Qed.

Lemma atoms_of_cons (k i : Z) (l : list Z) :
  atoms_of k (i :: l) = (if decide (i = k) then 1 else 0) + atoms_of k l.
Proof.
  unfold atoms_of. cbn [count_occ].
  destruct (Z.eq_dec i k) as [->|Hne].
  - rewrite decide_True by done. lia.
  - rewrite decide_False by done. lia.
Qed.

Lemma atoms_of_nonneg (k : Z) (l : list Z) : 0 <= atoms_of k l.
Proof. unfold atoms_of. lia. Qed.

Lemma atoms_of_le (k : Z) (l : list Z) : atoms_of k l <= Mol.len l.
Proof.
  induction l as [|i l IH]; [done|]. rewrite atoms_of_cons.
  unfold Mol.len in *. rewrite length_cons. destruct (decide (i = k)); lia.
Qed.

Lemma count_atoms_entries (a ati b : list Z) :
  count_atoms a ati = Value b ->
  forall (k : nat) (x : Z),
    a !! k = Some x -> 0 <= x -> x + Mol.len ati < 2 ^ 63 ->
    b !! k = Some (x + atoms_of (Z.of_nat k) (positions (Mol.len a) ati)).
Proof.
  revert a. induction ati as [|i rest IH]; intros a H k x Hk Hx Hbound.
  - inversion H; subst. unfold atoms_of. simpl. rewrite Z.add_0_r. exact Hk.
  - cbn [count_atoms] in H. destruct (increment a i) as [a'|e] eqn:E; [|discriminate].
    apply increment_Value in E as [Hi ->].
    pose proof (position_range _ _ Hi) as Hp.
    unfold Mol.len in Hbound. rewrite length_cons in Hbound.
    unfold positions. cbn [map]. rewrite atoms_of_cons.
    fold (positions (Mol.len a) rest).
    destruct (decide (position (Mol.len a) i = Z.of_nat k)) as [Heq|Hne].
    + specialize (IH _ H k (Mol.wrap64 (x + 1))). rewrite len_alter in IH.
      rewrite wrap64_small in IH by lia.
      rewrite IH; [f_equal; lia| |lia|unfold Mol.len; lia].
      rewrite Heq, Nat2Z.id, list_lookup_alter_eq, Hk. cbn.
      f_equal. apply wrap64_small. lia.
    + specialize (IH _ H k x). rewrite len_alter in IH.
      rewrite IH; [f_equal; lia| |lia|unfold Mol.len; lia].
      rewrite list_lookup_alter_ne by lia. exact Hk.
Qed.

Lemma total_alter (a : list Z) (k : nat) (x : Z) :
  a !! k = Some x -> total (alter (fun x => x + 1) k a) = total a + 1.
Proof.
  revert k. induction a as [|y a IH]; intros [|k] Hk; try discriminate.
  - cbn in *. lia.
  - change (total (y :: alter (fun x => x + 1) k a) = total (y :: a) + 1).
    cbn [total fold_right]. fold (total (alter (fun x => x + 1) k a)).
    fold (total a). rewrite (IH k Hk). lia.
Qed.

Lemma total_nonneg (a : list Z) : Forall (fun y => 0 <= y) a -> 0 <= total a.
Proof.
  induction 1 as [|y a Hy Ha IH]; [done|].
  change (total (y :: a)) with (y + total a). lia.
Qed.

Lemma total_lookup_le (a : list Z) (k : nat) (x : Z) :
  Forall (fun y => 0 <= y) a -> a !! k = Some x -> x <= total a.
Proof.
  intros Ha. revert k. induction Ha as [|y a Hy Ha IH]; intros [|k] Hk; try discriminate.
  - injection Hk as ->. pose proof (total_nonneg a Ha).
    change (total (x :: a)) with (x + total a). lia.
  - change (total (y :: a)) with (y + total a).
    specialize (IH k Hk). lia.
Qed.

Lemma count_atoms_total (a ati b : list Z) :
  count_atoms a ati = Value b ->
  Forall (fun y => 0 <= y) a -> total a + Mol.len ati < 2 ^ 63 ->
  Forall (fun y => 0 <= y) b /\ total b = total a + Mol.len ati.
Proof.
  revert a. induction ati as [|i rest IH]; intros a H Ha Hbound.
  - inversion H; subst. split; [exact Ha|]. unfold Mol.len. simpl. lia.
  - cbn [count_atoms] in H. destruct (increment a i) as [a'|e] eqn:E; [|discriminate].
    apply increment_Value in E as [Hi ->].
    pose proof (position_range _ _ Hi) as Hp.
    unfold Mol.len in Hbound. rewrite length_cons in Hbound.
    destruct (lookup_lt_is_Some_2 a (Z.to_nat (position (Mol.len a) i))) as [x Hx].
    { revert Hp. unfold Mol.len. generalize (position (Z.of_nat (length a)) i). lia. }
    pose proof (total_lookup_le _ _ _ Ha Hx) as Hle.
    pose proof (proj1 (Forall_lookup _ _) Ha _ _ Hx) as Hx0. cbn in Hx0.
    assert (Halter :
      alter (fun x => Mol.wrap64 (x + 1)) (Z.to_nat (position (Mol.len a) i)) a
      = alter (fun x => x + 1) (Z.to_nat (position (Mol.len a) i)) a).
    { apply list_alter_ext; [|done]. intros y Hy.
      assert (y = x) as -> by congruence. apply wrap64_small. lia. }
    rewrite Halter in H. apply IH in H as [Hb Ht].
    + split; [exact Hb|]. rewrite Ht, (total_alter _ _ _ Hx).
      unfold Mol.len. rewrite length_cons. lia.
    + apply Forall_alter; [exact Ha|]. intros y _ Hy. cbn. lia.
    + rewrite (total_alter _ _ _ Hx). unfold Mol.len. lia.
Qed.

Lemma np_sum_int_total (l : list Z) :
  Forall (fun y => 0 <= y) l -> total l < 2 ^ 63 -> Mol.np_sum_int l = total l.
Proof.
  intros Hl Hbound. unfold Mol.np_sum_int.
  assert (G : forall acc, 0 <= acc -> acc + total l < 2 ^ 63 ->
            fold_left (fun acc x => Mol.wrap64 (acc + x)) l acc = acc + total l).
  { clear Hbound. induction Hl as [|y l Hy Hl IH]; intros acc Hacc Hb.
    - cbn. lia.
    - change (total (y :: l)) with (y + total l) in Hb.
      change (total (y :: l)) with (y + total l).
      cbn [fold_left]. pose proof (total_nonneg _ Hl).
      rewrite wrap64_small by lia. rewrite IH by lia. lia. }
  rewrite G; lia.
Qed.

Lemma count_atoms_throws (a ati : list Z) (e : Exception) :
  count_atoms a ati = Throw e ->
  exists pre i post,
    ati = pre ++ i :: post /\ e = OutOfBounds i /\
    ~ (- Mol.len a <= i < Mol.len a) /\
    forall j, j ∈ pre -> - Mol.len a <= j < Mol.len a.
Proof.
  revert a. induction ati as [|i rest IH]; intros a H; [discriminate|].
  cbn [count_atoms] in H. destruct (increment a i) as [a'|e'] eqn:E.
  - apply increment_Value in E as [Hi ->].
    apply IH in H as (pre & j & post & -> & -> & Hj & Hpre).
    rewrite len_alter in Hj, Hpre.
    exists (i :: pre), j, post. split; [done|]. split; [done|]. split; [exact Hj|].
    intros k Hk. apply elem_of_cons in Hk as [->|Hk]; [exact Hi|by apply Hpre].
  - injection H as <-. unfold increment in E.
    destruct (_ || _) eqn:Eb; [|discriminate]. injection E as <-.
    exists [], i, rest. split; [done|]. split; [done|]. split.
    + apply orb_true_iff in Eb as [Eb|Eb];
        [apply Z.ltb_lt in Eb | apply Z.leb_le in Eb]; lia.
    + intros j Hj. by apply elem_of_nil in Hj.
Qed.

Lemma np_full_Value (num i : Z) (block : list Z) :
  np_full num i = Value block -> 0 <= num /\ block = replicate (Z.to_nat num) i.
Proof.
  unfold np_full. destruct (num <? 0) eqn:E; [discriminate|].
  intros [= <-]. apply Z.ltb_ge in E. done.
Qed.

Lemma append_atoms_blocks (i : Z) (atlist acc ati : list Z) :
  append_atoms i atlist acc = Value ati ->
  Forall (fun num => 0 <= num) atlist /\ ati = acc ++ blocks i atlist.
Proof.
  revert i acc. induction atlist as [|num rest IH]; intros i acc H.
  - injection H as <-. split; [constructor|]. cbn. by rewrite app_nil_r.
  - cbn [append_atoms] in H. destruct (np_full num i) as [block|e] eqn:E; [|discriminate].
    apply np_full_Value in E as [Hnum ->]. apply IH in H as [Hrest ->].
    split; [by constructor|]. cbn [blocks]. by rewrite <- app_assoc.
Qed.

Lemma append_atoms_returns (i : Z) (atlist acc : list Z) :
  Forall (fun num => 0 <= num) atlist ->
  append_atoms i atlist acc = Value (acc ++ blocks i atlist).
Proof.
  intros H. revert i acc. induction H as [|num rest Hnum Hrest IH]; intros i acc.
  - cbn. by rewrite app_nil_r.
  - cbn [append_atoms blocks]. unfold np_full.
    rewrite (proj2 (Z.ltb_ge num 0) Hnum). rewrite IH. by rewrite <- app_assoc.
Qed.

Lemma append_atoms_throws (i : Z) (atlist acc : list Z) (e : Exception) :
  append_atoms i atlist acc = Throw e ->
  exists pre num post,
    atlist = pre ++ num :: post /\ e = NegativeDimensions num /\ num < 0 /\
    Forall (fun n => 0 <= n) pre.
Proof.
  revert i acc. induction atlist as [|num rest IH]; intros i acc H; [discriminate|].
  cbn [append_atoms] in H. unfold np_full in H. destruct (num <? 0) eqn:E.
  - injection H as <-. apply Z.ltb_lt in E. by exists [], num, rest.
  - apply Z.ltb_ge in E. apply IH in H as (pre & n & post & -> & -> & Hn & Hpre).
    exists (num :: pre), n, post. split; [done|]. split; [done|]. split; [done|].
    by constructor.
Qed.

Lemma blocks_bounds (i : Z) (atlist : list Z) :
  Forall (fun x => i <= x < i + Mol.len atlist) (blocks i atlist).
Proof.
  revert i. induction atlist as [|num rest IH]; intros i; [constructor|].
  cbn [blocks]. unfold Mol.len in *. rewrite length_cons. apply Forall_app. split.
  - apply Forall_replicate. lia.
  - eapply Forall_impl; [apply IH|]. cbn. intros x Hx. lia.
Qed.

Lemma blocks_sorted (i : Z) (atlist : list Z) : StronglySorted Z.le (blocks i atlist).
Proof.
  revert i. induction atlist as [|num rest IH]; intros i; [constructor|].
  cbn [blocks]. apply StronglySorted_app_2.
  - intros x1 x2 H1 H2. apply elem_of_replicate in H1 as [-> _].
    pose proof (proj1 (Forall_forall _ _) (blocks_bounds (i + 1) rest) x2 H2). cbn in *. lia.
  - induction (Z.to_nat num) as [|n IHn]; cbn; [constructor|].
    constructor; [exact IHn|]. apply Forall_replicate. lia.
  - apply IH.
Qed.

Lemma blocks_length (i : Z) (atlist : list Z) :
  Forall (fun num => 0 <= num) atlist -> Mol.len (blocks i atlist) = total atlist.
Proof.
  intros H. revert i. induction H as [|num rest Hnum Hrest IH]; intros i; [done|].
  cbn [blocks]. change (total (num :: rest)) with (num + total rest).
  rewrite <- (IH (i + 1)). unfold Mol.len. rewrite length_app, length_replicate. lia.
Qed.

Lemma atoms_of_app (k : Z) (l1 l2 : list Z) :
  atoms_of k (l1 ++ l2) = atoms_of k l1 + atoms_of k l2.
Proof. unfold atoms_of. rewrite count_occ_app. lia. Qed.

Lemma atoms_of_absent (k : Z) (l : list Z) : k ∉ l -> atoms_of k l = 0.
Proof.
  intros H. unfold atoms_of.
  rewrite (proj1 (count_occ_not_In Z.eq_dec l k)); [done|].
  intros Hin. apply H. by apply list_elem_of_In.
Qed.

Lemma atoms_of_replicate (k : Z) (n : nat) : atoms_of k (replicate n k) = Z.of_nat n.
Proof.
  induction n as [|n IH]; [done|]. cbn [replicate]. rewrite atoms_of_cons, IH.
  rewrite decide_True by done. lia.
Qed.

Lemma blocks_atoms_outside (i v : Z) (atlist : list Z) :
  ~ (i <= v < i + Mol.len atlist) -> atoms_of v (blocks i atlist) = 0.
Proof.
  intros H. apply atoms_of_absent. intros Hin.
  apply H. exact (proj1 (Forall_forall _ _) (blocks_bounds i atlist) v Hin).
Qed.

Lemma blocks_atoms (i : Z) (atlist : list Z) (k : nat) (num : Z) :
  Forall (fun n => 0 <= n) atlist -> atlist !! k = Some num ->
  atoms_of (i + Z.of_nat k) (blocks i atlist) = num.
Proof.
  intros H. revert i k. induction H as [|n rest Hn Hrest IH]; intros i [|k] Hk;
    try discriminate.
  - injection Hk as ->. cbn [blocks]. rewrite atoms_of_app.
    replace (i + Z.of_nat 0) with i by lia.
    rewrite atoms_of_replicate, blocks_atoms_outside by lia. lia.
  - cbn [blocks]. rewrite atoms_of_app.
    rewrite (atoms_of_absent _ (replicate _ _)).
    + replace (i + Z.of_nat (S k)) with (i + 1 + Z.of_nat k) by lia.
      rewrite (IH (i + 1) k Hk). lia.
    + intros Hin. apply elem_of_replicate in Hin as [Heq _]. lia.
Qed.

Lemma positions_nonneg (n : Z) (l : list Z) :
  Forall (fun x => 0 <= x) l -> positions n l = l.
Proof.
  induction 1 as [|x l Hx Hl IH]; [done|].
  unfold positions in *. cbn [map]. by rewrite IH, position_nonneg.
Qed.

Lemma positions_range (n : Z) (l : list Z) :
  (forall i, i ∈ l -> - n <= i < n) -> Forall (fun x => 0 <= x < n) (positions n l).
Proof.
  intros H. unfold positions. apply Forall_map, Forall_forall.
  intros i Hi. cbn. apply position_range. by apply H.
Qed.

Lemma total_zeros (n : nat) : total (replicate n 0) = 0.
Proof. induction n as [|n IH]; [done|]. cbn [replicate]. exact IH. Qed.

(** X25.  For fewer than [2 ^ 63] atoms, which is every array that fits in
    memory, [ati_to_atlist] returns exactly when every entry of [ati] is an
    index numpy accepts for an array of 103 entries, from -103 to 102, and
    otherwise raises the index error of the first entry that is not.  When
    it returns, the array has 103 entries, entry [k] is the number of atoms
    whose index denotes position [k] (a negative index counts from the end),
    and the entries add up to the number of atoms. *)
Theorem ati_to_atlist_counts (ati : list Z) :
  Mol.len ati < 2 ^ 63 ->
  ((exists atlist, ati_to_atlist ati = Value atlist)
   <-> forall i, i ∈ ati -> -103 <= i < 103) /\
  (forall e, ati_to_atlist ati = Throw e ->
     exists pre i post,
       ati = pre ++ i :: post /\ e = OutOfBounds i /\ ~ (-103 <= i < 103) /\
       forall j, j ∈ pre -> -103 <= j < 103) /\
  (forall atlist, ati_to_atlist ati = Value atlist ->
     length atlist = 103%nat /\
     (forall k : nat, (k < 103)%nat ->
        atlist !! k = Some (atoms_of (Z.of_nat k) (positions 103 ati))) /\
     Mol.np_sum_int atlist = Mol.len ati).
Proof.
  intros Hbound. unfold ati_to_atlist. split; [split|split].
  - intros [atlist H] i Hi. apply count_atoms_range in H as [_ H].
    exact (H i Hi).
  - intros H. apply count_atoms_returns. exact H.
  - intros e H. apply count_atoms_throws in H. exact H.
  - intros atlist H. split; [|split].
    + apply count_atoms_range in H as [-> _]. apply length_replicate.
    + intros k Hk.
      rewrite (count_atoms_entries _ _ _ H k 0);
        [|by apply lookup_replicate_2|done|lia].
      replace (Mol.len (replicate 103 0)) with 103
        by (unfold Mol.len; by rewrite length_replicate).
      f_equal.
    + apply count_atoms_total in H as [Hpos Htotal].
      * rewrite np_sum_int_total; [|exact Hpos|]; rewrite Htotal, total_zeros; lia.
      * by apply Forall_replicate.
      * rewrite total_zeros. lia.
Qed.

Lemma ati_to_atlist_counts_witness :
  let ati := [0; 5; 0; -1] in
  Mol.len ati < 2 ^ 63 /\
  ati_to_atlist ati
  = Value ([2; 0; 0; 0; 0; 1] ++ replicate 96 0 ++ [1]) /\
  ((exists atlist, ati_to_atlist ati = Value atlist)
   <-> forall i, i ∈ ati -> -103 <= i < 103) /\
  (forall e, ati_to_atlist ati = Throw e ->
     exists pre i post,
       ati = pre ++ i :: post /\ e = OutOfBounds i /\ ~ (-103 <= i < 103) /\
       forall j, j ∈ pre -> -103 <= j < 103) /\
  (forall atlist, ati_to_atlist ati = Value atlist ->
     length atlist = 103%nat /\
     (forall k : nat, (k < 103)%nat ->
        atlist !! k = Some (atoms_of (Z.of_nat k) (positions 103 ati))) /\
     Mol.np_sum_int atlist = Mol.len ati).
Proof.
  intros ati.
  assert (Hbound : Mol.len ati < 2 ^ 63) by (vm_compute; reflexivity).
  split; [exact Hbound|]. split; [vm_compute; reflexivity|].
  exact (ati_to_atlist_counts ati Hbound).
Defined.

(** X26.  [atlist_to_ati] returns exactly when no count is negative, and
    otherwise raises the error of [np.full] for the first negative count.
    When it returns, the indices are in non-decreasing order, each one is a
    position of [atlist], the index [k] occurs as often as the count at
    position [k] says, and there are as many indices as the counts add up
    to. *)
Theorem atlist_to_ati_spec (atlist : list Z) :
  ((exists ati, atlist_to_ati atlist = Value ati)
   <-> forall num, num ∈ atlist -> 0 <= num) /\
  (forall e, atlist_to_ati atlist = Throw e ->
     exists pre num post,
       atlist = pre ++ num :: post /\ e = NegativeDimensions num /\ num < 0 /\
       forall n, n ∈ pre -> 0 <= n) /\
  (forall ati, atlist_to_ati atlist = Value ati ->
     StronglySorted Z.le ati /\
     (forall i, i ∈ ati -> 0 <= i < Mol.len atlist) /\
     (forall (k : nat) (num : Z),
        atlist !! k = Some num -> atoms_of (Z.of_nat k) ati = num) /\
     Mol.len ati = total atlist).
Proof.
  unfold atlist_to_ati. split; [split|split].
  - intros [ati H] num Hnum. apply append_atoms_blocks in H as [H _].
    exact (proj1 (Forall_forall _ _) H num Hnum).
  - intros H. eexists. apply append_atoms_returns. by apply Forall_forall.
  - intros e H. apply append_atoms_throws in H as (pre & num & post & ? & ? & ? & Hpre).
    exists pre, num, post. split; [done|]. split; [done|]. split; [done|].
    intros n Hn. exact (proj1 (Forall_forall _ _) Hpre n Hn).
  - intros ati H. apply append_atoms_blocks in H as [Hpos ->]. cbn [app].
    split; [apply blocks_sorted|]. split; [|split].
    + intros i Hi.
      pose proof (proj1 (Forall_forall _ _) (blocks_bounds 0 atlist) i Hi) as Hb.
      cbn in Hb. lia.
    + intros k num Hk. rewrite <- (blocks_atoms 0 atlist k num Hpos Hk).
      f_equal.
    + by apply blocks_length.
Qed.

(** X27.  From counts to indices and back: when [atlist_to_ati] returns the
    indices of an array of at most 103 counts, fewer than [2 ^ 63] of them,
    [ati_to_atlist] of these indices returns the counts again, filled up with zeros to 103 entries;
    for 103 counts the round trip is the identity. *)
Theorem atlist_ati_atlist (atlist ati : list Z) :
  (length atlist <= 103)%nat ->
  atlist_to_ati atlist = Value ati ->
  Mol.len ati < 2 ^ 63 ->
  ati_to_atlist ati = Value (atlist ++ replicate (103 - length atlist) 0) /\
  (length atlist = 103%nat -> ati_to_atlist ati = Value atlist).
Proof.
  intros Hlen H Hbound. unfold atlist_to_ati in H.
  apply append_atoms_blocks in H as [Hpos ->]. cbn [app] in *.
  assert (Hround : ati_to_atlist (blocks 0 atlist)
                   = Value (atlist ++ replicate (103 - length atlist) 0)).
  { unfold ati_to_atlist.
    pose proof (blocks_bounds 0 atlist) as Hb.
    assert (Hnn : Forall (fun x => 0 <= x) (blocks 0 atlist)).
    { eapply Forall_impl; [exact Hb|]. cbn. intros x Hx. lia. }
    destruct (count_atoms_returns (replicate 103 0) (blocks 0 atlist)) as [b Hcount].
    { intros i Hi. pose proof (proj1 (Forall_forall _ _) Hb i Hi) as Hi'. cbn in Hi'.
      unfold Mol.len in *. rewrite length_replicate. lia. }
    rewrite Hcount. f_equal. apply list_eq. intros k.
    pose proof (count_atoms_range _ _ _ Hcount) as [Hlenb _].
    rewrite length_replicate in Hlenb.
    destruct (decide (k < 103)%nat) as [Hk|Hk].
    - rewrite (count_atoms_entries _ _ _ Hcount k 0);
        [|by apply lookup_replicate_2|done|lia].
      replace (Mol.len (replicate 103 0)) with 103
        by (unfold Mol.len; by rewrite length_replicate).
      rewrite positions_nonneg by exact Hnn.
      destruct (atlist !! k) as [num|] eqn:Ek.
      + rewrite lookup_app_l by (by eapply lookup_lt_Some).
        rewrite Ek. f_equal.
        rewrite <- (blocks_atoms 0 atlist k num Hpos Ek). f_equal.
      + apply lookup_ge_None in Ek.
        rewrite lookup_app_r by exact Ek.
        rewrite lookup_replicate_2 by lia. f_equal.
        rewrite blocks_atoms_outside; [done|]. unfold Mol.len. lia.
    - rewrite (proj2 (lookup_ge_None b k)) by lia.
      symmetry. apply lookup_ge_None.
      rewrite length_app, length_replicate. lia. }
  split; [exact Hround|].
  intros Hfull. rewrite Hround, Hfull. cbn. by rewrite app_nil_r.
Qed.

Lemma atlist_ati_atlist_witness :
  let atlist := [2; 0; 1] in
  let ati := [0; 0; 2] in
  (length atlist <= 103)%nat /\
  atlist_to_ati atlist = Value ati /\
  Mol.len ati < 2 ^ 63 /\
  ati_to_atlist ati = Value (atlist ++ replicate (103 - length atlist) 0) /\
  (length atlist = 103%nat -> ati_to_atlist ati = Value atlist).
Proof.
  intros atlist ati.
  assert (Hlen : (length atlist <= 103)%nat) by (vm_compute; lia).
  assert (Hbound : Mol.len ati < 2 ^ 63) by (vm_compute; reflexivity).
  split; [exact Hlen|]. split; [reflexivity|]. split; [exact Hbound|].
  exact (atlist_ati_atlist atlist ati Hlen eq_refl Hbound).
Defined.

(** X28.  From indices to counts and back: when [ati_to_atlist] returns
    for fewer than [2 ^ 63] indices,
    [atlist_to_ati] of its result returns the positions the indices denote,
    rearranged in non-decreasing order; indices that are not negative and
    already in non-decreasing order come back unchanged. *)
Theorem ati_atlist_ati (ati atlist : list Z) :
  Mol.len ati < 2 ^ 63 ->
  ati_to_atlist ati = Value atlist ->
  exists ati',
    atlist_to_ati atlist = Value ati' /\
    StronglySorted Z.le ati' /\
    ati' ≡ₚ positions 103 ati /\
    ((forall i, i ∈ ati -> 0 <= i) -> StronglySorted Z.le ati -> ati' = ati).
Proof.
  intros Hbound H. unfold ati_to_atlist in H.
  pose proof (count_atoms_range _ _ _ H) as [Hlen Hrange].
  rewrite length_replicate in Hlen.
  replace (Mol.len (replicate 103 0)) with 103 in Hrange
    by (unfold Mol.len; by rewrite length_replicate).
  assert (Hentries : forall k : nat, (k < 103)%nat ->
            atlist !! k = Some (atoms_of (Z.of_nat k) (positions 103 ati))).
  { intros k Hk. rewrite (count_atoms_entries _ _ _ H k 0);
      [|by apply lookup_replicate_2|done|lia].
    replace (Mol.len (replicate 103 0)) with 103
      by (unfold Mol.len; by rewrite length_replicate).
    done. }
  assert (Hpos : Forall (fun n => 0 <= n) atlist).
  { apply Forall_lookup. intros k x Hk.
    rewrite Hentries in Hk by (apply lookup_lt_Some in Hk; lia).
    injection Hk as <-. apply atoms_of_nonneg. }
  assert (Hperm : blocks 0 atlist ≡ₚ positions 103 ati).
  { apply (Permutation_count_occ Z.eq_dec). intros v.
    apply Nat2Z.inj. fold (atoms_of v (blocks 0 atlist)).
    fold (atoms_of v (positions 103 ati)).
    destruct (decide (0 <= v < 103)) as [Hv|Hv].
    - specialize (Hentries (Z.to_nat v) ltac:(lia)).
      rewrite Z2Nat.id in Hentries by lia.
      rewrite <- (blocks_atoms 0 atlist _ _ Hpos Hentries).
      f_equal. lia.
    - rewrite blocks_atoms_outside by (unfold Mol.len; lia).
      symmetry. apply atoms_of_absent. intros Hin.
      apply Hv. exact (proj1 (Forall_forall _ _) (positions_range 103 ati Hrange) v Hin). }
  exists (blocks 0 atlist). unfold atlist_to_ati.
  split; [exact (append_atoms_returns 0 atlist [] Hpos)|].
  split; [apply blocks_sorted|]. split; [exact Hperm|].
  intros Hnn Hsorted. rewrite positions_nonneg in Hperm by (by apply Forall_forall).
  apply (StronglySorted_unique_strong Z.le); [|apply blocks_sorted|exact Hsorted|exact Hperm].
  intros x1 x2 _ _ H1 H2. lia.
Qed.

Lemma ati_atlist_ati_witness :
  let ati := [5; 0; -1; 5] in
  let atlist := [1; 0; 0; 0; 0; 2] ++ replicate 96 0 ++ [1] in
  Mol.len ati < 2 ^ 63 /\
  ati_to_atlist ati = Value atlist /\
  atlist_to_ati atlist = Value [0; 5; 5; 102] /\
  exists ati',
    atlist_to_ati atlist = Value ati' /\
    StronglySorted Z.le ati' /\
    ati' ≡ₚ positions 103 ati /\
    ((forall i, i ∈ ati -> 0 <= i) -> StronglySorted Z.le ati -> ati' = ati).
Proof.
  intros ati atlist.
  assert (Hbound : Mol.len ati < 2 ^ 63) by (vm_compute; reflexivity).
  split; [exact Hbound|]. split; [vm_compute; reflexivity|].
  split; [vm_compute; reflexivity|].
  exact (ati_atlist_ati ati atlist Hbound eq_refl).
Defined.
